(** * Patent search client: session and search orchestration

    A shallow embedding of the browser client's orchestration layer
    (api.js, utils.js, ui.js, search.js, chat.js, excel.js, app.js) and the
    properties its specification states about it.

    JavaScript objects become records that are threaded through explicitly;
    an [async] function becomes a resumption: it runs atomically up to its
    next [await], hands the pending operation to the event loop and is
    resumed with the answer in whatever state the page is in by then. *)

From Stdlib Require Import ZArith NArith List String Ascii Lia Bool.
From stdpp Require Import gmap strings list fin_maps.

Open Scope Z_scope.

(** ** JavaScript strings

    A JavaScript string is a sequence of UTF-16 code units; [length],
    [trim], [replace] and [===] all work on code units, so that is what the
    model keeps. *)

Abbreviation jsstr := (list N).

(** Reads the UTF-8 bytes of a source literal as code units (one-, two- and
    three-byte sequences, which cover every literal of the program). *)
Fixpoint utf8_units (bs : list N) : list N :=
  match bs with
  | [] => []
  | b :: rest =>
      if (b <? 128)%N then b :: utf8_units rest
      else if (b <? 224)%N then
        match rest with
        | c :: r => ((b - 192) * 64 + (c - 128))%N :: utf8_units r
        | [] => [b]
        end
      else
        match rest with
        | c :: d :: r =>
            ((b - 224) * 4096 + (c - 128) * 64 + (d - 128))%N :: utf8_units r
        | _ => b :: rest
        end
  end.

Definition js (s : string) : jsstr :=
  utf8_units (map N_of_ascii (list_ascii_of_string s)).

(** [String(n)] for a non-negative integer. *)
Definition digit (d : N) : N := (48 + d)%N.

Fixpoint decimal_fuel (fuel : nat) (n : N) (acc : jsstr) : jsstr :=
  match fuel with
  | O => acc
  | S f =>
      let acc' := digit (n mod 10) :: acc in
      if (n <? 10)%N then acc' else decimal_fuel f (n / 10)%N acc'
  end.

Definition decimal (n : N) : jsstr := decimal_fuel (S (N.to_nat (N.log2 n))) n [].

(** [String.prototype.trim]: white space and line terminators of ECMAScript. *)
Definition is_space (c : N) : bool :=
  ((9 <=? c) && (c <=? 13) || (c =? 32) || (c =? 160) || (c =? 5760)
   || ((8192 <=? c) && (c <=? 8202)) || (c =? 8232) || (c =? 8233)
   || (c =? 8239) || (c =? 8287) || (c =? 12288) || (c =? 65279))%N.

Fixpoint trimStart (s : jsstr) : jsstr :=
  match s with
  | c :: r => if is_space c then trimStart r else s
  | [] => []
  end.

Definition trimEnd (s : jsstr) : jsstr := rev (trimStart (rev s)).
Definition trim (s : jsstr) : jsstr := trimEnd (trimStart s).

(** [s.replace(c, '')] for a one-unit pattern: the first occurrence goes. *)
Fixpoint remove_first (c : N) (s : jsstr) : jsstr :=
  match s with
  | [] => []
  | x :: r => if (x =? c)%N then r else x :: remove_first c r
  end.

Definition str_eqb (a b : jsstr) : bool := bool_decide (a = b).

(** [arr.includes(k)] on an array of strings. *)
Definition includes (l : list jsstr) (k : jsstr) : bool := bool_decide (k ∈ l).

(** ** Values of loosely typed fields

    The fields [detail], [message] and [error] of a response are read with
    [a || b || 'text']: what matters is whether the value is truthy and what
    it converts to as a string. *)

Inductive jsval :=
| VUndefined
| VNull
| VStr (s : jsstr)
| VObj (shown : jsstr).   (* an array or object, with its String() form *)

Definition truthy (v : jsval) : bool :=
  match v with
  | VStr s => negb (str_eqb s [])
  | VObj _ => true
  | _ => false
  end.

(** [a || b] *)
Definition js_or (a b : jsval) : jsval := if truthy a then a else b.

(** The message of [new Error(v)]. *)
Definition to_message (v : jsval) : jsstr :=
  match v with
  | VUndefined => []
  | VNull => js "null"
  | VStr s => s
  | VObj shown => shown
  end.

(** What a [throw] carries. *)
Inductive exn :=
| Error (message : jsstr)
| TypeError (message : jsstr)
| SyntaxError (message : jsstr)
| ThrownUndefined.

Definition new_Error (v : jsval) : exn := Error (to_message v).

Definition error_message (e : exn) : jsstr :=
  match e with
  | Error m | TypeError m | SyntaxError m => m
  | ThrownUndefined => []
  end.

(** ** Data exchanged with the backend *)

Record patent := Patent { title : jsstr; publication_number : jsstr }.

Record KeywordGroup := Group { keyword : jsstr; synonyms : list jsstr }.

Record MemoryStatus :=
  { memory_count : N; has_db_history : bool; has_search_cache : bool }.

(** A decoded JSON object of the backend. One record serves every endpoint:
    a field the backend left out is [VUndefined], [None], [0] or empty. *)
Record Body := {
  success : bool;
  detail : jsval;
  message : jsval;
  error : jsval;
  session_id : option jsstr;
  keywords_with_synonyms : option (list KeywordGroup);
  search_results : option (list patent);
  results : option (list patent);
  total_found : N;
  answer : jsstr;
  memory_status : option MemoryStatus;
  processed_count : N;
  errors : list jsstr
}.

Record File := { file_name : jsstr; file_size : N; file_type : jsstr }.

(** [requestData] of [manualSearch]. *)
Record SearchData := {
  sd_session_id : option jsstr;
  sd_description : jsstr;
  sd_generated_keywords : list jsstr;
  sd_selected_keywords : list jsstr;
  sd_custom_keywords : list jsstr;
  sd_user_code : jsstr;
  sd_max_results : N;
  sd_use_and_or_logic : bool
}.

(** [searchParams] of the condition search: the credential, the session
    and, in the order of the object literal, the twelve criteria. *)
Record SearchParams := {
  sp_user_code : jsstr;
  sp_max_results : N;
  sp_session_id : option jsstr;
  sp_criteria : list (string * jsstr)
}.

Inductive Payload :=
| NoPayload
| KeywordsPayload (description : jsstr) (sid : option jsstr)
| ConfirmPayload (d : SearchData)
| ConditionPayload (p : SearchParams)
| FilePayload (f : File)
| AskPayload (sid : option jsstr) (question : jsstr) (use_memory : bool)
| SessionPayload (sid : option jsstr).

Record Request := { url : jsstr; method : string; payload : Payload }.

Record HttpResponse := {
  ok : bool;
  status : N;
  statusText : jsstr;
  json : option Body        (* [None]: the body does not decode *)
}.

Inductive FetchOutcome :=
| Rejected (e : exn)                (* the transport failed *)
| Responded (r : HttpResponse).

(** ** Suspension points

    What an [async] function can wait for. *)
Inductive Eff : Type -> Type :=
| Fetch (r : Request) : Eff FetchOutcome
| Detach (r : Request) : Eff unit      (* a request whose answer the caller does not await *)
| ReadJson (r : HttpResponse) : Eff (option Body)
| Delay (ms : Z) : Eff unit
| Confirm (msg : jsstr) : Eff bool.

Inductive Event :=
| EFetch (r : Request)
| EReadJson
| EDelay (ms : Z)
| EConfirm (msg : jsstr).

Definition event_of {X} (e : Eff X) : Event :=
  match e with
  | Fetch r => EFetch r
  | Detach r => EFetch r
  | ReadJson _ => EReadJson
  | Delay ms => EDelay ms
  | Confirm m => EConfirm m
  end.

Definition is_fetch (e : Event) : bool :=
  match e with EFetch _ => true | _ => false end.

Definition delay_of (e : Event) : option Z :=
  match e with EDelay ms => Some ms | _ => None end.

(** The network calls and the waits of a trace. *)
Definition network_calls (tr : list Event) : nat := length (filter is_fetch tr).
Definition waits (tr : list Event) : list Z := omap delay_of tr.

(** ** The state of the client

    One record per module-level singleton, named after its class, and the
    page the client runs in. *)

(** [PatentSearchApp] *)
Record AppState := {
  app_isSearching : bool;
  app_apiKeyVerified : bool;
  app_currentSessionId : option jsstr;
  app_tech : option (list patent);          (* searchResults.tech *)
  app_condition : option (list patent);     (* searchResults.condition *)
  app_excel : option (list patent)          (* searchResults.excel *)
}.

(** [SearchManager] *)
Record SearchState := {
  sm_generatedKeywords : list KeywordGroup;
  sm_currentSessionId : option jsstr;
  sm_tech : option (list patent);
  sm_condition : option (list patent)
}.

Inductive Role := user | assistant | system.

(** An entry of [chatHistory] (time stamp and metadata left out). *)
Record ChatTurn := { turn_type : Role; turn_content : jsstr; turn_memoryMode : bool }.

(** [ChatManager] *)
Record ChatState := {
  chat_chatEnabled : bool;
  chat_memoryEnabled : bool;
  chat_chatHistory : list ChatTurn;
  chat_currentSessionId : option jsstr;
  chat_memoryStatus : option MemoryStatus
}.

(** [ExcelManager] *)
Record ExcelState := {
  xl_selectedFile : option File;
  xl_currentAnalysisResults : option Body;
  xl_isProcessing : bool
}.

Inductive MsgKind := MsgSuccess | MsgError | MsgWarning.

(** The three result sets. *)
Inductive Mode := Tech | Condition | Excel.

(** What a result container shows. *)
Inductive Content := NoResults | PatentList (ps : list patent).

(** A [select] element. *)
Record Select := { options : list jsstr; selectedIndex : option nat }.

(** A [.condition-row]: the text of each [.dropped-keyword] child of its
    drop zone, its hint and its two selectors. *)
Record Row := {
  row_conditionIndex : nat;
  row_hint : bool;                      (* the hint is displayed *)
  row_dropped : list jsstr;
  row_field : Select;
  row_logic : Select
}.

(** The page and [UIManager]. Elements are addressed by id; [elems] is the
    set of ids the document has. *)
Record Page := {
  elems : gset string;
  values : gmap string jsstr;              (* input.value *)
  messages : list (MsgKind * jsstr);       (* what showMessage displayed, oldest first *)
  percent : gmap string N;                 (* style.width and textContent, in percent *)
  progressIntervals : gset string;
  shown : gset string;                     (* elements with class "show" *)
  display : gmap string bool;              (* style.display is "block" *)
  disabled : gset string;
  content : gmap string Content;
  rows : list Row;                         (* children of #search-conditions *)
  chatMessages : list (Role * jsstr);      (* children of #chatMessages *)
  downloads : list (Mode * list patent)    (* what XLSX.writeFile was handed *)
}.

Record World := {
  baseUrl : jsstr;                         (* apiService.baseUrl *)
  app : AppState;
  search : SearchState;
  chat : ChatState;
  excel : ExcelState;
  page : Page;
  clock : N                                (* feeds Utils.generateSessionId *)
}.

Definition on_app (f : AppState -> AppState) (w : World) : World :=
  {| baseUrl := baseUrl w; app := f (app w); search := search w; chat := chat w;
     excel := excel w; page := page w; clock := clock w |}.
Definition on_search (f : SearchState -> SearchState) (w : World) : World :=
  {| baseUrl := baseUrl w; app := app w; search := f (search w); chat := chat w;
     excel := excel w; page := page w; clock := clock w |}.
Definition on_chat (f : ChatState -> ChatState) (w : World) : World :=
  {| baseUrl := baseUrl w; app := app w; search := search w; chat := f (chat w);
     excel := excel w; page := page w; clock := clock w |}.
Definition on_excel (f : ExcelState -> ExcelState) (w : World) : World :=
  {| baseUrl := baseUrl w; app := app w; search := search w; chat := chat w;
     excel := f (excel w); page := page w; clock := clock w |}.
Definition on_page (f : Page -> Page) (w : World) : World :=
  {| baseUrl := baseUrl w; app := app w; search := search w; chat := chat w;
     excel := excel w; page := f (page w); clock := clock w |}.
Definition tick (w : World) : World :=
  {| baseUrl := baseUrl w; app := app w; search := search w; chat := chat w;
     excel := excel w; page := page w; clock := (clock w + 1)%N |}.

Definition set_app_isSearching (b : bool) (a : AppState) : AppState :=
  {| app_isSearching := b; app_apiKeyVerified := app_apiKeyVerified a;
     app_currentSessionId := app_currentSessionId a; app_tech := app_tech a;
     app_condition := app_condition a; app_excel := app_excel a |}.
Definition set_app_currentSessionId (s : option jsstr) (a : AppState) : AppState :=
  {| app_isSearching := app_isSearching a; app_apiKeyVerified := app_apiKeyVerified a;
     app_currentSessionId := s; app_tech := app_tech a;
     app_condition := app_condition a; app_excel := app_excel a |}.
Definition set_app_tech (r : option (list patent)) (a : AppState) : AppState :=
  {| app_isSearching := app_isSearching a; app_apiKeyVerified := app_apiKeyVerified a;
     app_currentSessionId := app_currentSessionId a; app_tech := r;
     app_condition := app_condition a; app_excel := app_excel a |}.
Definition set_app_condition (r : option (list patent)) (a : AppState) : AppState :=
  {| app_isSearching := app_isSearching a; app_apiKeyVerified := app_apiKeyVerified a;
     app_currentSessionId := app_currentSessionId a; app_tech := app_tech a;
     app_condition := r; app_excel := app_excel a |}.
Definition set_app_excel (r : option (list patent)) (a : AppState) : AppState :=
  {| app_isSearching := app_isSearching a; app_apiKeyVerified := app_apiKeyVerified a;
     app_currentSessionId := app_currentSessionId a; app_tech := app_tech a;
     app_condition := app_condition a; app_excel := r |}.

Definition set_sm_generatedKeywords (g : list KeywordGroup) (s : SearchState) : SearchState :=
  {| sm_generatedKeywords := g; sm_currentSessionId := sm_currentSessionId s;
     sm_tech := sm_tech s; sm_condition := sm_condition s |}.
Definition set_sm_currentSessionId (i : option jsstr) (s : SearchState) : SearchState :=
  {| sm_generatedKeywords := sm_generatedKeywords s; sm_currentSessionId := i;
     sm_tech := sm_tech s; sm_condition := sm_condition s |}.
Definition set_sm_tech (r : option (list patent)) (s : SearchState) : SearchState :=
  {| sm_generatedKeywords := sm_generatedKeywords s;
     sm_currentSessionId := sm_currentSessionId s; sm_tech := r;
     sm_condition := sm_condition s |}.
Definition set_sm_condition (r : option (list patent)) (s : SearchState) : SearchState :=
  {| sm_generatedKeywords := sm_generatedKeywords s;
     sm_currentSessionId := sm_currentSessionId s; sm_tech := sm_tech s;
     sm_condition := r |}.

Definition set_chat_chatEnabled (b : bool) (c : ChatState) : ChatState :=
  {| chat_chatEnabled := b; chat_memoryEnabled := chat_memoryEnabled c;
     chat_chatHistory := chat_chatHistory c;
     chat_currentSessionId := chat_currentSessionId c;
     chat_memoryStatus := chat_memoryStatus c |}.
Definition set_chat_chatHistory (h : list ChatTurn) (c : ChatState) : ChatState :=
  {| chat_chatEnabled := chat_chatEnabled c; chat_memoryEnabled := chat_memoryEnabled c;
     chat_chatHistory := h; chat_currentSessionId := chat_currentSessionId c;
     chat_memoryStatus := chat_memoryStatus c |}.
Definition set_chat_currentSessionId (i : option jsstr) (c : ChatState) : ChatState :=
  {| chat_chatEnabled := chat_chatEnabled c; chat_memoryEnabled := chat_memoryEnabled c;
     chat_chatHistory := chat_chatHistory c; chat_currentSessionId := i;
     chat_memoryStatus := chat_memoryStatus c |}.
Definition set_chat_memoryStatus (m : option MemoryStatus) (c : ChatState) : ChatState :=
  {| chat_chatEnabled := chat_chatEnabled c; chat_memoryEnabled := chat_memoryEnabled c;
     chat_chatHistory := chat_chatHistory c;
     chat_currentSessionId := chat_currentSessionId c; chat_memoryStatus := m |}.

Definition set_xl_isProcessing (b : bool) (x : ExcelState) : ExcelState :=
  {| xl_selectedFile := xl_selectedFile x;
     xl_currentAnalysisResults := xl_currentAnalysisResults x; xl_isProcessing := b |}.
Definition set_xl_currentAnalysisResults (r : option Body) (x : ExcelState) : ExcelState :=
  {| xl_selectedFile := xl_selectedFile x; xl_currentAnalysisResults := r;
     xl_isProcessing := xl_isProcessing x |}.

Definition set_messages (x : list (MsgKind * jsstr)) (p : Page) : Page :=
  {| elems := elems p; values := values p; messages := x; percent := percent p;
     progressIntervals := progressIntervals p; shown := shown p; display := display p;
     disabled := disabled p; content := content p; rows := rows p;
     chatMessages := chatMessages p; downloads := downloads p |}.
Definition set_percent (x : gmap string N) (p : Page) : Page :=
  {| elems := elems p; values := values p; messages := messages p; percent := x;
     progressIntervals := progressIntervals p; shown := shown p; display := display p;
     disabled := disabled p; content := content p; rows := rows p;
     chatMessages := chatMessages p; downloads := downloads p |}.
Definition set_progressIntervals (x : gset string) (p : Page) : Page :=
  {| elems := elems p; values := values p; messages := messages p;
     percent := percent p; progressIntervals := x; shown := shown p;
     display := display p; disabled := disabled p; content := content p;
     rows := rows p; chatMessages := chatMessages p; downloads := downloads p |}.
Definition set_shown (x : gset string) (p : Page) : Page :=
  {| elems := elems p; values := values p; messages := messages p;
     percent := percent p; progressIntervals := progressIntervals p; shown := x;
     display := display p; disabled := disabled p; content := content p;
     rows := rows p; chatMessages := chatMessages p; downloads := downloads p |}.
Definition set_display (x : gmap string bool) (p : Page) : Page :=
  {| elems := elems p; values := values p; messages := messages p;
     percent := percent p; progressIntervals := progressIntervals p; shown := shown p;
     display := x; disabled := disabled p; content := content p; rows := rows p;
     chatMessages := chatMessages p; downloads := downloads p |}.
Definition set_disabled (x : gset string) (p : Page) : Page :=
  {| elems := elems p; values := values p; messages := messages p;
     percent := percent p; progressIntervals := progressIntervals p; shown := shown p;
     display := display p; disabled := x; content := content p; rows := rows p;
     chatMessages := chatMessages p; downloads := downloads p |}.
Definition set_content (x : gmap string Content) (p : Page) : Page :=
  {| elems := elems p; values := values p; messages := messages p;
     percent := percent p; progressIntervals := progressIntervals p; shown := shown p;
     display := display p; disabled := disabled p; content := x; rows := rows p;
     chatMessages := chatMessages p; downloads := downloads p |}.
Definition set_rows (x : list Row) (p : Page) : Page :=
  {| elems := elems p; values := values p; messages := messages p;
     percent := percent p; progressIntervals := progressIntervals p; shown := shown p;
     display := display p; disabled := disabled p; content := content p; rows := x;
     chatMessages := chatMessages p; downloads := downloads p |}.
Definition set_chatMessages (x : list (Role * jsstr)) (p : Page) : Page :=
  {| elems := elems p; values := values p; messages := messages p;
     percent := percent p; progressIntervals := progressIntervals p; shown := shown p;
     display := display p; disabled := disabled p; content := content p;
     rows := rows p; chatMessages := x; downloads := downloads p |}.
Definition set_downloads (x : list (Mode * list patent)) (p : Page) : Page :=
  {| elems := elems p; values := values p; messages := messages p;
     percent := percent p; progressIntervals := progressIntervals p; shown := shown p;
     display := display p; disabled := disabled p; content := content p;
     rows := rows p; chatMessages := chatMessages p; downloads := x |}.

Definition set_values (x : gmap string jsstr) (p : Page) : Page :=
  {| elems := elems p; values := x; messages := messages p; percent := percent p;
     progressIntervals := progressIntervals p; shown := shown p; display := display p;
     disabled := disabled p; content := content p; rows := rows p;
     chatMessages := chatMessages p; downloads := downloads p |}.

(** ** Asynchronous functions as resumptions *)

Inductive Outcome (A : Type) :=
| Return (a : A)
| Throw (e : exn).
Arguments Return {A} a.
Arguments Throw {A} e.

(** A call has either completed, leaving the state [w], or is suspended in
    state [w] on [e] and continues with [k] once the event loop has the
    answer; [k] also receives the state as it is at that moment. *)
Inductive Step (A : Type) : Type :=
| Done (o : Outcome A) (w : World)
| Await {X : Type} (e : Eff X) (w : World) (k : X -> World -> Step A).
Arguments Done {A} o w.
Arguments Await {A X} e w k.

Definition Task (A : Type) : Type := World -> Step A.

Definition ret {A} (a : A) : Task A := fun w => Done (Return a) w.
Definition throw {A} (e : exn) : Task A := fun w => Done (Throw e) w.
Definition await {X} (e : Eff X) : Task X := fun w => Await e w (fun x w' => Done (Return x) w').
Definition act (f : World -> World) : Task unit := fun w => Done (Return tt) (f w).
Definition gets {A} (f : World -> A) : Task A := fun w => Done (Return (f w)) w.

Fixpoint bindS {A B} (s : Step A) (f : A -> Task B) : Step B :=
  match s with
  | Done (Return a) w => f a w
  | Done (Throw e) w => Done (Throw e) w
  | Await e w k => Await e w (fun x w' => bindS (k x w') f)
  end.

Definition bind {A B} (t : Task A) (f : A -> Task B) : Task B := fun w => bindS (t w) f.

(** [try { s } catch (error) { h error }] *)
Fixpoint catchS {A} (s : Step A) (h : exn -> Task A) : Step A :=
  match s with
  | Done (Return a) w => Done (Return a) w
  | Done (Throw e) w => h e w
  | Await e w k => Await e w (fun x w' => catchS (k x w') h)
  end.

(** [try { s } finally { fin }], for a [finally] block that neither waits
    nor throws. *)
Fixpoint finallyS {A} (s : Step A) (fin : World -> World) : Step A :=
  match s with
  | Done o w => Done o (fin w)
  | Await e w k => Await e w (fun x w' => finallyS (k x w') fin)
  end.

Definition try_catch {A} (t : Task A) (h : exn -> Task A) : Task A :=
  fun w => catchS (t w) h.
Definition try_finally {A} (t : Task A) (fin : World -> World) : Task A :=
  fun w => finallyS (t w) fin.
Definition try_catch_finally {A} (t : Task A) (h : exn -> Task A)
    (fin : World -> World) : Task A :=
  try_finally (try_catch t h) fin.

#[global] Instance task_ret : MRet Task := @ret.
#[global] Instance task_bind : MBind Task := fun A B f t => bind t f.

(** ** The event loop

    The environment answers the suspended call: [net n] is the answer to
    the n-th network call, [dialog] the user's answer to a confirmation,
    and [meanwhile n] is what other handlers did to the state while the
    n-th suspension was pending. *)
Record Env := {
  net : nat -> Request -> FetchOutcome;
  dialog : jsstr -> bool;
  meanwhile : nat -> World -> World
}.

Definition reply {X} (env : Env) (tr : list Event) (e : Eff X) : X :=
  match e with
  | Fetch r => net env (network_calls tr) r
  | Detach _ => tt
  | ReadJson r => json r
  | Delay _ => tt
  | Confirm m => dialog env m
  end.

Record Run (A : Type) := { outcome : Outcome A; final : World; trace : list Event }.
Arguments outcome {A} r.
Arguments final {A} r.
Arguments trace {A} r.

Fixpoint run_from {A} (env : Env) (tr : list Event) (s : Step A) : Run A :=
  match s with
  | Done o w => {| outcome := o; final := w; trace := tr |}
  | Await e w k =>
      run_from env (tr ++ [event_of e])
        (k (reply env tr e) (meanwhile env (length tr) w))
  end.

Definition run {A} (env : Env) (t : Task A) (w : World) : Run A :=
  run_from env [] (t w).

(** An environment in which nothing else touches the state. *)
Definition alone (n : nat -> Request -> FetchOutcome) (d : jsstr -> bool) : Env :=
  {| net := n; dialog := d; meanwhile := fun _ w => w |}.

(** ** Small pieces of the DOM and of the language *)

Definition nonempty (s : jsstr) : bool := negb (str_eqb s []).

(** Truthiness of a session id ([null], [undefined] and [''] are falsy). *)
Definition is_set (o : option jsstr) : bool :=
  match o with Some s => nonempty s | None => false end.

(** [parts.join(sep)] *)
Fixpoint join (sep : jsstr) (parts : list jsstr) : jsstr :=
  match parts with
  | [] => []
  | [x] => x
  | x :: r => x ++ sep ++ join sep r
  end.

(** [[...new Set(l)]]: the first occurrence of each element, in order. *)
Fixpoint set_of (seen l : list jsstr) : list jsstr :=
  match l with
  | [] => []
  | x :: r => if includes seen x then set_of seen r else x :: set_of (x :: seen) r
  end.

Definition select_value (s : Select) : jsstr :=
  match selectedIndex s with
  | Some i => default [] (options s !! i)
  | None => []
  end.

Fixpoint index_of (v : jsstr) (l : list jsstr) : option nat :=
  match l with
  | [] => None
  | x :: r => if str_eqb x v then Some O else S <$> index_of v r
  end.

(** [select.value = v] selects the first option with that value, or none. *)
Definition select_set_value (v : jsstr) (s : Select) : Select :=
  {| options := options s; selectedIndex := index_of v (options s) |}.

(** [select.selectedIndex = 0] *)
Definition select_first (s : Select) : Select :=
  {| options := options s;
     selectedIndex := match options s with [] => None | _ => Some O end |}.

Definition set_row_hint (b : bool) (r : Row) : Row :=
  {| row_conditionIndex := row_conditionIndex r; row_hint := b;
     row_dropped := row_dropped r; row_field := row_field r; row_logic := row_logic r |}.
Definition set_row_dropped (d : list jsstr) (r : Row) : Row :=
  {| row_conditionIndex := row_conditionIndex r; row_hint := row_hint r;
     row_dropped := d; row_field := row_field r; row_logic := row_logic r |}.
Definition set_row_field (f : Select) (r : Row) : Row :=
  {| row_conditionIndex := row_conditionIndex r; row_hint := row_hint r;
     row_dropped := row_dropped r; row_field := f; row_logic := row_logic r |}.
Definition set_row_logic (l : Select) (r : Row) : Row :=
  {| row_conditionIndex := row_conditionIndex r; row_hint := row_hint r;
     row_dropped := row_dropped r; row_field := row_field r; row_logic := l |}.

(** The multiplication sign of the remove button. *)
Definition times : N := 215%N.

(** The characters that the HTML parser does not take as text when a
    string is assigned to [innerHTML]: [&] starts a character reference,
    [<] a tag, U+0000 is dropped and a carriage return becomes a line
    feed. *)
Definition markup_char (c : N) : bool :=
  ((c =? 38) || (c =? 60) || (c =? 0) || (c =? 13))%N.

Definition markup_free (s : jsstr) : bool := forallb (fun c => negb (markup_char c)) s.

(** The text of an entry that shows [keyword] as it is, followed by a
    blank and the remove button. *)
Definition entry_text (keyword : jsstr) : jsstr := keyword ++ [32%N; times].

(** [textContent] of the [.dropped-keyword] that
    [innerHTML = `${keyword} <span class="remove-btn">×</span>`] builds.
    The browser parses the string as HTML: a keyword free of markup
    becomes one text node, followed by the button. What the parser makes
    of any other keyword (character references are decoded, tags become
    elements of the page, a comment can swallow the button) is not
    followed here: [None]. *)
Definition label (keyword : jsstr) : option jsstr :=
  if markup_free keyword then Some (entry_text keyword) else None.

(** [child.textContent.replace('×', '').trim()] *)
Definition keyword_text (child : jsstr) : jsstr := trim (remove_first times child).

(** One collected search condition. *)
Record SearchCondition := {
  keywords : list jsstr;
  field : jsstr;
  logic : jsstr;
  condition_index : nat
}.

(** What [SearchManager.conditionSearch] resolves to. *)
Record ConditionResult := { patents : list patent; total : N; note : jsval }.

(** ** utils.js *)
Module Utils.

(** ['session_' + Date.now() + '_' + random]: the clock stands for both
    sources of freshness. *)
Definition generateSessionId (w : World) : jsstr * World :=
  (js "session_" ++ decimal (clock w), tick w).

(** Every value the program throws is an [Error] instance or, from the
    retry loop, [undefined]. *)
Definition extractErrorMessage (e : exn) : jsstr :=
  match e with
  | Error m | TypeError m | SyntaxError m => m
  | ThrownUndefined => js "未知錯誤類型"
  end.

Definition delay (ms : Z) : Task unit := await (Delay ms).

End Utils.

(** ** ui.js *)
Module UIManager.

Definition has (id : string) (w : World) : bool := bool_decide (id ∈ elems (page w)).

Definition showMessage (m : jsstr) (k : MsgKind) (w : World) : World :=
  on_page (fun p => set_messages (messages p ++ [(k, m)]) p) w.
Definition showSuccess (m : jsstr) : World -> World := showMessage m MsgSuccess.
Definition showError (m : jsstr) : World -> World := showMessage m MsgError.
Definition showWarning (m : jsstr) : World -> World := showMessage m MsgWarning.

(** The interval only advances the bar while it is registered; its ticks
    belong to the event loop. *)
Definition startProgressAnimation (progressId textId : string) (w : World) : World :=
  if negb (has progressId w && has textId w) then w
  else on_page (fun p => set_progressIntervals ({[progressId]} ∪ progressIntervals p) p) w.

Definition clearProgressInterval (progressId : string) (w : World) : World :=
  on_page (fun p => set_progressIntervals (progressIntervals p ∖ {[progressId]}) p) w.

Definition setBoth (progressId textId : string) (n : N) (w : World) : World :=
  if has progressId w && has textId w
  then on_page (fun p => set_percent (<[textId := n]> (<[progressId := n]> (percent p))) p) w
  else w.

Definition completeProgress (progressId textId : string) (w : World) : World :=
  setBoth progressId textId 100 (clearProgressInterval progressId w).

Definition resetProgress (progressId textId : string) (w : World) : World :=
  setBoth progressId textId 0 (clearProgressInterval progressId w).

(** [pct] is [percent * 100]; the loading text is not kept. *)
Definition updateProgress (progressId textId : string) (pct : N) (w : World) : World :=
  let w1 := if has progressId w
            then on_page (fun p => set_percent (<[progressId := pct]> (percent p)) p) w
            else w in
  if has textId w1
  then on_page (fun p => set_percent (<[textId := pct]> (percent p)) p) w1
  else w1.

Definition showLoading (id : string) (w : World) : World :=
  if has id w then on_page (fun p => set_shown ({[id]} ∪ shown p) p) w else w.
Definition hideLoading (id : string) (w : World) : World :=
  if has id w then on_page (fun p => set_shown (shown p ∖ {[id]}) p) w else w.

Definition toggleElement (id : string) (visible : bool) (w : World) : World :=
  if has id w then on_page (fun p => set_display (<[id := visible]> (display p)) p) w else w.

Definition toggleButton (id : string) (enabled : bool) (w : World) : World :=
  if has id w
  then on_page (fun p => set_disabled
                 (if enabled then disabled p ∖ {[id]} else {[id]} ∪ disabled p) p) w
  else w.

Definition getInputValue (id : string) (w : World) : jsstr :=
  if has id w then trim (default [] (values (page w) !! id)) else [].

Definition setContainerContent (id : string) (c : Content) (w : World) : World :=
  if has id w then on_page (fun p => set_content (<[id := c]> (content p)) p) w else w.

Definition setInputValue (id : string) (value : jsstr) (w : World) : World :=
  if has id w then on_page (fun p => set_values (<[id := value]> (values p)) p) w else w.

End UIManager.

(** ** api.js *)
Module APIService.

(** [request]: one network exchange. A response that is not [ok] becomes
    an [Error] whose message is read off the error body. *)
Definition request (endpoint : jsstr) (method : string) (payload : Payload) : Task Body :=
  try_catch
    (url ← gets (fun w => baseUrl w ++ endpoint);
     r ← await (Fetch {| url := url; method := method; payload := payload |});
     match r with
     | Rejected e => throw e
     | Responded response =>
         if negb (ok response) then
           let errorDetail := VStr (js "未知錯誤") in
           errorDetail ←
             try_catch
               (errorData ← await (ReadJson response);
                match errorData with
                | Some errorData =>
                    ret (js_or (detail errorData)
                           (js_or (message errorData)
                              (VStr (js "HTTP " ++ decimal (status response)))))
                | None => throw (SyntaxError (js "Unexpected token"))
                end)
               (fun _ => ret (VStr (js "HTTP " ++ decimal (status response)
                                     ++ js ": " ++ statusText response)));
           throw (new_Error errorDetail)
         else
           data ← await (ReadJson response);
           match data with
           | Some data => ret data
           | None => throw (SyntaxError (js "Unexpected token"))
           end
     end)
    (fun error => throw error).

Definition POST : string := "POST".
Definition GET : string := "GET".

Definition generateKeywords (description : jsstr) (sessionId : option jsstr) : Task Body :=
  try_catch
    (request (js "/api/v1/patents/keywords/generate-for-confirmation") POST
       (KeywordsPayload description sessionId))
    (fun error => throw error).

Definition confirmKeywordsAndSearch (searchData : SearchData) : Task Body :=
  try_catch
    (request (js "/api/v1/patents/search/tech-description-confirmed") POST
       (ConfirmPayload searchData))
    (fun error => throw error).

Definition conditionSearch (searchParams : SearchParams) : Task Body :=
  try_catch
    (request (js "/api/v1/patents/condition/search") POST (ConditionPayload searchParams))
    (fun error => throw error).

(** The upload goes to [fetch] directly, without [request]. *)
Definition uploadAndAnalyzeExcel (file : File) : Task Body :=
  try_catch
    (url ← gets (fun w => baseUrl w ++ js "/api/v1/patents/excel/upload-and-analyze");
     r ← await (Fetch {| url := url; method := POST; payload := FilePayload file |});
     match r with
     | Rejected e => throw e
     | Responded response =>
         if negb (ok response) then
           errorData ← await (ReadJson response);
           throw (new_Error
                    (js_or (from_option detail VUndefined errorData)
                       (VStr (js "HTTP " ++ decimal (status response)
                               ++ js ": " ++ statusText response))))
         else
           data ← await (ReadJson response);
           match data with
           | Some data => ret data
           | None => throw (SyntaxError (js "Unexpected token"))
           end
     end)
    (fun error => throw error).

Definition getMemoryStatus (sessionId : jsstr) : Task Body :=
  try_catch
    (request (js "/api/v1/patents/qa/memory-status/" ++ sessionId) GET NoPayload)
    (fun error => throw error).

Definition clearChatMemory (sessionId : jsstr) : Task Body :=
  try_catch
    (request (js "/api/v1/patents/qa/clear-memory") POST (SessionPayload (Some sessionId)))
    (fun error => throw error).

(** [requestWithRetry]: the [for] loop with [n] iterations still to run,
    at index [i]. *)
Fixpoint retry_loop (n : nat) (i maxRetries delay : Z) (lastError : exn)
    (endpoint : jsstr) (method : string) (payload : Payload) : Task Body :=
  match n with
  | O => throw lastError
  | S n' =>
      try_catch
        (request endpoint method payload)
        (fun error =>
           if i =? maxRetries then throw error
           else
             Utils.delay delay;;
             retry_loop n' (i + 1) maxRetries (delay * 2) error endpoint method payload)
  end.

Definition requestWithRetry (endpoint : jsstr) (method : string) (payload : Payload)
    (maxRetries delay : Z) : Task Body :=
  retry_loop (Z.to_nat (maxRetries + 1)) 0 maxRetries delay ThrownUndefined
    endpoint method payload.

Definition askSimpleQuestion (sessionId : option jsstr) (question : jsstr) : Task Body :=
  try_catch
    (request (js "/api/v1/patents/qa/ask-simple") POST (AskPayload sessionId question false))
    (fun error => throw error).

Definition askWithMemory (sessionId : option jsstr) (question : jsstr) : Task Body :=
  try_catch
    (request (js "/api/v1/patents/qa/ask-with-memory") POST
       (AskPayload sessionId question true))
    (fun error => throw error).

End APIService.

(** ** search.js *)
Module SearchManager.

Definition setSessionId (sessionId : option jsstr) : World -> World :=
  on_search (set_sm_currentSessionId sessionId).

Definition ensureSessionId (w : World) : World :=
  if is_set (sm_currentSessionId (search w)) then w
  else let '(id, w') := Utils.generateSessionId w in
       on_search (set_sm_currentSessionId (Some id)) w'.

Definition generateKeywords (description : jsstr) : Task Body :=
  if negb (nonempty description) || (length description <? 50)%nat then
    throw (Error (js "技術描述太短，請提供更詳細的描述（至少50個字）"))
  else
    act ensureSessionId;;
    try_catch
      (sessionId ← gets (fun w => sm_currentSessionId (search w));
       response ← APIService.generateKeywords description sessionId;
       if success response then
         act (on_search (set_sm_currentSessionId (session_id response)));;
         act (on_search (set_sm_generatedKeywords
                           (default [] (keywords_with_synonyms response))));;
         ret response
       else
         throw (new_Error (js_or (detail response)
                             (js_or (message response) (VStr (js "關鍵字生成失敗"))))))
      (fun error => throw error).

(** [addKeywordToDropZone(zone, keyword, type)] on the row of the zone.
    The result is [None] where the new entry is built from a keyword with
    markup (see [label]): from there on the page is what the HTML parser
    made of it, and the rows kept here no longer describe it. *)
Definition addKeywordToDropZone (keyword : jsstr) (zone : Row) : option Row :=
  let zone := set_row_hint false zone in
  let existingKeywords := map keyword_text (row_dropped zone) in
  if includes existingKeywords keyword then Some zone
  else
    entry ← label keyword;
    Some (set_row_dropped (row_dropped zone ++ [entry]) zone).

(** [handleDrop]: the keyword dragged onto the drop zone of row
    [conditionIndex] is assigned to that row. *)
Definition handleDrop (conditionIndex : nat) (keyword : jsstr) (w : World)
    : option World :=
  match rows (page w) !! conditionIndex with
  | None => Some w
  | Some zone =>
      zone ← addKeywordToDropZone keyword zone;
      Some (on_page (fun p => set_rows (<[conditionIndex := zone]> (rows p)) p) w)
  end.

Definition createConditionRow (conditionIndex : nat) : Row :=
  {| row_conditionIndex := conditionIndex;
     row_hint := true;
     row_dropped := [];
     row_field := {| options := [js "TI"; js "AB"; js "CL"]; selectedIndex := Some O |};
     row_logic := {| options := [js "AND"; js "OR"]; selectedIndex := Some O |} |}.

Definition addConditionRow (w : World) : World :=
  on_page (fun p => set_rows (rows p ++ [createConditionRow (length (rows p))]) p) w.

Definition clear_zone (r : Row) : Row := set_row_hint true (set_row_dropped [] r).

Definition clearAllConditions : Task unit :=
  act (on_page (fun p => set_rows (map clear_zone (rows p)) p));;
  allRows ← gets (fun w => rows (page w));
  match allRows with
  | [] => throw (TypeError (js "Cannot read properties of null"))
  | firstRow :: _ =>
      let firstRow := clear_zone firstRow in
      let firstRow := set_row_field (select_first (row_field firstRow)) firstRow in
      let firstRow := set_row_logic (select_first (row_logic firstRow)) firstRow in
      act (on_page (set_rows [firstRow]));;
      act (UIManager.showSuccess (js "已清除所有搜索條件"))
  end.

Definition allTerms (group : KeywordGroup) : list jsstr :=
  (if nonempty (keyword group) then [keyword group] else []) ++ synonyms group.

(** The body of the loop of [autoGenerateConditions] once the row is at
    hand. *)
Definition fill (terms : list jsstr) (groupIndex len : nat) (conditionRow : Row)
    : option Row :=
  conditionRow ← foldl (fun zone term => zone ≫= addKeywordToDropZone term)
                   (Some conditionRow) terms;
  let conditionRow := set_row_field (select_set_value (js "AB") (row_field conditionRow))
                        conditionRow in
  Some (if (groupIndex <? len - 1)%nat
        then set_row_logic (select_set_value (js "AND") (row_logic conditionRow))
               conditionRow
        else conditionRow).

(** One iteration: group 0 goes to the first row, which
    [clearAllConditions] has left in place; every other group gets a new
    row at the end. *)
Definition generate_group (len : nat) (rs : list Row) (groupIndex : nat)
    (group : KeywordGroup) : option (list Row) :=
  let terms := allTerms group in
  match terms with
  | [] => Some rs
  | _ =>
      match groupIndex, rs with
      | O, firstRow :: rest =>
          conditionRow ← fill terms groupIndex len firstRow;
          Some (conditionRow :: rest)
      | O, [] => Some rs
      | _, _ =>
          conditionRow ← fill terms groupIndex len (createConditionRow groupIndex);
          Some (rs ++ [conditionRow])
      end
  end.

Fixpoint generate_groups (len groupIndex : nat) (groups : list KeywordGroup)
    (rs : list Row) : option (list Row) :=
  match groups with
  | [] => Some rs
  | group :: more =>
      rs ← generate_group len rs groupIndex group;
      generate_groups len (S groupIndex) more rs
  end.

(** [autoGenerateConditions] returns nothing; here it returns [Some tt],
    or [None] where it has written a keyword with markup into the page
    (see [addKeywordToDropZone]) and the model does not follow it
    further. *)
Definition autoGenerateConditions : Task (option unit) :=
  clearAllConditions;;
  generatedKeywords ← gets (fun w => sm_generatedKeywords (search w));
  match generatedKeywords with
  | [] => act (UIManager.showError (js "沒有可用的關鍵字組合"));; ret (Some tt)
  | _ =>
      let len := length generatedKeywords in
      generated ← gets (fun w => generate_groups len O generatedKeywords (rows (page w)));
      match generated with
      | None => ret None
      | Some rs =>
          act (on_page (set_rows rs));;
          act (UIManager.showSuccess
                 (js "已自動生成 " ++ decimal (N.of_nat len) ++ js " 個搜索條件組"));;
          ret (Some tt)
      end
  end.

Definition collect_row (index : nat) (row : Row) : list SearchCondition :=
  match row_dropped row with
  | [] => []
  | droppedKeywords =>
      let kws := filter (fun kw => nonempty kw) (map keyword_text droppedKeywords) in
      match kws with
      | [] => []
      | _ => [ {| keywords := kws;
                  field := select_value (row_field row);
                  logic := select_value (row_logic row);
                  condition_index := index |} ]
      end
  end.

Definition collectSearchConditions (w : World) : list SearchCondition :=
  concat (imap collect_row (rows (page w))).

Definition extractGeneratedKeywords (w : World) : list jsstr :=
  filter (fun kw => nonempty kw) (map keyword (sm_generatedKeywords (search w))).

(** [finalLogic], the string [displaySearchLogic] builds for the page. *)
Definition searchLogic (searchConditions : list SearchCondition) : jsstr :=
  let logicParts :=
    omap (fun condition =>
            let field := if nonempty (field condition) then field condition
                         else js "AB" in
            match keywords condition with
            | [] => None
            | keyword :: more =>
                let keywordPart :=
                  match more with
                  | [] => keyword
                  | _ => js "(" ++ join (js " OR ") (keywords condition) ++ js ")"
                  end in
                let fieldName := if str_eqb field (js "TI") then js "專利名稱"
                                 else if str_eqb field (js "AB") then js "摘要"
                                 else js "專利範圍" in
                Some (fieldName ++ js ": " ++ keywordPart)
            end)
      searchConditions in
  join (js " AND ") logicParts.

(** [requestData] of [manualSearch]. *)
Definition manualSearch_request (description gpssApiKey : jsstr)
    (uniqueKeywords : list jsstr) (w : World) : SearchData :=
  {| sd_session_id := sm_currentSessionId (search w);
     sd_description := description;
     sd_generated_keywords := extractGeneratedKeywords w;
     sd_selected_keywords := uniqueKeywords;
     sd_custom_keywords := [];
     sd_user_code := gpssApiKey;
     sd_max_results := 1000;
     sd_use_and_or_logic := false |}.

(** The [try] statement of [manualSearch]. On success it also writes
    [searchLogic] into the page ([displaySearchLogic]); that text is not
    kept. *)
Definition manualSearch_try (requestData : SearchData) : Task Body :=
  try_catch
    (response ← APIService.confirmKeywordsAndSearch requestData;
     if success response then
       act (on_search (set_sm_tech
              (Some (default (default [] (results response))
                       (search_results response)))));;
       ret response
     else
       throw (new_Error (js_or (detail response)
                           (js_or (message response) (VStr (js "檢索失敗"))))))
    (fun error => throw error).

Definition manualSearch (description gpssApiKey : jsstr) : Task Body :=
  searchConditions ← gets collectSearchConditions;
  if bool_decide (searchConditions = []) then
    throw (Error (js "請先拖拉關鍵字到搜索條件中"))
  else
    let emptyConditions :=
      filter (fun c => bool_decide (keywords c = [])) searchConditions in
    if negb (bool_decide (emptyConditions = [])) then
      throw (Error (js "請確保每個搜索條件都包含關鍵字"))
    else
      let allKeywords := concat (map keywords searchConditions) in
      let uniqueKeywords :=
        filter (fun kw => nonempty kw && nonempty (trim kw)) (set_of [] allKeywords) in
      if bool_decide (uniqueKeywords = []) then
        throw (Error (js "沒有有效的關鍵字可用於搜索"))
      else
        requestData ← gets (manualSearch_request description gpssApiKey uniqueKeywords);
        manualSearch_try requestData.

Definition hasValidConditions (params : SearchParams) : bool :=
  existsb (fun '(_, value) => nonempty value) (sp_criteria params).

Definition conditionSearch (searchParams : SearchParams) : Task ConditionResult :=
  if negb (hasValidConditions searchParams) then
    throw (Error (js "請至少輸入一個搜索條件"))
  else
    act ensureSessionId;;
    sessionId ← gets (fun w => sm_currentSessionId (search w));
    let searchParams :=
      {| sp_user_code := sp_user_code searchParams;
         sp_max_results := sp_max_results searchParams;
         sp_session_id := sessionId;
         sp_criteria := sp_criteria searchParams |} in
    try_catch
      (response ← APIService.conditionSearch searchParams;
       if success response then
         act (on_search (set_sm_condition (Some (default [] (results response)))));;
         ret {| patents := default [] (results response);
                total := total_found response;
                note := js_or (message response) (VStr (js "條件搜索完成")) |}
       else
         throw (new_Error (js_or (detail response)
                             (js_or (message response) (VStr (js "條件搜索失敗"))))))
      (fun error => throw error).

(** [buildConditionSearchParams(formData)], with [formData] read off the
    form by the caller. *)
Definition buildConditionSearchParams (gpssApiKey : jsstr)
    (formData : list (string * jsstr)) (w : World) : SearchParams :=
  {| sp_user_code := gpssApiKey;
     sp_max_results := 1000;
     sp_session_id := sm_currentSessionId (search w);
     sp_criteria := formData |}.

(** [this.searchResults[type]]: the manager only has the first two. *)
Definition searchResults (type : Mode) (w : World) : option (list patent) :=
  match type with
  | Tech => sm_tech (search w)
  | Condition => sm_condition (search w)
  | Excel => None
  end.

Definition exportToExcel (type : Mode) : Task unit :=
  res ← gets (searchResults type);
  match res with
  | None | Some [] => throw (Error (js "沒有可匯出的資料"))
  | Some ps =>
      act (on_page (fun p => set_downloads (downloads p ++ [(type, ps)]) p))
  end.

Definition getSearchResults (type : Mode) (w : World) : list patent :=
  default [] (searchResults type w).

Definition hasSearchResults (w : World) : bool :=
  match sm_tech (search w), sm_condition (search w) with
  | None, None => false
  | _, _ => true
  end.



End SearchManager.

(** ** chat.js *)
Module ChatManager.

Definition setSessionId (sessionId : option jsstr) : World -> World :=
  on_chat (set_chat_currentSessionId sessionId).

Definition isEnabled (w : World) : bool := chat_chatEnabled (chat w).

(** Appends the message to the panel and to [chatHistory]; without the
    panel it does nothing. *)
Definition addChatMessage (type : Role) (text : jsstr) (memoryMode : bool)
    (w : World) : World :=
  if negb (UIManager.has "chatMessages" w) then w
  else
    let w := on_page (fun p => set_chatMessages (chatMessages p ++ [(type, text)]) p) w in
    on_chat (fun c => set_chat_chatHistory
               (chat_chatHistory c ++
                  [ {| turn_type := type; turn_content := text;
                       turn_memoryMode := memoryMode |} ]) c) w.

Definition updateMemoryStatus : Task unit :=
  sessionId ← gets (fun w => chat_currentSessionId (chat w));
  match sessionId with
  | Some id =>
      if nonempty id then
        try_catch
          (response ← APIService.getMemoryStatus id;
           if success response
           then act (on_chat (set_chat_memoryStatus (memory_status response)))
           else ret tt)
          (fun _ => ret tt)
      else ret tt
  | None => ret tt
  end.

(** [enableChat] calls [updateMemoryStatus] without awaiting it: the
    request leaves at once and its answer is handled later, outside this
    call. *)
Definition enableChat : Task unit :=
  act (on_chat (set_chat_chatEnabled true));;
  sessionId ← gets (fun w => chat_currentSessionId (chat w));
  match sessionId with
  | Some id =>
      if nonempty id then
        url ← gets (fun w => baseUrl w ++ js "/api/v1/patents/qa/memory-status/" ++ id);
        await (Detach {| url := url; method := APIService.GET; payload := NoPayload |})
      else ret tt
  | None => ret tt
  end.

Definition showConfirmDialog (msg : jsstr) : Task bool := await (Confirm msg).

Definition clearChatMemory : Task unit :=
  sessionId ← gets (fun w => chat_currentSessionId (chat w));
  if negb (is_set sessionId) then
    act (UIManager.showError (js "沒有當前會話ID"))
  else
    confirmed ← showConfirmDialog
      (js "確定要清除對話記憶嗎？這將清除AI對之前對話的記憶，但不會刪除歷史記錄。");
    if negb confirmed then ret tt
    else
      try_catch
        (sessionId ← gets (fun w => default [] (chat_currentSessionId (chat w)));
         response ← APIService.clearChatMemory sessionId;
         if success response then
           act (addChatMessage system
                  (js "對話記憶已清除。AI將不再記住之前的對話內容。") false);;
           updateMemoryStatus;;
           act (UIManager.showSuccess (js "對話記憶已清除"))
         else
           act (UIManager.showError (js "清除記憶失敗")))
        (fun _ => act (UIManager.showError (js "清除記憶失敗"))).

Definition getChatHistory (w : World) : list ChatTurn := chat_chatHistory (chat w).

Definition showTyping : World -> World := UIManager.showLoading "chatTyping".
Definition hideTyping : World -> World := UIManager.hideLoading "chatTyping".

Definition callQwenAPI (userMessage : jsstr) (useMemory : bool) : Task Body :=
  sessionId ← gets (fun w => chat_currentSessionId (chat w));
  if negb (is_set sessionId) then throw (Error (js "會話ID未設置"))
  else
    try_catch
      (response ← (if useMemory then APIService.askWithMemory sessionId userMessage
                   else APIService.askSimpleQuestion sessionId userMessage);
       if success response then ret response
       else throw (new_Error (js_or (error response) (VStr (js "API回應錯誤")))))
      (fun error => throw error).

Definition sendChatMessage : Task unit :=
  message ← gets (UIManager.getInputValue "chatInput");
  chatEnabled ← gets (fun w => chat_chatEnabled (chat w));
  if negb (nonempty message) || negb chatEnabled then ret tt
  else
    memoryEnabled ← gets (fun w => chat_memoryEnabled (chat w));
    act (addChatMessage user message memoryEnabled);;
    act (UIManager.setInputValue "chatInput" []);;
    act showTyping;;
    try_catch
      (memoryEnabled ← gets (fun w => chat_memoryEnabled (chat w));
       response ← callQwenAPI message memoryEnabled;
       act hideTyping;;
       memoryEnabled ← gets (fun w => chat_memoryEnabled (chat w));
       act (addChatMessage assistant (answer response) memoryEnabled);;
       updateMemoryStatus)
      (fun error =>
         act hideTyping;;
         act (addChatMessage assistant
                (js "抱歉，回答時發生錯誤：" ++ error_message error) false)).

End ChatManager.

(** ** excel.js *)
Module ExcelManager.

Definition setControls (off : bool) (w : World) : World :=
  UIManager.toggleButton "selectFileBtn" (negb off)
    (UIManager.toggleButton "clearFileBtn" (negb off)
       (UIManager.toggleButton "analyzeExcelBtn" (negb off) w)).

Definition disableAnalysisControls : World -> World := setControls true.
Definition enableAnalysisControls : World -> World := setControls false.
Definition showAnalysisLoading : World -> World := UIManager.showLoading "loading-excel".
Definition hideAnalysisLoading : World -> World := UIManager.hideLoading "loading-excel".

(** Sets the width of the bar; the loading text is not kept. *)
Definition updateExcelProgress (pct : N) (w : World) : World :=
  if UIManager.has "progress-fill-excel" w
  then on_page (fun p => set_percent (<["progress-fill-excel" := pct]> (percent p)) p) w
  else w.

Definition displayExcelAnalysisResults (data : Body) (w : World) : World :=
  let w :=
    match results data with
    | None | Some [] =>
        UIManager.toggleElement "exportAnalysisBtn" false
          (UIManager.setContainerContent "excel-patent-list" NoResults w)
    | Some rs =>
        UIManager.toggleElement "exportAnalysisBtn" true
          (UIManager.setContainerContent "excel-patent-list" (PatentList rs) w)
    end in
  UIManager.toggleElement "excel-analysis-results" true w.

(** The summary counters are text only and are not kept. *)
Definition completeExcelAnalysis (data : Body) : Task unit :=
  act (on_excel (set_xl_currentAnalysisResults (Some data)));;
  act (UIManager.toggleElement "analysis-summary" true);;
  act (displayExcelAnalysisResults data);;
  act (on_app (set_app_excel (results data)));;
  enabled ← gets ChatManager.isEnabled;
  if negb enabled then ChatManager.enableChat else ret tt.

Definition analyzeExcel : Task unit :=
  selectedFile ← gets (fun w => xl_selectedFile (excel w));
  match selectedFile with
  | None => act (UIManager.showError (js "請先選擇Excel檔案"))
  | Some file =>
      isProcessing ← gets (fun w => xl_isProcessing (excel w));
      if (isProcessing : bool) then
        act (UIManager.showError (js "系統正在處理其他請求，請稍候..."))
      else
        try_catch_finally
          (act (on_excel (set_xl_isProcessing true));;
           act disableAnalysisControls;;
           act showAnalysisLoading;;
           act (updateExcelProgress 10);;
           act (UIManager.startProgressAnimation "progress-fill-excel" "progress-text-excel");;
           response ← APIService.uploadAndAnalyzeExcel file;
           if success response then
             act (UIManager.completeProgress "progress-fill-excel" "progress-text-excel");;
             completeExcelAnalysis response;;
             act (UIManager.showSuccess
                    (js "Excel分析完成！成功處理 " ++ decimal (processed_count response)
                     ++ js " 筆專利，失敗 "
                     ++ decimal (N.of_nat (length (errors response))) ++ js " 筆"))
           else
             throw (new_Error (js_or (message response) (VStr (js "分析失敗")))))
          (fun error =>
             act (UIManager.showError
                    (js "Excel分析失敗: " ++ Utils.extractErrorMessage error)))
          (fun w =>
             UIManager.resetProgress "progress-fill-excel" "progress-text-excel"
               (hideAnalysisLoading
                  (enableAnalysisControls
                     (on_excel (set_xl_isProcessing false) w))))
  end.

End ExcelManager.

(** ** app.js *)
Module PatentSearchApp.

Definition validateApiKey : Task bool :=
  apiKey ← gets (UIManager.getInputValue "gpssApiKey");
  if negb (nonempty apiKey) then
    act (UIManager.showError (js "請先輸入GPSS API驗證碼並完成驗證"));; ret false
  else
    verified ← gets (fun w => app_apiKeyVerified (app w));
    if negb verified then
      act (UIManager.showError (js "請先完成GPSS API驗證"));; ret false
    else ret true.

(** [setSessionId] on both managers after the app took a new id. *)
Definition shareSessionId (id : option jsstr) (w : World) : World :=
  ChatManager.setSessionId id
    (SearchManager.setSessionId id (on_app (set_app_currentSessionId id) w)).

(** On success [showKeywordSelection] also fills the palette of draggable
    keywords and binds the drag listeners ([initializeDragAndDrop]); the
    palette is not part of the page kept here. *)
Definition generateKeywords : Task unit :=
  valid ← validateApiKey;
  if negb valid then ret tt
  else
    isSearching ← gets (fun w => app_isSearching (app w));
    if (isSearching : bool) then
      act (UIManager.showError (js "正在進行處理，請稍候..."))
    else
      try_catch_finally
        (description ← gets (UIManager.getInputValue "techDescription");
         if negb (nonempty description) then
           act (UIManager.showError (js "請先輸入技術描述"))
         else if (length description <? 50)%nat then
           act (UIManager.showError
                  (js "技術描述太短，請提供更詳細的描述（至少50個字）"))
         else
           act (on_app (set_app_isSearching true));;
           act (UIManager.toggleButton "generateKeywordsBtn" false);;
           act (UIManager.toggleElement "keyword-selection" false);;
           act (UIManager.updateProgress "progress-fill" "progress-text" 10);;
           act (UIManager.showLoading "loading-tech");;
           act (UIManager.startProgressAnimation "progress-fill" "progress-text");;
           response ← SearchManager.generateKeywords description;
           if success response then
             act (shareSessionId (session_id response));;
             act (UIManager.completeProgress "progress-fill" "progress-text");;
             act (UIManager.toggleElement "keyword-selection" true);;
             act (UIManager.showSuccess
                    (js "成功生成 "
                     ++ decimal (N.of_nat (length
                          (default [] (keywords_with_synonyms response))))
                     ++ js " 個關鍵字組及其同義詞，請拖拉到搜索條件中"))
           else
             throw (new_Error (js_or (detail response)
                                 (js_or (message response)
                                    (VStr (js "關鍵字生成失敗"))))))
        (fun error =>
           act (UIManager.showError
                  (js "關鍵字生成失敗: " ++ Utils.extractErrorMessage error)))
        (fun w =>
           UIManager.resetProgress "progress-fill" "progress-text"
             (UIManager.hideLoading "loading-tech"
                (UIManager.toggleButton "generateKeywordsBtn" true
                   (on_app (set_app_isSearching false) w)))).

Definition displayTechSearchResults (w : World) : World :=
  let w :=
    match app_tech (app w) with
    | None | Some [] =>
        UIManager.toggleElement "exportExcelBtn" false
          (UIManager.setContainerContent "tech-patent-list" NoResults w)
    | Some rs =>
        UIManager.toggleElement "exportExcelBtn" true
          (UIManager.setContainerContent "tech-patent-list" (PatentList rs) w)
    end in
  UIManager.toggleElement "tech-search-results" true w.

Definition completeTechSearch (searchResults : Body) (w : World) : World :=
  displayTechSearchResults
    (on_app (set_app_tech
               (Some (default (default [] (results searchResults))
                        (search_results searchResults)))) w).

Definition executeSearch : Task unit :=
  isSearching ← gets (fun w => app_isSearching (app w));
  if (isSearching : bool) then
    act (UIManager.showError (js "正在進行搜尋，請稍候..."))
  else
    try_catch_finally
      (description ← gets (UIManager.getInputValue "techDescription");
       gpssApiKey ← gets (UIManager.getInputValue "gpssApiKey");
       act (on_app (set_app_isSearching true));;
       act (UIManager.toggleElement "keyword-selection" false);;
       act (UIManager.hideLoading "loading-tech");;
       act (UIManager.toggleElement "tech-search-results" false);;
       act (UIManager.updateProgress "progress-fill" "progress-text" 30);;
       act (UIManager.showLoading "loading-tech");;
       act (UIManager.startProgressAnimation "progress-fill" "progress-text");;
       response ← SearchManager.manualSearch description gpssApiKey;
       if success response then
         act (UIManager.completeProgress "progress-fill" "progress-text");;
         act (completeTechSearch response);;
         enabled ← gets ChatManager.isEnabled;
         (if negb enabled then ChatManager.enableChat else ret tt);;
         act (UIManager.showSuccess
                (js "搜索完成！找到 " ++ decimal (total_found response) ++ js " 筆專利"))
       else
         throw (new_Error (js_or (detail response)
                             (js_or (message response) (VStr (js "檢索失敗"))))))
      (fun error =>
         act (UIManager.showError (js "搜索失敗: " ++ Utils.extractErrorMessage error)))
      (fun w =>
         UIManager.resetProgress "progress-fill" "progress-text"
           (UIManager.hideLoading "loading-tech"
              (on_app (set_app_isSearching false) w))).

Definition manualSearch : Task unit :=
  valid ← validateApiKey;
  if negb valid then ret tt else executeSearch.

(** As for [SearchManager.autoGenerateConditions], [None] is returned
    where that call has left the model. *)
Definition autoGenerateAndSearch : Task (option unit) :=
  valid ← validateApiKey;
  if negb valid then ret (Some tt)
  else
    try_catch
      (generated ← SearchManager.autoGenerateConditions;
       match generated with
       | None => ret None
       | Some _ =>
           Utils.delay 500;;
           executeSearch;;
           ret (Some tt)
       end)
      (fun error =>
         act (UIManager.showError
                (js "自動搜索失敗: " ++ Utils.extractErrorMessage error));;
         ret (Some tt)).

(** The twelve inputs of the condition form, in the order of the
    object literal. *)
Definition conditionInputs : list (string * string) :=
  [ ("applicant", "applicant"); ("inventor", "inventor");
    ("patent_number", "patentNumber"); ("application_number", "applicationNumber");
    ("ipc_class", "ipcClass"); ("title_keyword", "titleKeyword");
    ("abstract_keyword", "abstractKeyword"); ("claims_keyword", "claimsKeyword");
    ("application_date_from", "applicationDateFrom");
    ("application_date_to", "applicationDateTo");
    ("publication_date_from", "publicationDateFrom");
    ("publication_date_to", "publicationDateTo") ]%string.

Definition buildConditionSearchParams (w : World) : SearchParams :=
  SearchManager.buildConditionSearchParams
    (UIManager.getInputValue "gpssApiKey" w)
    (map (fun '(key, id) => (key, UIManager.getInputValue id w)) conditionInputs)
    w.

Definition displayConditionSearchResults (w : World) : World :=
  let w :=
    match app_condition (app w) with
    | None | Some [] =>
        UIManager.toggleElement "exportConditionExcelBtn" false
          (UIManager.setContainerContent "condition-patent-list" NoResults w)
    | Some rs =>
        UIManager.toggleElement "exportConditionExcelBtn" true
          (UIManager.setContainerContent "condition-patent-list" (PatentList rs) w)
    end in
  UIManager.toggleElement "condition-search-results" true w.

Definition completeConditionSearch (searchResults : ConditionResult) (w : World) : World :=
  displayConditionSearchResults
    (on_app (set_app_condition (Some (patents searchResults))) w).

Definition ensureSessionId (w : World) : World :=
  if is_set (app_currentSessionId (app w)) then w
  else let '(id, w') := Utils.generateSessionId w in shareSessionId (Some id) w'.

Definition startConditionSearch : Task unit :=
  valid ← validateApiKey;
  if negb valid then ret tt
  else
    isSearching ← gets (fun w => app_isSearching (app w));
    if (isSearching : bool) then
      act (UIManager.showError (js "正在進行搜尋，請稍候..."))
    else
      try_catch_finally
        (act ensureSessionId;;
         searchParams ← gets buildConditionSearchParams;
         act (on_app (set_app_isSearching true));;
         act (UIManager.toggleButton "startConditionSearchBtn" false);;
         act (UIManager.showLoading "loading-condition");;
         act (UIManager.toggleElement "condition-search-results" false);;
         act (UIManager.updateProgress "progress-fill-condition"
                "progress-text-condition" 30);;
         act (UIManager.startProgressAnimation "progress-fill-condition"
                "progress-text-condition");;
         searchResults ← SearchManager.conditionSearch searchParams;
         act (UIManager.completeProgress "progress-fill-condition"
                "progress-text-condition");;
         act (completeConditionSearch searchResults);;
         act (UIManager.showSuccess
                (js "條件搜尋完成！找到 " ++ decimal (total searchResults)
                 ++ js " 筆專利"));;
         enabled ← gets ChatManager.isEnabled;
         if negb enabled then ChatManager.enableChat else ret tt)
        (fun error =>
           act (UIManager.showError
                  (js "條件查詢失敗: " ++ Utils.extractErrorMessage error)))
        (fun w =>
           UIManager.resetProgress "progress-fill-condition" "progress-text-condition"
             (UIManager.hideLoading "loading-condition"
                (UIManager.toggleButton "startConditionSearchBtn" true
                   (on_app (set_app_isSearching false) w)))).

Definition exportToExcel (type : Mode) : Task unit :=
  try_catch
    (SearchManager.exportToExcel type;;
     act (UIManager.showSuccess (js "Excel文件已下載！")))
    (fun error =>
       act (UIManager.showError
              (js "Excel匯出失敗: " ++ Utils.extractErrorMessage error))).

End PatentSearchApp.

(** ** Notions used in the statements *)

(** The message [request] fails with when the response is not [ok]. *)
Definition failure_message (response : HttpResponse) : jsstr :=
  match json response with
  | Some errorData =>
      if truthy (detail errorData) then to_message (detail errorData)
      else if truthy (message errorData) then to_message (message errorData)
      else js "HTTP " ++ decimal (status response)
  | None => js "HTTP " ++ decimal (status response) ++ js ": " ++ statusText response
  end.

(** How [request] settles, given what [fetch] came back with. *)
Definition settle (o : FetchOutcome) : Outcome Body :=
  match o with
  | Rejected e => Throw e
  | Responded response =>
      if ok response then
        match json response with
        | Some data => Return data
        | None => Throw (SyntaxError (js "Unexpected token"))
        end
      else Throw (Error (failure_message response))
  end.

(** The precedence in the words of the specification: the [detail] field
    if present, else the [message] field, else the HTTP status text, else a
    generic fallback. *)
Definition spec_failure_message (response : HttpResponse) : jsstr :=
  let d := from_option detail VUndefined (json response) in
  let m := from_option message VUndefined (json response) in
  if truthy d then to_message d
  else if truthy m then to_message m
  else if nonempty (statusText response) then statusText response
  else js "未知錯誤".

(** The waits of exponential backoff: [base], [2 base], [4 base], ... *)
Fixpoint backoff (n : nat) (base : Z) : list Z :=
  match n with
  | O => []
  | S n' => base :: backoff n' (base * 2)
  end.

(** No other handler touches the state while a call is suspended. *)
Definition undisturbed (env : Env) : Prop := ∀ n v, meanwhile env n v = v.

(** What [request] adds to the trace: the [fetch] and, when a response
    arrived, the reading of its body. *)
Definition exchange (req : Request) (o : FetchOutcome) : list Event :=
  EFetch req :: match o with Rejected _ => [] | Responded _ => [EReadJson] end.

(** The request [request] sends to [endpoint] when the base URL is [base]. *)
Definition request_to (endpoint : jsstr) (method : string) (payload : Payload)
    (base : jsstr) : Request :=
  {| url := base ++ endpoint; method := method; payload := payload |}.

(** The events of the attempts [c], [c + 1], ... of a call, one per
    request. *)
Definition attempts (env : Env) (c : nat) (reqs : list Request) : list (list Event) :=
  imap (fun j req => exchange req (net env (c + j) req)) reqs.

(** Attempts with a wait between each two, the first wait being [delay]
    and each further one twice the one before. *)
Fixpoint backoff_schedule (attempts : list (list Event)) (delay : Z) : list Event :=
  match attempts with
  | [] => []
  | attempt :: rest =>
      match rest with
      | [] => attempt
      | _ => attempt ++ EDelay delay :: backoff_schedule rest (delay * 2)
      end
  end.

(** Every attempt numbered below [n] fails, at whatever base URL it is
    made. *)
Definition attempts_fail (env : Env) (endpoint : jsstr) (method : string)
    (payload : Payload) (n : nat) : Prop :=
  ∀ i base, (i < n)%nat →
    ∃ e, settle (net env i (request_to endpoint method payload base)) = Throw e.

(** An endpoint that answers its n-th call with [outcomes n], whatever else
    goes on in the page. *)
Definition endpoint_env (outcomes : nat -> FetchOutcome) (d : jsstr -> bool)
    (mw : nat -> World -> World) : Env :=
  {| net := fun n _ => outcomes n; dialog := d; meanwhile := mw |}.

(** A progress indicator at rest: no interval drives it and, where the
    page has the bar and its text, both read 0%. *)
Definition at_rest (progressId textId : string) (w : World) : Prop :=
  (progressId ∉ progressIntervals (page w)) ∧
  (progressId ∈ elems (page w) → textId ∈ elems (page w) →
   percent (page w) !! progressId = Some 0%N ∧ percent (page w) !! textId = Some 0%N).

(** A keyword that is written into its entry as it is and reads back from
    the entry as it was written: this is the case of every keyword free of
    markup, without surrounding white space and without a multiplication
    sign. *)
Definition plain (k : jsstr) : Prop := keyword_text <$> label k = Some k.

(** The keywords a row shows, as [collectSearchConditions] reads them. *)
Definition row_keywords (r : Row) : list jsstr := map keyword_text (row_dropped r).

(** The last message on the page. *)
Definition last_message (w : World) : option (MsgKind * jsstr) := last (messages (page w)).

(** The state a suspended call left behind, and what it waits for. *)
Definition suspended_on_fetch {A} (s : Step A) : option World :=
  match s with
  | Await (Fetch _) w _ => Some w
  | _ => None
  end.

(** A call respects a relation [R] on states and a property [P] of events
    from [w0] on: each state it leaves behind is [R]-related to [w0], as
    long as the states it is resumed in are [R]-related to the ones it
    left, and it only causes events with [P]. *)
Inductive respects (R : World → World → Prop) (P : Event → Prop) {A : Type}
    (w0 : World) : Step A → Prop :=
| respects_done o w : R w0 w → respects R P w0 (Done o w)
| respects_await X (e : Eff X) w k :
    R w0 w → P (event_of e) →
    (∀ x w', R w w' → respects R P w0 (k x w')) →
    respects R P w0 (Await e w k).

Definition keeps (R : World → World → Prop) (P : Event → Prop) {A : Type}
    (t : Task A) : Prop :=
  ∀ w, respects R P w (t w).

(** The transcript of [w'] extends the transcript of [w]. *)
Definition transcript_extends (w w' : World) : Prop :=
  chat_chatHistory (chat w) `prefix_of` chat_chatHistory (chat w').

(** The two requests of the memory reset: the clearing of the backend
    cache and the reading of its status. *)
Definition memory_request (ev : Event) : Prop :=
  match ev with
  | EFetch r =>
      (∃ base sid, url r = base ++ js "/api/v1/patents/qa/clear-memory"
                   ∧ method r = APIService.POST
                   ∧ payload r = SessionPayload (Some sid))
      ∨ (∃ base sid, url r = base ++ js "/api/v1/patents/qa/memory-status/" ++ sid
                     ∧ method r = APIService.GET
                     ∧ payload r = NoPayload)
  | EDelay _ => False
  | _ => True
  end.

(** *** Sample data for the worked examples *)

Definition no_body : Body :=
  {| success := false; detail := VUndefined; message := VUndefined; error := VUndefined;
     session_id := None; keywords_with_synonyms := None; search_results := None;
     results := None; total_found := 0; answer := []; memory_status := None;
     processed_count := 0; errors := [] |}.

(** A page with the elements the scripts look up, one empty condition row
    built like the rows the program adds, a credential and a description
    typed in. *)
Definition sample_page : Page :=
  {| elems := list_to_set
       [ "gpssApiKey"; "techDescription"; "progress-fill"; "progress-text";
         "progress-fill-condition"; "progress-text-condition";
         "progress-fill-excel"; "progress-text-excel"; "loading-tech";
         "loading-condition"; "loading-excel"; "chatMessages";
         "tech-patent-list"; "tech-search-results"; "exportExcelBtn";
         "applicant" ]%string;
     values := {[ "gpssApiKey"%string := js "0123456789ABCDEF";
                  "techDescription"%string := js "wafer probe station" ]};
     messages := [];
     percent := list_to_map
       [ ("progress-fill", 0%N); ("progress-text", 0%N);
         ("progress-fill-condition", 0%N); ("progress-text-condition", 0%N);
         ("progress-fill-excel", 0%N); ("progress-text-excel", 0%N) ]%string;
     progressIntervals := ∅;
     shown := ∅;
     display := ∅;
     disabled := ∅;
     content := ∅;
     rows := [SearchManager.createConditionRow 0];
     chatMessages := [];
     downloads := [] |}.

(** The state after start-up on [p], with the credential verified. *)
Definition started (p : Page) : World :=
  {| baseUrl := js "http://localhost:8005";
     app := {| app_isSearching := false; app_apiKeyVerified := true;
               app_currentSessionId := Some (js "session_0");
               app_tech := None; app_condition := None; app_excel := None |};
     search := {| sm_generatedKeywords := [];
                  sm_currentSessionId := Some (js "session_0");
                  sm_tech := None; sm_condition := None |};
     chat := {| chat_chatEnabled := false; chat_memoryEnabled := true;
                chat_chatHistory := [];
                chat_currentSessionId := Some (js "session_0");
                chat_memoryStatus := None |};
     excel := {| xl_selectedFile := None; xl_currentAnalysisResults := None;
                 xl_isProcessing := false |};
     page := p;
     clock := 1 |}.

Definition sample_world : World := started sample_page.

(** A 404 whose body is the empty object. *)
Definition not_found : HttpResponse :=
  {| ok := false; status := 404; statusText := js "Not Found"; json := Some no_body |}.

(** A successful search that found nothing. *)
Definition found_nothing : Body :=
  {| success := true; detail := VUndefined; message := VUndefined; error := VUndefined;
     session_id := Some (js "session_0"); keywords_with_synonyms := None;
     search_results := None; results := Some []; total_found := 0; answer := [];
     memory_status := None; processed_count := 0; errors := [] |}.

Definition ok_response (b : Body) : HttpResponse :=
  {| ok := true; status := 200; statusText := js "OK"; json := Some b |}.

(** The first condition row of the page offers the field "AB" and the
    logic "AND", as the rows the program creates do. *)
Definition first_row_offers (w : World) : Prop :=
  ∃ r rest, rows (page w) = r :: rest
            ∧ js "AB" ∈ options (row_field r)
            ∧ js "AND" ∈ options (row_logic r).

(** The entries of a row were all written from plain keywords, each once. *)
Definition tidy (r : Row) : Prop :=
  ∃ ks, row_dropped r = map entry_text ks ∧ Forall plain ks ∧ NoDup ks.

(** The two keyword groups of the worked example, and a state holding them. *)
Definition two_groups : list KeywordGroup :=
  [ {| keyword := js "wafer"; synonyms := [js "wafer chip"] |};
    {| keyword := js "probe"; synonyms := [] |} ].

Definition with_groups (g : list KeywordGroup) (w : World) : World :=
  on_search (set_sm_generatedKeywords g) w.

(** A backend answer in which the second group has neither a keyword nor
    a synonym. *)
Definition groups_with_gap : list KeywordGroup :=
  [ {| keyword := js "wafer"; synonyms := [] |};
    {| keyword := []; synonyms := [] |} ].

(** An endpoint that is down: call [n] fails with the message [n]. *)
Definition always_down : nat -> FetchOutcome :=
  fun n => Rejected (TypeError (decimal (N.of_nat n))).

Definition quiet : nat -> World -> World := fun _ w => w.
Definition yes : jsstr -> bool := fun _ => true.

(** A page on which one keyword has been dropped into the first row, the
    state in which a search can start, and the state the page is in while
    that search waits for the backend. *)
Definition ready_page : Page :=
  set_rows (option_list (SearchManager.addKeywordToDropZone (js "wafer")
                           (SearchManager.createConditionRow 0))) sample_page.

Definition ready_world : World := started ready_page.

Definition running_world : World :=
  default ready_world (suspended_on_fetch (PatentSearchApp.executeSearch ready_world)).

(** A session in which a question has been asked and answered. *)
Definition asked : ChatTurn :=
  {| turn_type := user; turn_content := js "Which patent is the oldest?";
     turn_memoryMode := true |}.
Definition answered : ChatTurn :=
  {| turn_type := assistant; turn_content := js "The first one."; turn_memoryMode := true |}.

Definition chatting_world : World :=
  on_chat (fun c => set_chat_chatHistory [asked; answered] (set_chat_chatEnabled true c))
    ready_world.

(** The backend confirms whatever it is asked. *)
Definition agrees : nat → Request → FetchOutcome :=
  fun _ _ => Responded (ok_response found_nothing).

(** The running state with a spreadsheet selected for analysis. *)
Definition sample_file : File :=
  {| file_name := js "patents.xlsx"; file_size := 2048; file_type := [] |}.

Definition select_file (f : File) (w : World) : World :=
  on_excel (fun x => {| xl_selectedFile := Some f;
                        xl_currentAnalysisResults := xl_currentAnalysisResults x;
                        xl_isProcessing := xl_isProcessing x |}) w.

Definition running_with_file : World := select_file sample_file running_world.

(** A page on which an applicant has been typed into the condition form. *)
Definition condition_world : World :=
  on_page (fun p => set_values (<["applicant"%string := js "KYEC"]> (values p)) p) ready_world.

(** The three progress indicators as a search that was cut short would
    have left them: half way, with their intervals still registered. *)
Definition stale_progress (w : World) : World :=
  on_page (fun p =>
    set_progressIntervals
      (list_to_set ["progress-fill"; "progress-fill-condition"; "progress-fill-excel"]%string)
      (set_percent
         (list_to_map
            [ ("progress-fill", 50%N); ("progress-text", 50%N);
              ("progress-fill-condition", 50%N); ("progress-text-condition", 50%N);
              ("progress-fill-excel", 50%N); ("progress-text-excel", 50%N) ]%string) p)) w.

(** The keywords [manualSearch] would send. *)
Definition selected_keywords (w : World) : list jsstr :=
  filter (fun kw => nonempty kw && nonempty (trim kw))
    (set_of [] (concat (map keywords (SearchManager.collectSearchConditions w)))).

(** [w'] is [w] up to what the page displays: messages, bars, spinners,
    visibility, disabled buttons and result lists. *)
Definition display_only (w' w : World) : Prop :=
  baseUrl w' = baseUrl w ∧ app w' = app w ∧ search w' = search w
  ∧ chat w' = chat w ∧ excel w' = excel w ∧ clock w' = clock w
  ∧ elems (page w') = elems (page w) ∧ values (page w') = values (page w)
  ∧ rows (page w') = rows (page w) ∧ chatMessages (page w') = chatMessages (page w)
  ∧ downloads (page w') = downloads (page w).

(** *** Notions of the further properties *)


(** How a caller reads an answer: [success: false] becomes an error with
    the message of the answer, or [fallback]. *)
Definition checked (fallback : jsstr) (o : Outcome Body) : Outcome Body :=
  match o with
  | Return body =>
      if success body then Return body
      else Throw (new_Error (js_or (detail body) (js_or (message body) (VStr fallback))))
  | Throw e => Throw e
  end.

(** The patents [manualSearch] takes from an answer. *)
Definition tech_results (body : Body) : list patent :=
  default (default [] (results body)) (search_results body).

(** The request of [manualSearch] made in state [w]. *)
Definition confirm_request (description gpssApiKey : jsstr) (w : World) : Request :=
  {| url := baseUrl w ++ js "/api/v1/patents/search/tech-description-confirmed";
     method := APIService.POST;
     payload := ConfirmPayload
                  (SearchManager.manualSearch_request description gpssApiKey
                     (selected_keywords w) w) |}.

(** [w'] is [w] up to bars, spinners, visibility and disabled buttons. *)
Definition decoration_only (w' w : World) : Prop :=
  display_only w' w
  ∧ messages (page w') = messages (page w)
  ∧ content (page w') = content (page w).

(** The state in which [executeSearch] calls the search manager. *)
Definition tech_search_started (w : World) : World :=
  UIManager.startProgressAnimation "progress-fill" "progress-text"
    (UIManager.showLoading "loading-tech"
       (UIManager.updateProgress "progress-fill" "progress-text" 30
          (UIManager.toggleElement "tech-search-results" false
             (UIManager.hideLoading "loading-tech"
                (UIManager.toggleElement "keyword-selection" false
                   (on_app (set_app_isSearching true) w)))))).

(** The [finally] block of [executeSearch]. *)
Definition tech_search_finally (w : World) : World :=
  UIManager.resetProgress "progress-fill" "progress-text"
    (UIManager.hideLoading "loading-tech" (on_app (set_app_isSearching false) w)).




(** The state a failed tech search ends in. *)
Definition tech_search_failed (e : exn) (w : World) : World :=
  tech_search_finally
    (UIManager.showError (js "搜索失敗: " ++ Utils.extractErrorMessage e)
       (tech_search_started w)).


(** The request of a condition search made in state [w]: it carries the
    session of the search manager, taken on the spot if it has none. *)
Definition condition_request (params : SearchParams) (w : World) : Request :=
  {| url := baseUrl w ++ js "/api/v1/patents/condition/search";
     method := APIService.POST;
     payload := ConditionPayload
       {| sp_user_code := sp_user_code params;
          sp_max_results := sp_max_results params;
          sp_session_id := sm_currentSessionId (search (SearchManager.ensureSessionId w));
          sp_criteria := sp_criteria params |} |}.

(** What [conditionSearch] returns for an answer. *)
Definition condition_result (body : Body) : ConditionResult :=
  {| patents := default [] (results body);
     total := total_found body;
     note := js_or (message body) (VStr (js "條件搜索完成")) |}.

(** The state in which [startConditionSearch] calls the search manager. *)
Definition condition_search_started (w : World) : World :=
  UIManager.startProgressAnimation "progress-fill-condition" "progress-text-condition"
    (UIManager.updateProgress "progress-fill-condition" "progress-text-condition" 30
       (UIManager.toggleElement "condition-search-results" false
          (UIManager.showLoading "loading-condition"
             (UIManager.toggleButton "startConditionSearchBtn" false
                (on_app (set_app_isSearching true)
                   (PatentSearchApp.ensureSessionId w)))))).


(** The criteria read off the form. *)
Definition criteria (w : World) : list (string * jsstr) :=
  map (fun '(key, id) => (key, UIManager.getInputValue id w)) PatentSearchApp.conditionInputs.





(** How [callQwenAPI] reads an answer. *)
Definition ask_result (o : Outcome Body) : Outcome Body :=
  match o with
  | Return body =>
      if success body then Return body
      else Throw (new_Error (js_or (error body) (VStr (js "API回應錯誤"))))
  | Throw e => Throw e
  end.

(** The question as [callQwenAPI] sends it in the mode [useMemory]. *)
Definition ask_request (message : jsstr) (useMemory : bool) (w : World) : Request :=
  {| url := baseUrl w ++ (if useMemory then js "/api/v1/patents/qa/ask-with-memory"
                          else js "/api/v1/patents/qa/ask-simple");
     method := APIService.POST;
     payload := AskPayload (chat_currentSessionId (chat w)) message useMemory |}.

(** The chat once a question has been taken from the input box. *)
Definition chat_asked (message : jsstr) (w : World) : World :=
  ChatManager.showTyping
    (UIManager.setInputValue "chatInput" []
       (ChatManager.addChatMessage user message (chat_memoryEnabled (chat w)) w)).

(** The chat once the reply has been put on the panel. *)
Definition chat_answered (reply : jsstr) (memoryMode : bool) (w : World) : World :=
  ChatManager.addChatMessage assistant reply memoryMode (ChatManager.hideTyping w).

(** What [updateMemoryStatus] may change: the stored status and nothing else. *)
Definition status_updated (w' w : World) : Prop :=
  w' = w ∨ ∃ m, w' = on_chat (set_chat_memoryStatus m) w.

(** The reply [sendChatMessage] puts on the panel for an outcome of the
    call, and the mode it is recorded with. *)
Definition chat_reply (memoryEnabled : bool) (o : Outcome Body) : jsstr * bool :=
  match o with
  | Return body => (answer body, memoryEnabled)
  | Throw e => (js "抱歉，回答時發生錯誤：" ++ error_message e, false)
  end.

(** A page with the chat box, in which a question has been typed. *)
Definition with_chat_box (question : jsstr) (w : World) : World :=
  on_page (fun p =>
    {| elems := elems p ∪ list_to_set ["chatInput"; "chatTyping"; "chatSendBtn"]%string;
       values := <["chatInput"%string := question]> (values p);
       messages := messages p; percent := percent p;
       progressIntervals := progressIntervals p; shown := shown p;
       display := display p; disabled := disabled p; content := content p;
       rows := rows p; chatMessages := chatMessages p; downloads := downloads p |}) w.

(** The chat of the worked example with the box on the page and a question
    typed in. *)
Definition question_world : World :=
  with_chat_box (js " Which claims mention wafers? ") chatting_world.

(** An answer of the assistant. *)
Definition an_answer : Body :=
  {| success := true; detail := VUndefined; message := VUndefined; error := VUndefined;
     session_id := Some (js "session_0"); keywords_with_synonyms := None;
     search_results := None; results := None; total_found := 0;
     answer := js "Claims 1 and 4.";
     memory_status := None; processed_count := 0; errors := [] |}.

(** Literals and whole calls stay folded when statements are simplified. *)
Arguments js : simpl never.
Arguments decimal : simpl never.
Arguments trim : simpl never.
Arguments APIService.request : simpl never.
Arguments SearchManager.manualSearch : simpl never.
Arguments SearchManager.manualSearch_try : simpl never.
Arguments SearchManager.conditionSearch : simpl never.
Arguments SearchManager.generateKeywords : simpl never.
Arguments APIService.uploadAndAnalyzeExcel : simpl never.

(** ** The event loop: composition laws *)

Section RunLaws.
Context {A : Type} (env : Env).

Lemma run_from_bind {B} (s : Step A) (f : A -> Task B) tr :
  run_from env tr (bindS s f) =
    match outcome (run_from env tr s) with
    | Return a => run_from env (trace (run_from env tr s)) (f a (final (run_from env tr s)))
    | Throw e => {| outcome := Throw e; final := final (run_from env tr s);
                    trace := trace (run_from env tr s) |}
    end.
Proof.
  revert tr. induction s as [[a|e] w | X e w k IH]; intros tr; simpl; auto.
Qed.

Lemma run_from_catch (s : Step A) (h : exn -> Task A) tr :
  run_from env tr (catchS s h) =
    match outcome (run_from env tr s) with
    | Return a => run_from env tr s
    | Throw e => run_from env (trace (run_from env tr s)) (h e (final (run_from env tr s)))
    end.
Proof.
  revert tr. induction s as [[a|e] w | X e w k IH]; intros tr; simpl; auto.
Qed.

Lemma run_from_finally (s : Step A) (fin : World -> World) tr :
  run_from env tr (finallyS s fin) =
    {| outcome := outcome (run_from env tr s);
       final := fin (final (run_from env tr s));
       trace := trace (run_from env tr s) |}.
Proof.
  revert tr. induction s as [o w | X e w k IH]; intros tr; simpl; auto.
Qed.

Lemma outcome_finally (s : Step A) (fin : World -> World) tr :
  outcome (run_from env tr (finallyS s fin)) = outcome (run_from env tr s).
Proof. by rewrite run_from_finally. Qed.

Lemma final_finally (s : Step A) (fin : World -> World) tr :
  final (run_from env tr (finallyS s fin)) = fin (final (run_from env tr s)).
Proof. by rewrite run_from_finally. Qed.

Lemma trace_finally (s : Step A) (fin : World -> World) tr :
  trace (run_from env tr (finallyS s fin)) = trace (run_from env tr s).
Proof. by rewrite run_from_finally. Qed.

(** A handler that throws the error on is no handler. *)
Lemma run_from_rethrow (s : Step A) tr :
  run_from env tr (catchS s (fun error => throw error)) = run_from env tr s.
Proof.
  revert tr. induction s as [[a|e] w | X e w k IH]; intros tr; simpl; auto.
Qed.

Lemma run_from_bind_return {B} (s : Step A) (f : A -> Task B) tr a :
  outcome (run_from env tr s) = Return a →
  run_from env tr (bindS s f)
  = run_from env (trace (run_from env tr s)) (f a (final (run_from env tr s))).
Proof. intros H. by rewrite run_from_bind, H. Qed.

(** The trace only grows. *)
Lemma run_from_trace (s : Step A) tr :
  ∃ more, trace (run_from env tr s) = tr ++ more.
Proof.
  revert tr. induction s as [o w | X e w k IH]; intros tr; simpl.
  - exists []. by rewrite app_nil_r.
  - destruct (IH (reply env tr e) (meanwhile env (length tr) w) (tr ++ [event_of e]))
      as [more Hm].
    exists (event_of e :: more). rewrite Hm. by rewrite <- app_assoc.
Qed.

End RunLaws.

(** A handler that only reports turns every failure into a normal return. *)
Lemma catch_report_returns env (s : Step unit) (g : exn -> World -> World) tr :
  outcome (run_from env tr (catchS s (fun e => act (g e)))) = Return tt.
Proof.
  revert tr. induction s as [[[]|e] w | X e w k IH]; intros tr; simpl; auto.
Qed.

Lemma network_calls_app tr1 tr2 :
  network_calls (tr1 ++ tr2) = (network_calls tr1 + network_calls tr2)%nat.
Proof. unfold network_calls. by rewrite filter_app, length_app. Qed.

Lemma waits_app tr1 tr2 : waits (tr1 ++ tr2) = waits tr1 ++ waits tr2.
Proof. unfold waits. apply omap_app. Qed.

(** ** RequestClient *)

(** One call of [request] is one network call; it settles as [settle]
    says and waits for nothing but the network. *)
Lemma request_run env tr endpoint method payload w :
  let r := run_from env tr (APIService.request endpoint method payload w) in
  outcome r =
    settle (net env (network_calls tr)
              {| url := baseUrl w ++ endpoint; method := method; payload := payload |})
  ∧ network_calls (trace r) = S (network_calls tr)
  ∧ waits (trace r) = waits tr.
Proof.
  unfold APIService.request, try_catch, mbind, task_bind, bind, gets, await, settle,
    failure_message.
  simpl.
  destruct (net env (network_calls tr) _) as [e | response]; simpl.
  - rewrite network_calls_app, waits_app. simpl. rewrite app_nil_r.
    repeat split; auto. unfold network_calls at 2. simpl. lia.
  - destruct (ok response); simpl.
    + destruct (json response) as [data|]; simpl;
        rewrite !network_calls_app, !waits_app; simpl; rewrite !app_nil_r;
        repeat split; auto; unfold network_calls at 2 3; simpl; lia.
    + destruct (json response) as [errorData|]; simpl.
      * unfold js_or. destruct (truthy (detail errorData)); simpl;
          [| destruct (truthy (message errorData)); simpl];
          rewrite !network_calls_app, !waits_app; simpl; rewrite !app_nil_r;
          repeat split; auto; unfold network_calls at 2 3; simpl; lia.
      * rewrite !network_calls_app, !waits_app; simpl; rewrite !app_nil_r;
          repeat split; auto; unfold network_calls at 2 3; simpl; lia.
Qed.

(** C6 (as stated) does not hold: a 404 whose body is the empty object
    fails with the message "HTTP 404", built from the status code, whereas
    the stated precedence ends in the status text, "Not Found". *)
Lemma request_failure_not_status_text :
  ¬ (∀ env endpoint method payload w response,
       net env 0%nat {| url := baseUrl w ++ endpoint; method := method;
                        payload := payload |} = Responded response →
       ok response = false →
       outcome (run env (APIService.request endpoint method payload) w)
       = Throw (Error (spec_failure_message response))).
Proof.
  intros H.
  specialize (H (alone (fun _ _ => Responded not_found) yes) (js "/ping") APIService.GET
                NoPayload sample_world not_found eq_refl eq_refl).
  vm_compute in H. discriminate H.
Qed.

(** C6 (amended). A response that is not [ok] makes [request] fail, after
    exactly one network call, with one [Error] whose message is: the
    [detail] field of the body if it is truthy; else its [message] field
    if that is truthy; else the text "HTTP " followed by the status code;
    and, when the body does not decode, "HTTP ", the status code, ": " and
    the status text. The initial text of the generic fallback is always
    overwritten. *)
Theorem request_failure_message env endpoint method payload w response :
  net env 0%nat {| url := baseUrl w ++ endpoint; method := method; payload := payload |}
  = Responded response →
  ok response = false →
  let r := run env (APIService.request endpoint method payload) w in
  network_calls (trace r) = 1%nat
  ∧ (∀ errorData, json response = Some errorData →
       (truthy (detail errorData) = true →
        outcome r = Throw (Error (to_message (detail errorData))))
       ∧ (truthy (detail errorData) = false → truthy (message errorData) = true →
          outcome r = Throw (Error (to_message (message errorData))))
       ∧ (truthy (detail errorData) = false → truthy (message errorData) = false →
          outcome r = Throw (Error (js "HTTP " ++ decimal (status response)))))
  ∧ (json response = None →
     outcome r = Throw (Error (js "HTTP " ++ decimal (status response)
                               ++ js ": " ++ statusText response))).
Proof.
  intros Hnet Hok r.
  destruct (request_run env [] endpoint method payload w) as (Ho & Hc & _).
  change (network_calls []) with O in Ho, Hc.
  rewrite Hnet in Ho. unfold settle in Ho. rewrite Hok in Ho.
  fold (run env (APIService.request endpoint method payload) w) in Ho, Hc.
  fold r in Ho, Hc. unfold failure_message in Ho.
  split; [exact Hc|]. split.
  - intros errorData Hjson. rewrite Hjson in Ho.
    repeat split.
    + intros Hd. by rewrite Hd in Ho.
    + intros Hd Hm. by rewrite Hd, Hm in Ho.
    + intros Hd Hm. by rewrite Hd, Hm in Ho.
  - intros Hjson. by rewrite Hjson in Ho.
Qed.

Lemma request_failure_message_witness :
  let env := alone (fun _ _ => Responded not_found) yes in
  let r := run env (APIService.request (js "/ping") APIService.GET NoPayload) sample_world in
  ok not_found = false ∧ outcome r = Throw (Error (js "HTTP 404")).
Proof.
  intros env r. split; [reflexivity|].
  destruct (request_failure_message env (js "/ping") APIService.GET NoPayload
              sample_world not_found eq_refl eq_refl) as (_ & H & _).
  destruct (H no_body eq_refl) as (_ & _ & H3).
  apply H3; reflexivity.
Defined.

(** ** Sequencing *)

Lemma bind_gets {A B} (f : World → A) (k : A → Task B) w :
  (gets f ≫= k) w = k (f w) w.
Proof. reflexivity. Qed.

Lemma bind_act {B} (f : World → World) (k : unit → Task B) w :
  (act f ≫= k) w = k tt (f w).
Proof. reflexivity. Qed.

Lemma bind_done {A B} (t : Task A) (k : A → Task B) w a w' :
  t w = Done (Return a) w' → (t ≫= k) w = k a w'.
Proof. intros H. unfold mbind, task_bind, bind. by rewrite H. Qed.

Lemma run_done {A} env (t : Task A) w o w' :
  t w = Done o w' → run env t w = {| outcome := o; final := w'; trace := [] |}.
Proof. intros H. unfold run. by rewrite H. Qed.

(** Runs the synchronous prefix of a call. *)
Ltac sync_step := first [rewrite bind_gets | rewrite bind_act]; cbn beta.
Ltac sync := repeat sync_step.

(** ** What the display functions leave alone *)

Lemma display_only_refl w : display_only w w.
Proof. unfold display_only. tauto. Qed.

Lemma display_only_trans w1 w2 w3 :
  display_only w1 w2 → display_only w2 w3 → display_only w1 w3.
Proof. unfold display_only. intuition congruence. Qed.

Ltac display_case :=
  intros; unfold display_only; repeat case_match; simpl; tauto.

Lemma showMessage_display m k w : display_only (UIManager.showMessage m k w) w.
Proof. unfold UIManager.showMessage. display_case. Qed.

Lemma showError_display m w : display_only (UIManager.showError m w) w.
Proof. apply showMessage_display. Qed.

Lemma showSuccess_display m w : display_only (UIManager.showSuccess m w) w.
Proof. apply showMessage_display. Qed.

Lemma startProgressAnimation_display a b w :
  display_only (UIManager.startProgressAnimation a b w) w.
Proof. unfold UIManager.startProgressAnimation. display_case. Qed.

Lemma clearProgressInterval_display a w :
  display_only (UIManager.clearProgressInterval a w) w.
Proof. unfold UIManager.clearProgressInterval. display_case. Qed.

Lemma setBoth_display a b n w : display_only (UIManager.setBoth a b n w) w.
Proof. unfold UIManager.setBoth. display_case. Qed.

Lemma completeProgress_display a b w : display_only (UIManager.completeProgress a b w) w.
Proof.
  unfold UIManager.completeProgress.
  eapply display_only_trans; [apply setBoth_display | apply clearProgressInterval_display].
Qed.

Lemma resetProgress_display a b w : display_only (UIManager.resetProgress a b w) w.
Proof.
  unfold UIManager.resetProgress.
  eapply display_only_trans; [apply setBoth_display | apply clearProgressInterval_display].
Qed.

Lemma updateProgress_display a b n w : display_only (UIManager.updateProgress a b n w) w.
Proof.
  unfold UIManager.updateProgress, UIManager.has.
  destruct (bool_decide (a ∈ elems (page w))); simpl;
    repeat case_match; unfold display_only; simpl; tauto.
Qed.

Lemma showLoading_display a w : display_only (UIManager.showLoading a w) w.
Proof. unfold UIManager.showLoading. display_case. Qed.

Lemma hideLoading_display a w : display_only (UIManager.hideLoading a w) w.
Proof. unfold UIManager.hideLoading. display_case. Qed.

Lemma toggleElement_display a b w : display_only (UIManager.toggleElement a b w) w.
Proof. unfold UIManager.toggleElement. display_case. Qed.

Lemma toggleButton_display a b w : display_only (UIManager.toggleButton a b w) w.
Proof. unfold UIManager.toggleButton. display_case. Qed.

Lemma setContainerContent_display a c w :
  display_only (UIManager.setContainerContent a c w) w.
Proof. unfold UIManager.setContainerContent. display_case. Qed.

(** Peels display calls off the left-hand state. *)
Ltac display_step :=
  lazymatch goal with
  | |- display_only (UIManager.showError _ _) _ =>
      eapply display_only_trans; [apply showError_display|]
  | |- display_only (UIManager.showSuccess _ _) _ =>
      eapply display_only_trans; [apply showSuccess_display|]
  | |- display_only (UIManager.startProgressAnimation _ _ _) _ =>
      eapply display_only_trans; [apply startProgressAnimation_display|]
  | |- display_only (UIManager.completeProgress _ _ _) _ =>
      eapply display_only_trans; [apply completeProgress_display|]
  | |- display_only (UIManager.resetProgress _ _ _) _ =>
      eapply display_only_trans; [apply resetProgress_display|]
  | |- display_only (UIManager.updateProgress _ _ _ _) _ =>
      eapply display_only_trans; [apply updateProgress_display|]
  | |- display_only (UIManager.showLoading _ _) _ =>
      eapply display_only_trans; [apply showLoading_display|]
  | |- display_only (UIManager.hideLoading _ _) _ =>
      eapply display_only_trans; [apply hideLoading_display|]
  | |- display_only (UIManager.toggleElement _ _ _) _ =>
      eapply display_only_trans; [apply toggleElement_display|]
  | |- display_only (UIManager.toggleButton _ _ _) _ =>
      eapply display_only_trans; [apply toggleButton_display|]
  | |- display_only (UIManager.setContainerContent _ _ _) _ =>
      eapply display_only_trans; [apply setContainerContent_display|]
  end.

Ltac display := repeat display_step; try apply display_only_refl.

Lemma getInputValue_display id w' w :
  display_only w' w → UIManager.getInputValue id w' = UIManager.getInputValue id w.
Proof.
  intros H. unfold UIManager.getInputValue, UIManager.has.
  destruct H as (_ & _ & _ & _ & _ & _ & -> & -> & _). reflexivity.
Qed.

Lemma collect_display w' w :
  display_only w' w →
  SearchManager.collectSearchConditions w' = SearchManager.collectSearchConditions w.
Proof.
  intros H. unfold SearchManager.collectSearchConditions.
  destruct H as (_ & _ & _ & _ & _ & _ & _ & _ & -> & _). reflexivity.
Qed.

(** After [resetProgress] the indicator is at rest. *)
Lemma resetProgress_at_rest progressId textId w :
  at_rest progressId textId (UIManager.resetProgress progressId textId w).
Proof.
  unfold at_rest, UIManager.resetProgress, UIManager.setBoth, UIManager.has,
    UIManager.clearProgressInterval.
  simpl.
  destruct (bool_decide (progressId ∈ elems (page w))) eqn:Ep;
    destruct (bool_decide (textId ∈ elems (page w))) eqn:Et; simpl;
    (split; [set_solver|]); intros Hp Ht.
  - rewrite !lookup_insert. repeat case_decide; auto; congruence.
  - apply bool_decide_eq_false in Et. tauto.
  - apply bool_decide_eq_false in Ep. tauto.
  - apply bool_decide_eq_false in Ep. tauto.
Qed.

(** ** SearchOrchestrator *)

(** [validateApiKey] answers at once and at most shows a message. *)
Lemma validateApiKey_cases w :
  PatentSearchApp.validateApiKey w = Done (Return true) w
  ∨ ∃ m, PatentSearchApp.validateApiKey w
         = Done (Return false) (UIManager.showError m w).
Proof.
  unfold PatentSearchApp.validateApiKey. rewrite bind_gets.
  destruct (nonempty (UIManager.getInputValue "gpssApiKey" w)); simpl.
  - rewrite bind_gets. destruct (app_apiKeyVerified (app w)); simpl; eauto.
  - eauto.
Qed.

(** A call made while the shared guard is set stops at the guard. *)
Lemma executeSearch_guarded w :
  app_isSearching (app w) = true →
  PatentSearchApp.executeSearch w
  = Done (Return tt) (UIManager.showError (js "正在進行搜尋，請稍候...") w).
Proof.
  intros H. unfold PatentSearchApp.executeSearch. rewrite bind_gets, H. reflexivity.
Qed.

Lemma startConditionSearch_guarded w :
  app_isSearching (app w) = true →
  ∃ m, PatentSearchApp.startConditionSearch w
       = Done (Return tt) (UIManager.showError m w)
       ∧ (PatentSearchApp.validateApiKey w = Done (Return true) w →
          m = js "正在進行搜尋，請稍候...").
Proof.
  intros H. unfold PatentSearchApp.startConditionSearch.
  destruct (validateApiKey_cases w) as [Hv | [m Hv]].
  - eexists. rewrite (bind_done _ _ _ _ _ Hv). cbn [negb]. cbv iota.
    rewrite bind_gets, H. split; reflexivity.
  - exists m. rewrite (bind_done _ _ _ _ _ Hv). split; [reflexivity|].
    rewrite Hv. discriminate.
Qed.

Lemma analyzeExcel_guarded w file :
  xl_selectedFile (excel w) = Some file →
  xl_isProcessing (excel w) = true →
  ExcelManager.analyzeExcel w
  = Done (Return tt) (UIManager.showError (js "系統正在處理其他請求，請稍候...") w).
Proof.
  intros Hf Hp. unfold ExcelManager.analyzeExcel.
  rewrite bind_gets, Hf. cbv iota. rewrite bind_gets, Hp. reflexivity.
Qed.

Lemma last_message_showError m w :
  last_message (UIManager.showError m w) = Some (MsgError, m).
Proof. unfold last_message. simpl. apply last_snoc. Qed.

(** C1. While a tech search is running (the guard of the orchestrator is
    set) a second call to start one is rejected at once with the busy
    error: it reaches no suspension point, so it issues no network call,
    and apart from the message it leaves the state, the guard and both
    result stores included, as it was. *)
Theorem second_tech_search_rejected env w :
  app_isSearching (app w) = true →
  let r := run env PatentSearchApp.executeSearch w in
  outcome r = Return tt
  ∧ trace r = []
  ∧ network_calls (trace r) = 0%nat
  ∧ last_message (final r) = Some (MsgError, js "正在進行搜尋，請稍候...")
  ∧ final r = UIManager.showError (js "正在進行搜尋，請稍候...") w
  ∧ app_isSearching (app (final r)) = true
  ∧ app (final r) = app w
  ∧ search (final r) = search w.
Proof.
  intros H r. unfold r.
  rewrite (run_done env _ w _ _ (executeSearch_guarded w H)). simpl.
  repeat split; auto.
  unfold last_message. simpl. apply last_snoc.
Qed.

Lemma second_tech_search_rejected_witness :
  app_isSearching (app running_world) = true ∧
  let r := run (endpoint_env always_down yes quiet) PatentSearchApp.executeSearch running_world in
  outcome r = Return tt
  ∧ network_calls (trace r) = 0%nat
  ∧ app (final r) = app running_world
  ∧ search (final r) = search running_world.
Proof.
  split; [reflexivity|].
  destruct (second_tech_search_rejected (endpoint_env always_down yes quiet)
              running_world eq_refl)
    as (Ho & _ & Hn & _ & _ & _ & Ha & Hs).
  auto.
Defined.

(** Every collected condition has a keyword. *)
Lemma collect_row_keywords i row c :
  c ∈ SearchManager.collect_row i row → keywords c ≠ [].
Proof.
  unfold SearchManager.collect_row.
  destruct (row_dropped row) as [|k ks]; [by intros ?%elem_of_nil|].
  destruct (filter _ _) as [|k' ks'] eqn:E; [by intros ?%elem_of_nil|].
  intros ->%list_elem_of_singleton. discriminate.
Qed.

Lemma collect_keywords w c :
  c ∈ SearchManager.collectSearchConditions w → keywords c ≠ [].
Proof.
  unfold SearchManager.collectSearchConditions.
  intros (l & Hl & Hc)%list_elem_of_In%in_concat.
  apply list_elem_of_In in Hl, Hc.
  apply elem_of_lookup_imap in Hl as (i & row & -> & _).
  by eapply collect_row_keywords.
Qed.

Lemma no_empty_condition (cs : list SearchCondition) :
  (∀ c, c ∈ cs → keywords c ≠ []) →
  filter (λ c, bool_decide (keywords c = [])) cs = [].
Proof.
  induction cs as [|c cs IH]; intros Hall; [done|].
  rewrite filter_cons. case_decide as Hk.
  - apply Is_true_true, bool_decide_eq_true in Hk.
    exfalso. eapply Hall; [left | done].
  - apply IH. intros c' Hc'. apply Hall. by right.
Qed.

(** With a keyword to send, [manualSearch] passes its checks. *)
Lemma manualSearch_valid description gpssApiKey w :
  selected_keywords w ≠ [] →
  SearchManager.manualSearch description gpssApiKey w
  = SearchManager.manualSearch_try
      (SearchManager.manualSearch_request description gpssApiKey (selected_keywords w) w) w.
Proof.
  intros Hsel. unfold SearchManager.manualSearch. rewrite bind_gets.
  case_bool_decide as Hnil.
  { exfalso. apply Hsel. unfold selected_keywords. by rewrite Hnil. }
  assert (Hempty : filter (λ c, bool_decide (keywords c = []))
                     (SearchManager.collectSearchConditions w) = []).
  { apply no_empty_condition, collect_keywords. }
  rewrite Hempty. rewrite (bool_decide_eq_true_2 _ eq_refl). cbn [negb].
  fold (selected_keywords w).
  case_bool_decide as Hu; [contradiction|].
  by rewrite bind_gets.
Qed.

(** It then goes to the network in the state it was called in. *)
Lemma manualSearch_starts description gpssApiKey w :
  selected_keywords w ≠ [] →
  ∃ req k, SearchManager.manualSearch description gpssApiKey w = Await (Fetch req) w k.
Proof.
  intros Hsel. rewrite (manualSearch_valid _ _ _ Hsel).
  unfold SearchManager.manualSearch_try, APIService.confirmKeywordsAndSearch,
    APIService.request, try_catch.
  unfold mbind, task_bind, bind, gets, await. cbn [bindS catchS]. eauto.
Qed.

(** From rest, with a keyword to send, a tech search sets the guard and
    goes to the network. *)
Lemma executeSearch_starts w :
  app_isSearching (app w) = false →
  selected_keywords w ≠ [] →
  ∃ w', suspended_on_fetch (PatentSearchApp.executeSearch w) = Some w'
        ∧ app_isSearching (app w') = true
        ∧ excel w' = excel w.
Proof.
  intros Hidle Hsel. unfold PatentSearchApp.executeSearch.
  rewrite bind_gets, Hidle. cbv iota.
  unfold try_catch_finally, try_finally, try_catch.
  sync.
  set (w1 := UIManager.startProgressAnimation _ _ _).
  assert (Hd : display_only w1 (on_app (set_app_isSearching true) w))
    by (unfold w1; display).
  assert (Hsel1 : selected_keywords w1 ≠ []).
  { unfold selected_keywords. by rewrite (collect_display _ _ Hd). }
  destruct (manualSearch_starts (UIManager.getInputValue "techDescription" w)
              (UIManager.getInputValue "gpssApiKey" w) w1 Hsel1) as (req & k & Hk).
  unfold mbind, task_bind, bind. rewrite Hk.
  cbn [bindS catchS finallyS suspended_on_fetch].
  exists w1. split; [reflexivity|].
  destruct Hd as (_ & Ha & _ & _ & He & _). rewrite Ha, He. auto.
Qed.

Lemma validateApiKey_passes w :
  nonempty (UIManager.getInputValue "gpssApiKey" w) = true →
  app_apiKeyVerified (app w) = true →
  PatentSearchApp.validateApiKey w = Done (Return true) w.
Proof.
  intros Hk Hv. unfold PatentSearchApp.validateApiKey.
  rewrite bind_gets, Hk. cbn [negb]. cbv iota. rewrite bind_gets, Hv. reflexivity.
Qed.

(** Taking a session id does not touch the page, the guards or the stores
    of results. *)
Lemma app_ensureSessionId w :
  page (PatentSearchApp.ensureSessionId w) = page w
  ∧ excel (PatentSearchApp.ensureSessionId w) = excel w
  ∧ app_isSearching (app (PatentSearchApp.ensureSessionId w)) = app_isSearching (app w).
Proof.
  unfold PatentSearchApp.ensureSessionId.
  destruct (is_set (app_currentSessionId (app w))); auto.
Qed.

Lemma search_ensureSessionId w :
  page (SearchManager.ensureSessionId w) = page w
  ∧ excel (SearchManager.ensureSessionId w) = excel w
  ∧ app (SearchManager.ensureSessionId w) = app w.
Proof.
  unfold SearchManager.ensureSessionId.
  destruct (is_set (sm_currentSessionId (search w))); auto.
Qed.

(** A condition search with a criterion goes to the network. *)
Lemma conditionSearch_starts params w :
  SearchManager.hasValidConditions params = true →
  ∃ req k, SearchManager.conditionSearch params w
           = Await (Fetch req) (SearchManager.ensureSessionId w) k.
Proof.
  intros Hv. unfold SearchManager.conditionSearch. rewrite Hv. cbn [negb]. cbv iota.
  sync.
  unfold APIService.conditionSearch, APIService.request, try_catch.
  unfold mbind, task_bind, bind, gets, await. cbn [bindS catchS]. eauto.
Qed.

(** From rest, with the credential in place and a criterion typed in, a
    condition search sets the same guard and goes to the network. *)
Lemma startConditionSearch_starts w :
  nonempty (UIManager.getInputValue "gpssApiKey" w) = true →
  app_apiKeyVerified (app w) = true →
  app_isSearching (app w) = false →
  SearchManager.hasValidConditions (PatentSearchApp.buildConditionSearchParams w) = true →
  ∃ w', suspended_on_fetch (PatentSearchApp.startConditionSearch w) = Some w'
        ∧ app_isSearching (app w') = true
        ∧ excel w' = excel w.
Proof.
  intros Hk Hv Hidle Hc. unfold PatentSearchApp.startConditionSearch.
  rewrite (bind_done _ _ _ _ _ (validateApiKey_passes w Hk Hv)). cbn [negb]. cbv iota.
  rewrite bind_gets, Hidle. cbv iota.
  unfold try_catch_finally, try_finally, try_catch.
  sync.
  set (w0 := PatentSearchApp.ensureSessionId w).
  set (w1 := UIManager.startProgressAnimation _ _ _).
  destruct (app_ensureSessionId w) as (Hp0 & He0 & Hg0). fold w0 in Hp0, He0, Hg0.
  assert (Hd : display_only w1 (on_app (set_app_isSearching true) w0))
    by (unfold w1; display).
  assert (Hc0 : SearchManager.hasValidConditions
                  (PatentSearchApp.buildConditionSearchParams w0) = true).
  { revert Hc. unfold PatentSearchApp.buildConditionSearchParams,
      SearchManager.buildConditionSearchParams, SearchManager.hasValidConditions,
      UIManager.getInputValue, UIManager.has.
    cbn [sp_criteria]. by rewrite Hp0. }
  destruct (conditionSearch_starts _ w1 Hc0) as (req & k & Hk').
  unfold mbind, task_bind, bind. rewrite Hk'.
  cbn [bindS catchS finallyS suspended_on_fetch].
  eexists. split; [reflexivity|].
  destruct (search_ensureSessionId w1) as (_ & He1 & Ha1).
  destruct Hd as (_ & Ha & _ & _ & He & _).
  rewrite Ha1, He1, Ha, He. auto.
Qed.

(** With a file selected and no analysis under way, the analysis sets its
    own guard and uploads the file; the guard of the searches is not
    consulted and not touched. *)
Lemma analyzeExcel_starts w file :
  xl_selectedFile (excel w) = Some file →
  xl_isProcessing (excel w) = false →
  ∃ w', suspended_on_fetch (ExcelManager.analyzeExcel w) = Some w'
        ∧ xl_isProcessing (excel w') = true
        ∧ app w' = app w.
Proof.
  intros Hf Hidle. unfold ExcelManager.analyzeExcel.
  rewrite bind_gets, Hf. cbv iota. rewrite bind_gets, Hidle. cbv iota.
  unfold try_catch_finally, try_finally, try_catch.
  sync.
  set (w1 := UIManager.startProgressAnimation _ _ _).
  assert (Hd : display_only w1 (on_excel (set_xl_isProcessing true) w)).
  { unfold w1, ExcelManager.updateExcelProgress, ExcelManager.showAnalysisLoading,
      ExcelManager.disableAnalysisControls, ExcelManager.setControls.
    display_step.
    assert (Hx : ∀ v, display_only (ExcelManager.updateExcelProgress 10 v) v).
    { intros v. unfold ExcelManager.updateExcelProgress. display_case. }
    eapply display_only_trans; [apply Hx|]. display. }
  unfold APIService.uploadAndAnalyzeExcel, try_catch.
  unfold mbind, task_bind, bind, gets, await.
  cbn [bindS catchS finallyS suspended_on_fetch].
  exists w1. split; [reflexivity|].
  destruct Hd as (_ & Ha & _ & _ & He & _). rewrite Ha, He. auto.
Qed.

(** C10. The technical-description search and the condition search are
    guarded by one flag, [isSearching] of the application: either search
    sets it when it goes to the network, and while it is set starting
    either of them is rejected without a network call, with the busy error
    (for the condition search provided the credential check, which comes
    first, still passes). The file analysis has a flag of its own,
    [isProcessing]: it starts while a search is in flight, a search starts
    while it is in flight, and it is rejected only while its own flag is
    set. *)
Theorem searches_share_one_guard env :
  (∀ w, app_isSearching (app w) = false → selected_keywords w ≠ [] →
     ∃ w', suspended_on_fetch (PatentSearchApp.executeSearch w) = Some w'
           ∧ app_isSearching (app w') = true)
  ∧ (∀ w, nonempty (UIManager.getInputValue "gpssApiKey" w) = true →
       app_apiKeyVerified (app w) = true →
       app_isSearching (app w) = false →
       SearchManager.hasValidConditions (PatentSearchApp.buildConditionSearchParams w)
       = true →
       ∃ w', suspended_on_fetch (PatentSearchApp.startConditionSearch w) = Some w'
             ∧ app_isSearching (app w') = true)
  ∧ (∀ w, app_isSearching (app w) = true →
       let r := run env PatentSearchApp.executeSearch w in
       outcome r = Return tt
       ∧ network_calls (trace r) = 0%nat
       ∧ last_message (final r) = Some (MsgError, js "正在進行搜尋，請稍候...")
       ∧ app_isSearching (app (final r)) = true)
  ∧ (∀ w, app_isSearching (app w) = true →
       let r := run env PatentSearchApp.startConditionSearch w in
       outcome r = Return tt
       ∧ network_calls (trace r) = 0%nat
       ∧ app_isSearching (app (final r)) = true
       ∧ (∃ m, last_message (final r) = Some (MsgError, m))
       ∧ (nonempty (UIManager.getInputValue "gpssApiKey" w) = true →
          app_apiKeyVerified (app w) = true →
          last_message (final r) = Some (MsgError, js "正在進行搜尋，請稍候...")))
  ∧ (∀ w file, app_isSearching (app w) = true →
       xl_selectedFile (excel w) = Some file → xl_isProcessing (excel w) = false →
       ∃ w', suspended_on_fetch (ExcelManager.analyzeExcel w) = Some w'
             ∧ xl_isProcessing (excel w') = true
             ∧ app_isSearching (app w') = true)
  ∧ (∀ w, xl_isProcessing (excel w) = true →
       app_isSearching (app w) = false → selected_keywords w ≠ [] →
       ∃ w', suspended_on_fetch (PatentSearchApp.executeSearch w) = Some w'
             ∧ app_isSearching (app w') = true
             ∧ xl_isProcessing (excel w') = true)
  ∧ (∀ w file, xl_selectedFile (excel w) = Some file →
       xl_isProcessing (excel w) = true →
       let r := run env ExcelManager.analyzeExcel w in
       outcome r = Return tt
       ∧ network_calls (trace r) = 0%nat
       ∧ last_message (final r) = Some (MsgError, js "系統正在處理其他請求，請稍候...")
       ∧ xl_isProcessing (excel (final r)) = true).
Proof.
  split; [|split; [|split; [|split; [|split; [|split]]]]].
  - intros w Hi Hs. destruct (executeSearch_starts w Hi Hs) as (w' & ? & ? & _). eauto.
  - intros w Hk Hv Hi Hc.
    destruct (startConditionSearch_starts w Hk Hv Hi Hc) as (w' & ? & ? & _). eauto.
  - intros w H r. unfold r.
    rewrite (run_done env _ w _ _ (executeSearch_guarded w H)). simpl.
    rewrite last_message_showError. auto.
  - intros w H r. unfold r.
    destruct (startConditionSearch_guarded w H) as (m & Hrun & Hm).
    rewrite (run_done env _ w _ _ Hrun). simpl.
    rewrite last_message_showError. repeat split; eauto.
    intros Hk Hv. by rewrite (Hm (validateApiKey_passes w Hk Hv)).
  - intros w file Ha Hf Hp.
    destruct (analyzeExcel_starts w file Hf Hp) as (w' & ? & ? & Happ).
    exists w'. rewrite Happ. auto.
  - intros w Hp Hi Hs.
    destruct (executeSearch_starts w Hi Hs) as (w' & ? & ? & He).
    exists w'. rewrite He. auto.
  - intros w file Hf Hp r. unfold r.
    rewrite (run_done env _ w _ _ (analyzeExcel_guarded w file Hf Hp)). simpl.
    rewrite last_message_showError. auto.
Qed.

Lemma searches_share_one_guard_witness :
  app_isSearching (app running_with_file) = true
  ∧ xl_selectedFile (excel running_with_file) = Some sample_file
  ∧ xl_isProcessing (excel running_with_file) = false
  ∧ (let r := run (endpoint_env always_down yes quiet)
                PatentSearchApp.startConditionSearch running_with_file in
     network_calls (trace r) = 0%nat
     ∧ last_message (final r) = Some (MsgError, js "正在進行搜尋，請稍候..."))
  ∧ (∃ w', suspended_on_fetch (ExcelManager.analyzeExcel running_with_file) = Some w'
           ∧ xl_isProcessing (excel w') = true
           ∧ app_isSearching (app w') = true).
Proof.
  destruct (searches_share_one_guard (endpoint_env always_down yes quiet))
    as (_ & _ & _ & Hc & Hx & _).
  split; [reflexivity|]. split; [reflexivity|]. split; [reflexivity|]. split.
  - destruct (Hc running_with_file eq_refl) as (_ & Hn & _ & _ & Hm).
    split; [exact Hn|]. apply Hm; reflexivity.
  - apply (Hx running_with_file sample_file); reflexivity.
Defined.


(** Showing a message does not move a progress indicator. *)
Lemma at_rest_showError progressId textId m w :
  at_rest progressId textId w → at_rest progressId textId (UIManager.showError m w).
Proof. unfold at_rest. auto. Qed.

Lemma analysis_controls_display b w : display_only (ExcelManager.setControls b w) w.
Proof. unfold ExcelManager.setControls. display. Qed.

(** Each workflow ends in its [finally] block. *)
Lemma executeSearch_resets env w :
  app_isSearching (app w) = false →
  let r := run env PatentSearchApp.executeSearch w in
  outcome r = Return tt
  ∧ app_isSearching (app (final r)) = false
  ∧ at_rest "progress-fill" "progress-text" (final r).
Proof.
  intros Hidle r. unfold r, PatentSearchApp.executeSearch.
  unfold run. rewrite bind_gets, Hidle. cbv iota.
  unfold try_catch_finally, try_finally, try_catch.
  rewrite outcome_finally, final_finally.
  split; [apply catch_report_returns|]. split; [|apply resetProgress_at_rest].
  set (w' := final _).
  assert (Hd : display_only
                 (UIManager.resetProgress "progress-fill" "progress-text"
                    (UIManager.hideLoading "loading-tech"
                       (on_app (set_app_isSearching false) w')))
                 (on_app (set_app_isSearching false) w')) by display.
  destruct Hd as (_ & -> & _). reflexivity.
Qed.

Lemma startConditionSearch_resets env w :
  app_isSearching (app w) = false →
  let r := run env PatentSearchApp.startConditionSearch w in
  outcome r = Return tt
  ∧ app_isSearching (app (final r)) = false
  ∧ (nonempty (UIManager.getInputValue "gpssApiKey" w) = true →
     app_apiKeyVerified (app w) = true →
     at_rest "progress-fill-condition" "progress-text-condition" (final r))
  ∧ (nonempty (UIManager.getInputValue "gpssApiKey" w) = false
     ∨ app_apiKeyVerified (app w) = false →
     ∃ m, final r = UIManager.showError m w ∧ trace r = []).
Proof.
  intros Hidle r. unfold r, PatentSearchApp.startConditionSearch.
  destruct (validateApiKey_cases w) as [Hv | [m Hv]].
  - unfold run. rewrite (bind_done _ _ _ _ _ Hv). cbn [negb]. cbv iota.
    rewrite bind_gets, Hidle. cbv iota.
    unfold try_catch_finally, try_finally, try_catch.
    rewrite outcome_finally, final_finally.
    split; [apply catch_report_returns|].
    split; [|split; [intros _ _; apply resetProgress_at_rest|]].
    + set (w' := final _).
      assert (Hd : display_only
                     (UIManager.resetProgress "progress-fill-condition"
                        "progress-text-condition"
                        (UIManager.hideLoading "loading-condition"
                           (UIManager.toggleButton "startConditionSearchBtn" true
                              (on_app (set_app_isSearching false) w'))))
                     (on_app (set_app_isSearching false) w')) by display.
      destruct Hd as (_ & -> & _). reflexivity.
    + intros Hbad. exfalso. revert Hv. unfold PatentSearchApp.validateApiKey.
      rewrite bind_gets.
      destruct (nonempty (UIManager.getInputValue "gpssApiKey" w)); cbn [negb]; cbv iota.
      * rewrite bind_gets. destruct Hbad as [Hbad | Hbad]; [discriminate|].
        rewrite Hbad. cbn [negb]. cbv iota. rewrite bind_act. discriminate.
      * rewrite bind_act. discriminate.
  - unfold run. rewrite (bind_done _ _ _ _ _ Hv). cbn [negb]. cbv iota.
    cbn [run_from ret act outcome final trace].
    split; [reflexivity|]. split; [exact Hidle|]. split; [|eauto].
    intros Hk Hver. rewrite (validateApiKey_passes w Hk Hver) in Hv. discriminate.
Qed.

Lemma analyzeExcel_resets env w :
  xl_isProcessing (excel w) = false →
  let r := run env ExcelManager.analyzeExcel w in
  outcome r = Return tt
  ∧ xl_isProcessing (excel (final r)) = false
  ∧ (is_Some (xl_selectedFile (excel w)) →
     at_rest "progress-fill-excel" "progress-text-excel" (final r))
  ∧ (xl_selectedFile (excel w) = None →
     final r = UIManager.showError (js "請先選擇Excel檔案") w ∧ trace r = []).
Proof.
  intros Hidle r. unfold r, ExcelManager.analyzeExcel. unfold run.
  rewrite bind_gets. destruct (xl_selectedFile (excel w)) as [file|].
  - rewrite bind_gets, Hidle. cbv iota.
    unfold try_catch_finally, try_finally, try_catch.
    rewrite outcome_finally, final_finally.
    split; [apply catch_report_returns|].
    split; [|split; [intros _; apply resetProgress_at_rest | discriminate]].
    set (w' := final _).
    assert (Hd : display_only
                   (UIManager.resetProgress "progress-fill-excel" "progress-text-excel"
                      (ExcelManager.hideAnalysisLoading
                         (ExcelManager.enableAnalysisControls
                            (on_excel (set_xl_isProcessing false) w'))))
                   (on_excel (set_xl_isProcessing false) w')).
    { display_step. unfold ExcelManager.hideAnalysisLoading. display_step.
      apply analysis_controls_display. }
    destruct Hd as (_ & _ & _ & _ & -> & _). reflexivity.
  - cbn [run_from ret act outcome final trace].
    split; [reflexivity|]. split; [exact Hidle|]. split; [|done].
    intros [? ?]. discriminate.
Qed.

(** C5. Whatever the backend answers and whatever else happens on the
    page meanwhile, each of the three workflows (technical-description
    search, condition search, file analysis), started while its guard is
    clear, returns normally with its guard clear. Once it has entered its
    [try] block it ends in the [finally] block: its progress indicator is
    at rest afterwards (interval removed, bar and text at 0%), whatever
    the indicator showed before; this is every run of the
    technical-description search, every run of the condition search with
    a verified credential, and every file analysis with a file selected,
    on success, on a failure of the backend and on a rejection by a
    validation inside the block. A condition search rejected for its
    credential and a file analysis without a file stop before the block:
    they cause no network call and change nothing but the message shown,
    so guard and indicator are as they were. *)
Theorem guard_and_progress_reset env w :
  (app_isSearching (app w) = false →
   let r := run env PatentSearchApp.executeSearch w in
   outcome r = Return tt
   ∧ app_isSearching (app (final r)) = false
   ∧ at_rest "progress-fill" "progress-text" (final r))
  ∧ (app_isSearching (app w) = false →
     let r := run env PatentSearchApp.startConditionSearch w in
     outcome r = Return tt
     ∧ app_isSearching (app (final r)) = false
     ∧ (nonempty (UIManager.getInputValue "gpssApiKey" w) = true →
        app_apiKeyVerified (app w) = true →
        at_rest "progress-fill-condition" "progress-text-condition" (final r))
     ∧ (nonempty (UIManager.getInputValue "gpssApiKey" w) = false
        ∨ app_apiKeyVerified (app w) = false →
        ∃ m, final r = UIManager.showError m w ∧ trace r = []))
  ∧ (xl_isProcessing (excel w) = false →
     let r := run env ExcelManager.analyzeExcel w in
     outcome r = Return tt
     ∧ xl_isProcessing (excel (final r)) = false
     ∧ (is_Some (xl_selectedFile (excel w)) →
        at_rest "progress-fill-excel" "progress-text-excel" (final r))
     ∧ (xl_selectedFile (excel w) = None →
        final r = UIManager.showError (js "請先選擇Excel檔案") w ∧ trace r = [])).
Proof.
  split; [|split].
  - apply executeSearch_resets.
  - apply startConditionSearch_resets.
  - apply analyzeExcel_resets.
Qed.

Lemma guard_and_progress_reset_witness :
  let env := endpoint_env always_down yes quiet in
  let tech := stale_progress ready_world in
  let cond := stale_progress condition_world in
  let xl := stale_progress (select_file sample_file ready_world) in
  (app_isSearching (app tech) = false
   ∧ percent (page tech) !! "progress-fill"%string = Some 50%N
   ∧ let r := run env PatentSearchApp.executeSearch tech in
     network_calls (trace r) = 1%nat
     ∧ outcome r = Return tt
     ∧ app_isSearching (app (final r)) = false
     ∧ at_rest "progress-fill" "progress-text" (final r))
  ∧ (app_isSearching (app cond) = false
     ∧ percent (page cond) !! "progress-fill-condition"%string = Some 50%N
     ∧ let r := run env PatentSearchApp.startConditionSearch cond in
       network_calls (trace r) = 1%nat
       ∧ outcome r = Return tt
       ∧ app_isSearching (app (final r)) = false
       ∧ at_rest "progress-fill-condition" "progress-text-condition" (final r))
  ∧ (xl_isProcessing (excel xl) = false
     ∧ percent (page xl) !! "progress-fill-excel"%string = Some 50%N
     ∧ let r := run env ExcelManager.analyzeExcel xl in
       network_calls (trace r) = 1%nat
       ∧ outcome r = Return tt
       ∧ xl_isProcessing (excel (final r)) = false
       ∧ at_rest "progress-fill-excel" "progress-text-excel" (final r)).
Proof.
  intros env tech cond xl.
  split; [|split].
  - destruct (guard_and_progress_reset env tech) as (Ht & _).
    destruct (Ht eq_refl) as (Ho & Hg & Hr).
    split; [reflexivity|]. split; [vm_compute; reflexivity|].
    split; [vm_compute; reflexivity|]. split; [exact Ho|]. split; [exact Hg | exact Hr].
  - destruct (guard_and_progress_reset env cond) as (_ & Hc & _).
    destruct (Hc eq_refl) as (Ho & Hg & Hr & _).
    split; [reflexivity|]. split; [vm_compute; reflexivity|].
    split; [vm_compute; reflexivity|]. split; [exact Ho|]. split; [exact Hg|].
    apply Hr; vm_compute; reflexivity.
  - destruct (guard_and_progress_reset env xl) as (_ & _ & Hx).
    destruct (Hx eq_refl) as (Ho & Hg & Hr & _).
    split; [reflexivity|]. split; [vm_compute; reflexivity|].
    split; [vm_compute; reflexivity|]. split; [exact Ho|]. split; [exact Hg|].
    apply Hr. eexists. reflexivity.
Defined.

(** The [finally] block of the keyword generation leaves the messages as
    they are. *)
Lemma generateKeywords_finally_message m w :
  last_message
    (UIManager.resetProgress "progress-fill" "progress-text"
       (UIManager.hideLoading "loading-tech"
          (UIManager.toggleButton "generateKeywordsBtn" true
             (on_app (set_app_isSearching false) (UIManager.showError m w)))))
  = Some (MsgError, m).
Proof.
  unfold UIManager.resetProgress, UIManager.setBoth, UIManager.clearProgressInterval,
    UIManager.hideLoading, UIManager.toggleButton, UIManager.has, last_message.
  repeat case_match; simpl; apply last_snoc.
Qed.

(** C7. For every description that is empty or shorter than 50 characters
    the keyword generation fails on validation before anything is sent:
    [SearchManager.generateKeywords] throws the validation error without
    reaching a suspension point and leaves the state as it was, and
    [PatentSearchApp.generateKeywords], reading such a description off the
    page, returns after showing an error, again without a single network
    call. *)
Theorem short_description_never_sent env w description :
  (length description < 50)%nat →
  (let r := run env (SearchManager.generateKeywords description) w in
   outcome r = Throw (Error (js "技術描述太短，請提供更詳細的描述（至少50個字）"))
   ∧ trace r = []
   ∧ network_calls (trace r) = 0%nat
   ∧ final r = w)
  ∧ (UIManager.getInputValue "techDescription" w = description →
     let r := run env PatentSearchApp.generateKeywords w in
     outcome r = Return tt
     ∧ trace r = []
     ∧ network_calls (trace r) = 0%nat
     ∧ (∃ m, last_message (final r) = Some (MsgError, m))
     ∧ (nonempty (UIManager.getInputValue "gpssApiKey" w) = true →
        app_apiKeyVerified (app w) = true →
        app_isSearching (app w) = false →
        last_message (final r)
        = Some (MsgError,
                if nonempty description
                then js "技術描述太短，請提供更詳細的描述（至少50個字）"
                else js "請先輸入技術描述"))).
Proof.
  intros Hlen.
  assert (Hshort : (length description <? 50)%nat = true) by by apply Nat.ltb_lt.
  split.
  - unfold run, SearchManager.generateKeywords. rewrite Hshort, orb_true_r.
    cbn [throw run_from outcome trace final]. auto.
  - intros Hinput r. unfold r, run, PatentSearchApp.generateKeywords.
    destruct (validateApiKey_cases w) as [Hv | [m Hv]];
      rewrite (bind_done _ _ _ _ _ Hv); cbn [negb]; cbv iota.
    + rewrite bind_gets.
      destruct (app_isSearching (app w)) eqn:Hbusy; cbv iota.
      * cbn [act run_from outcome trace final].
        rewrite last_message_showError.
        repeat split; eauto. intros _ _ ?. discriminate.
      * unfold try_catch_finally, try_finally, try_catch.
        rewrite bind_gets, Hinput.
        destruct (nonempty description) eqn:Hne; cbn [negb]; cbv iota.
        -- rewrite Hshort.
           cbn [act catchS finallyS run_from outcome trace final].
           rewrite generateKeywords_finally_message. repeat split; eauto.
        -- cbn [act catchS finallyS run_from outcome trace final].
           rewrite generateKeywords_finally_message. repeat split; eauto.
    + cbn [ret run_from outcome trace final].
      rewrite last_message_showError. repeat split; eauto.
      intros Hk Hver _. rewrite (validateApiKey_passes w Hk Hver) in Hv. discriminate.
Qed.

Lemma short_description_never_sent_witness :
  (length (js "wafer probe station") < 50)%nat
  ∧ UIManager.getInputValue "techDescription" ready_world = js "wafer probe station"
  ∧ (let r := run (endpoint_env always_down yes quiet)
                PatentSearchApp.generateKeywords ready_world in
     network_calls (trace r) = 0%nat
     ∧ last_message (final r)
       = Some (MsgError, js "技術描述太短，請提供更詳細的描述（至少50個字）")).
Proof.
  assert (Hlen : (length (js "wafer probe station") < 50)%nat) by (vm_compute; lia).
  destruct (short_description_never_sent (endpoint_env always_down yes quiet) ready_world
              (js "wafer probe station") Hlen) as (_ & H).
  split; [exact Hlen|]. split; [reflexivity|].
  destruct (H eq_refl) as (_ & _ & Hn & _ & Hm).
  split; [exact Hn|].
  etransitivity; [apply Hm; vm_compute; reflexivity|].
  vm_compute. reflexivity.
Defined.

(** ** ResultStore *)

(** Without records to export, [exportToExcel] throws before it builds the
    sheet. *)
Lemma exportToExcel_no_data env type w :
  SearchManager.searchResults type w = None
  ∨ SearchManager.searchResults type w = Some [] →
  let x := run env (SearchManager.exportToExcel type) w in
  outcome x = Throw (Error (js "沒有可匯出的資料"))
  ∧ final x = w
  ∧ trace x = [].
Proof.
  intros H x. unfold x, run, SearchManager.exportToExcel. rewrite bind_gets.
  destruct H as [-> | ->]; cbn [throw run_from outcome final trace]; auto.
Qed.

(** A confirmed search answered with success is stored as answered. *)
Lemma manualSearch_try_success env requestData w response body :
  (∀ req, net env 0%nat req = Responded response) →
  ok response = true →
  json response = Some body →
  success body = true →
  let r := run env (SearchManager.manualSearch_try requestData) w in
  outcome r = Return body
  ∧ sm_tech (search (final r))
    = Some (default (default [] (results body)) (search_results body))
  ∧ network_calls (trace r) = 1%nat.
Proof.
  intros Hnet Hok Hjson Hsucc r.
  unfold r, run, SearchManager.manualSearch_try, try_catch.
  rewrite run_from_rethrow.
  unfold mbind, task_bind, bind.
  set (call := APIService.confirmKeywordsAndSearch requestData w).
  assert (Hcall : outcome (run_from env [] call) = Return body
                  ∧ network_calls (trace (run_from env [] call)) = 1%nat).
  { unfold call, APIService.confirmKeywordsAndSearch, try_catch.
    rewrite run_from_rethrow.
    destruct (request_run env [] (js "/api/v1/patents/search/tech-description-confirmed")
                APIService.POST (ConfirmPayload requestData) w) as (Ho & Hc & _).
    split; [|exact Hc].
    rewrite Ho, Hnet. unfold settle. by rewrite Hok, Hjson. }
  destruct Hcall as (Ho & Hc).
  rewrite (run_from_bind_return env call _ [] body Ho). rewrite Hsucc.
  unfold act, ret. cbn [bindS run_from outcome final trace].
  repeat split; auto.
Qed.

(** C8. A successful confirmed search whose response carries an empty
    list of results stores the empty list as the tech entry, and an export
    of a mode whose stored result set is empty or absent fails with the
    "no exportable data" error without handing anything to the export
    collaborator. *)
Theorem empty_results_stored_not_exported env w description gpssApiKey response body :
  selected_keywords w ≠ [] →
  (∀ req, net env 0%nat req = Responded response) →
  ok response = true →
  json response = Some body →
  success body = true →
  default (default [] (results body)) (search_results body) = [] →
  let r := run env (SearchManager.manualSearch description gpssApiKey) w in
  outcome r = Return body
  ∧ sm_tech (search (final r)) = Some []
  ∧ SearchManager.getSearchResults Tech (final r) = []
  ∧ (∀ env',
       let x := run env' (SearchManager.exportToExcel Tech) (final r) in
       outcome x = Throw (Error (js "沒有可匯出的資料"))
       ∧ downloads (page (final x)) = downloads (page (final r))
       ∧ trace x = [])
  ∧ (∀ env' type w',
       SearchManager.searchResults type w' = None
       ∨ SearchManager.searchResults type w' = Some [] →
       let x := run env' (SearchManager.exportToExcel type) w' in
       outcome x = Throw (Error (js "沒有可匯出的資料"))
       ∧ downloads (page (final x)) = downloads (page w')
       ∧ final x = w'
       ∧ trace x = []).
Proof.
  intros Hsel Hnet Hok Hjson Hsucc Hempty r.
  assert (Hgeneral : ∀ env' type w',
             SearchManager.searchResults type w' = None
             ∨ SearchManager.searchResults type w' = Some [] →
             let x := run env' (SearchManager.exportToExcel type) w' in
             outcome x = Throw (Error (js "沒有可匯出的資料"))
             ∧ downloads (page (final x)) = downloads (page w')
             ∧ final x = w'
             ∧ trace x = []).
  { intros env' type w' H x.
    destruct (exportToExcel_no_data env' type w' H) as (Ho & Hf & Ht).
    fold x in Ho, Hf, Ht. rewrite Ho, Hf, Ht. auto. }
  unfold r, run. rewrite (manualSearch_valid _ _ _ Hsel).
  destruct (manualSearch_try_success env
              (SearchManager.manualSearch_request description gpssApiKey
                 (selected_keywords w) w) w response body Hnet Hok Hjson Hsucc)
    as (Ho & Hstore & _).
  unfold run in Ho, Hstore. rewrite Hempty in Hstore.
  split; [exact Ho|]. split; [exact Hstore|].
  split; [unfold SearchManager.getSearchResults, SearchManager.searchResults;
          by rewrite Hstore|].
  split; [|exact Hgeneral].
  intros env'.
  destruct (Hgeneral env' Tech
              (final (run_from env []
                 (SearchManager.manualSearch_try
                    (SearchManager.manualSearch_request description gpssApiKey
                       (selected_keywords w) w) w)))) as (Hxo & Hxd & _ & Hxt).
  { right. unfold SearchManager.searchResults. exact Hstore. }
  unfold run in Hxo, Hxd, Hxt. auto.
Qed.

Lemma empty_results_stored_not_exported_witness :
  let env := alone (fun _ _ => Responded (ok_response found_nothing)) yes in
  let r := run env (SearchManager.manualSearch (js "wafer probe station")
                      (js "0123456789ABCDEF")) ready_world in
  selected_keywords ready_world ≠ []
  ∧ sm_tech (search (final r)) = Some []
  ∧ outcome (run env (SearchManager.exportToExcel Tech) (final r))
    = Throw (Error (js "沒有可匯出的資料")).
Proof.
  intros env r.
  assert (Hsel : selected_keywords ready_world ≠ []) by (vm_compute; discriminate).
  destruct (empty_results_stored_not_exported env ready_world (js "wafer probe station")
              (js "0123456789ABCDEF") (ok_response found_nothing) found_nothing Hsel)
    as (_ & Hstore & _ & Hexport & _); try reflexivity.
  split; [exact Hsel|]. split; [exact Hstore|].
  destruct (Hexport env) as (Ho & _). exact Ho.
Defined.

(** ** Calls that respect a relation on states *)

Section Respects.
Variables (R : World → World → Prop) (P : Event → Prop).
Hypothesis R_refl : ∀ w, R w w.
Hypothesis R_trans : ∀ w1 w2 w3, R w1 w2 → R w2 w3 → R w1 w3.

Lemma respects_weaken {A} w0 w1 (s : Step A) :
  R w0 w1 → respects R P w1 s → respects R P w0 s.
Proof.
  intros H01 Hs. induction Hs as [o w Hw | X e w k Hw He Hk IH].
  - constructor. eauto.
  - constructor; eauto.
Qed.

Lemma respects_bind {A B} w0 (s : Step A) (f : A → Task B) :
  respects R P w0 s →
  (∀ a w, R w0 w → respects R P w0 (f a w)) →
  respects R P w0 (bindS s f).
Proof.
  intros Hs Hf. induction Hs as [[a|e] w Hw | X e w k Hw He Hk IH]; simpl.
  - by apply Hf.
  - by constructor.
  - constructor; auto.
Qed.

Lemma respects_catch {A} w0 (s : Step A) (h : exn → Task A) :
  respects R P w0 s →
  (∀ e w, R w0 w → respects R P w0 (h e w)) →
  respects R P w0 (catchS s h).
Proof.
  intros Hs Hh. induction Hs as [[a|e] w Hw | X e w k Hw He Hk IH]; simpl.
  - by constructor.
  - by apply Hh.
  - constructor; auto.
Qed.

(** Run to completion among handlers that keep [R] too, the call ends
    in a state related to the one it started in, and its events have
    [P]. *)
Lemma respects_run {A} env w0 (s : Step A) tr :
  (∀ n v, R v (meanwhile env n v)) →
  respects R P w0 s →
  Forall P tr →
  R w0 (final (run_from env tr s)) ∧ Forall P (trace (run_from env tr s)).
Proof.
  intros Henv Hs. revert tr.
  induction Hs as [o w Hw | X e w k Hw He Hk IH]; intros tr Htr; simpl.
  - auto.
  - apply IH.
    + apply Henv.
    + apply Forall_app. split; [done|]. by constructor.
Qed.

Lemma keeps_ret {A} (a : A) : keeps R P (ret a).
Proof. intros w. by constructor. Qed.

Lemma keeps_throw {A} e : keeps R P (@throw A e).
Proof. intros w. by constructor. Qed.

Lemma keeps_gets {A} (f : World → A) : keeps R P (gets f).
Proof. intros w. by constructor. Qed.

Lemma keeps_act (f : World → World) : (∀ w, R w (f w)) → keeps R P (act f).
Proof. intros Hf w. by constructor. Qed.

Lemma keeps_await {X} (e : Eff X) : P (event_of e) → keeps R P (await e).
Proof.
  intros He w. constructor; auto. intros x w' Hw. by constructor.
Qed.

Lemma keeps_bind {A B} (t : Task A) (f : A → Task B) :
  keeps R P t → (∀ a, keeps R P (f a)) → keeps R P (t ≫= f).
Proof.
  intros Ht Hf w. unfold mbind, task_bind, bind.
  apply respects_bind; [apply Ht|].
  intros a w' Hw. eapply respects_weaken; [exact Hw | apply Hf].
Qed.

Lemma keeps_try_catch {A} (t : Task A) (h : exn → Task A) :
  keeps R P t → (∀ e, keeps R P (h e)) → keeps R P (try_catch t h).
Proof.
  intros Ht Hh w. unfold try_catch.
  apply respects_catch; [apply Ht|].
  intros e w' Hw. eapply respects_weaken; [exact Hw | apply Hh].
Qed.

(** [request] changes nothing itself; it causes one [fetch] and reads
    the body. *)
Lemma keeps_request endpoint method payload :
  (∀ base, P (EFetch {| url := base ++ endpoint; method := method;
                        payload := payload |})) →
  P EReadJson →
  keeps R P (APIService.request endpoint method payload).
Proof.
  intros Hfetch Hread. unfold APIService.request.
  apply keeps_try_catch; [|intros; apply keeps_throw].
  intros w. rewrite bind_gets.
  apply (keeps_bind (await _)); [apply keeps_await, Hfetch|].
  intros [e | response]; [apply keeps_throw|].
  destruct (ok response); cbn [negb].
  - apply keeps_bind; [by apply keeps_await|].
    intros [data|]; [apply keeps_ret | apply keeps_throw].
  - apply keeps_bind; [|intros; apply keeps_throw].
    apply keeps_try_catch; [|intros; apply keeps_ret].
    apply keeps_bind; [by apply keeps_await|].
    intros [errorData|]; [apply keeps_ret | apply keeps_throw].
Qed.

End Respects.

(** ** RetryWrapper *)

Lemma request_exchange env tr endpoint method payload w :
  let req := request_to endpoint method payload (baseUrl w) in
  let o := net env (network_calls tr) req in
  let r := run_from env tr (APIService.request endpoint method payload w) in
  outcome r = settle o
  ∧ trace r = tr ++ exchange req o
  ∧ (undisturbed env → final r = w).
Proof.
  intros req o r. unfold r, o, req, exchange, request_to.
  unfold APIService.request, try_catch, mbind, task_bind, bind, gets, await, settle,
    failure_message.
  simpl.
  destruct (net env (network_calls tr) _) as [e | response]; simpl.
  - split; [done|]. split; [done|]. intros H. apply H.
  - destruct (ok response); simpl.
    + destruct (json response) as [data|]; simpl; rewrite <- !app_assoc; simpl;
        (split; [done|]); (split; [done|]); intros H; by rewrite !H.
    + destruct (json response) as [errorData|]; simpl.
      * unfold js_or. destruct (truthy (detail errorData)); simpl;
          [| destruct (truthy (message errorData)); simpl];
          rewrite <- !app_assoc; simpl;
          (split; [done|]); (split; [done|]); intros H; by rewrite !H.
      * rewrite <- !app_assoc; simpl.
        (split; [done|]); (split; [done|]); intros H; by rewrite !H.
Qed.

Lemma network_calls_exchange req o : network_calls (exchange req o) = 1%nat.
Proof. unfold exchange. by destruct o. Qed.

Lemma waits_exchange req o : waits (exchange req o) = [].
Proof. unfold exchange. by destruct o. Qed.

(** [request] leaves the base URL to the other handlers. *)
Lemma request_baseUrl (Pb : jsstr → Prop) env tr endpoint method payload w :
  (∀ k v, Pb (baseUrl v) → Pb (baseUrl (meanwhile env k v))) →
  Pb (baseUrl w) →
  Pb (baseUrl (final (run_from env tr (APIService.request endpoint method payload w)))).
Proof.
  intros Henv Hw.
  destruct (respects_run (λ v v', Pb (baseUrl v) → Pb (baseUrl v')) (λ _, True)
              env w (APIService.request endpoint method payload w) tr)
    as (H & _); auto.
  - apply keeps_request; auto.
  - apply Forall_forall. auto.
Qed.

Lemma attempts_cons env c req reqs :
  attempts env c (req :: reqs)
  = exchange req (net env c req) :: attempts env (S c) reqs.
Proof.
  unfold attempts. cbn [imap]. rewrite Nat.add_0_r. f_equal.
  apply imap_ext. intros j q _. cbn. by rewrite Nat.add_succ_r.
Qed.

Lemma attempts_length env c reqs : length (attempts env c reqs) = length reqs.
Proof. unfold attempts. apply length_imap. Qed.

Lemma backoff_schedule_cons attempt rest delay :
  rest ≠ [] →
  backoff_schedule (attempt :: rest) delay
  = attempt ++ EDelay delay :: backoff_schedule rest (delay * 2).
Proof. by destruct rest. Qed.

Lemma retry_loop_step n i maxRetries delay lastError endpoint method payload :
  APIService.retry_loop (S n) i maxRetries delay lastError endpoint method payload
  = try_catch
      (APIService.request endpoint method payload)
      (fun error =>
         if i =? maxRetries then throw error
         else
           Utils.delay delay;;
           APIService.retry_loop n (i + 1) maxRetries (delay * 2) error
             endpoint method payload).
Proof. reflexivity. Qed.

Section Backoff.
Variable env : Env.
Variables (endpoint : jsstr) (method : string) (payload : Payload).
Variable maxRetries : Z.

Let req := request_to endpoint method payload.

(** The loop makes its attempts one after the other, each at the base URL
    of the moment, with a wait before each but the first; it stops at the
    first attempt that succeeds, or at the last iteration. *)
Lemma retry_loop_schedule n : ∀ i delay lastError tr w,
  i + Z.of_nat (S n) = maxRetries + 1 →
  let c := network_calls tr in
  let r := run_from env tr
             (APIService.retry_loop (S n) i maxRetries delay lastError
                endpoint method payload w) in
  ∃ bases last,
    head (bases ++ [last]) = Some (baseUrl w)
    ∧ (length bases ≤ n)%nat
    ∧ (∀ Pb : jsstr → Prop,
         (∀ k v, Pb (baseUrl v) → Pb (baseUrl (meanwhile env k v))) →
         Pb (baseUrl w) → Forall Pb (bases ++ [last]))
    ∧ trace r = tr ++ backoff_schedule (attempts env c (map req (bases ++ [last]))) delay
    ∧ (∀ j base, bases !! j = Some base →
         ∃ e, settle (net env (c + j) (req base)) = Throw e)
    ∧ outcome r = settle (net env (c + length bases) (req last))
    ∧ (length bases = n ∨ ∃ data, outcome r = Return data).
Proof.
  induction n as [|n IH]; intros i delay lastError tr w Hi c r;
    unfold r; rewrite retry_loop_step;
    unfold try_catch; rewrite run_from_catch;
    destruct (request_exchange env tr endpoint method payload w) as (Ho & Ht & _);
    cbv zeta in Ho, Ht; fold req c in Ho, Ht; rewrite Ho.
  - exists [], (baseUrl w). rewrite app_nil_l. cbn [length]. rewrite Nat.add_0_r.
    split; [done|]. split; [done|].
    split; [intros Pb _ Hw; by repeat constructor|].
    assert (Htr : tr ++ backoff_schedule (attempts env c (map req [baseUrl w])) delay
                  = tr ++ exchange (req (baseUrl w)) (net env c (req (baseUrl w)))).
    { cbn [map]. rewrite attempts_cons. reflexivity. }
    rewrite Htr.
    destruct (settle (net env c (req (baseUrl w)))) as [data|e] eqn:Es.
    + rewrite Ho, Ht. split; [done|]. split; [intros j base H; done|]. auto.
    + replace (i =? maxRetries) with true by (symmetry; apply Z.eqb_eq; lia).
      cbn [throw run_from outcome trace final]. rewrite Ht.
      split; [done|]. split; [intros j base H; done|]. auto.
  - destruct (settle (net env c (req (baseUrl w)))) as [data|e] eqn:Es.
    + exists [], (baseUrl w). rewrite app_nil_l. cbn [length].
      rewrite Nat.add_0_r, Ho, Ht, Es.
      split; [done|]. split; [lia|].
      split; [intros Pb _ Hw; by repeat constructor|].
      cbn [map]. rewrite attempts_cons.
      split; [done|]. split; [intros j base H; done|]. split; [done|]. eauto.
    + replace (i =? maxRetries) with false by (symmetry; apply Z.eqb_neq; lia).
      unfold Utils.delay, mbind, task_bind, bind, await.
      cbn [bindS run_from event_of reply]. rewrite Ht.
      set (w1 := final _).
      set (tr' := (tr ++ exchange _ _) ++ [EDelay delay]).
      set (w' := meanwhile env _ w1).
      assert (Hc' : network_calls tr' = S c).
      { unfold tr'. rewrite !network_calls_app, network_calls_exchange.
        change (network_calls [EDelay delay]) with O. unfold c. lia. }
      destruct (IH (i + 1) (delay * 2) e tr' w') as
        (bases & last & Hhead & Hlen & Hinv & Htrace & Hfail & Hout & Hend); [lia|].
      rewrite Hc' in Htrace, Hfail, Hout.
      exists (baseUrl w :: bases), last.
      split; [done|]. split; [cbn; lia|]. split.
      { intros Pb Henv Hw. cbn [app]. constructor; [done|].
        apply Hinv; [done|]. unfold w'. apply Henv.
        unfold w1. by apply request_baseUrl. }
      split.
      { rewrite Htrace. unfold tr'.
        change (map req ((baseUrl w :: bases) ++ [last]))
          with (req (baseUrl w) :: map req (bases ++ [last])).
        rewrite attempts_cons.
        rewrite backoff_schedule_cons.
        - rewrite <- !app_assoc. reflexivity.
        - intros H. apply (f_equal length) in H.
          rewrite attempts_length, length_map, length_app in H. cbn in H. lia. }
      split.
      { intros [|j] base Hj.
        - injection Hj as <-. rewrite Nat.add_0_r. eauto.
        - replace (c + S j)%nat with (S c + j)%nat by lia. by apply Hfail. }
      split.
      { cbn [length]. replace (c + S (length bases))%nat with (S c + length bases)%nat
          by lia. exact Hout. }
      destruct Hend as [<- | Hd]; [by left | by right].
Qed.

End Backoff.

Lemma network_calls_schedule env reqs : ∀ c delay,
  network_calls (backoff_schedule (attempts env c reqs) delay) = length reqs.
Proof.
  induction reqs as [|q reqs IH]; intros c delay; [reflexivity|].
  rewrite attempts_cons. destruct reqs as [|q' reqs].
  - cbn [attempts imap backoff_schedule length]. apply network_calls_exchange.
  - rewrite backoff_schedule_cons by (rewrite attempts_cons; discriminate).
    change (?a ++ EDelay delay :: ?b) with (a ++ [EDelay delay] ++ b).
    rewrite !network_calls_app, network_calls_exchange, IH. reflexivity.
Qed.

Lemma waits_schedule env reqs : ∀ c delay,
  waits (backoff_schedule (attempts env c reqs) delay)
  = backoff (length reqs - 1) delay.
Proof.
  induction reqs as [|q reqs IH]; intros c delay; [reflexivity|].
  rewrite attempts_cons. destruct reqs as [|q' reqs].
  - cbn [attempts imap backoff_schedule length]. apply waits_exchange.
  - rewrite backoff_schedule_cons by (rewrite attempts_cons; discriminate).
    change (?a ++ EDelay delay :: ?b) with (a ++ [EDelay delay] ++ b).
    rewrite !waits_app, waits_exchange, IH. cbn [length Nat.sub app].
    rewrite Nat.sub_0_r. reflexivity.
Qed.

(** C2. For every endpoint, payload, [maxRetries ≥ 0] and [baseDelay], the
    retry wrapper makes its attempts one after the other, each a [request]
    to the endpoint with the payload, at most [maxRetries + 1] of them; it
    stops at the first success; between two attempts, and nowhere else, it
    waits: [baseDelay] before the second attempt, and each further wait is
    twice the one before. Every attempt before the last
    failed, the outcome of the call is the outcome of the last attempt,
    and when every attempt fails the error thrown is the error of the last
    attempt, unchanged. With [maxRetries = 3] and [baseDelay = 100]
    against an endpoint that always fails the trace is: attempt, wait 100,
    attempt, wait 200, attempt, wait 400, attempt. The base URL of an
    attempt is the one of the moment; it is the one of the start when the
    other handlers leave it alone. *)
Theorem requestWithRetry_backoff env endpoint method payload maxRetries baseDelay w :
  0 ≤ maxRetries →
  let r := run env
             (APIService.requestWithRetry endpoint method payload maxRetries baseDelay) w in
  let n := Z.to_nat maxRetries in
  let req := request_to endpoint method payload in
  (∃ bases last,
     head (bases ++ [last]) = Some (baseUrl w)
     ∧ (length bases ≤ n)%nat
     ∧ ((∀ k v, baseUrl (meanwhile env k v) = baseUrl v) →
        Forall (λ base, base = baseUrl w) (bases ++ [last]))
     ∧ trace r = backoff_schedule (attempts env 0 (map req (bases ++ [last]))) baseDelay
     ∧ network_calls (trace r) = S (length bases)
     ∧ waits (trace r) = backoff (length bases) baseDelay
     ∧ (∀ j base, bases !! j = Some base → ∃ e, settle (net env j (req base)) = Throw e)
     ∧ outcome r = settle (net env (length bases) (req last))
     ∧ (length bases = n ∨ ∃ data, outcome r = Return data)
     ∧ (∀ j data,
          (j ≤ n)%nat → attempts_fail env endpoint method payload j →
          (∀ base, settle (net env j (req base)) = Return data) →
          outcome r = Return data ∧ length bases = j)
     ∧ (∀ e,
          attempts_fail env endpoint method payload n →
          (∀ base, settle (net env n (req base)) = Throw e) →
          outcome r = Throw e ∧ length bases = n))
  ∧ (maxRetries = 3 → baseDelay = 100 → attempts_fail env endpoint method payload 4 →
     ∃ b1 b2 b3,
       trace r
       = exchange (req (baseUrl w)) (net env 0%nat (req (baseUrl w)))
         ++ EDelay 100 :: exchange (req b1) (net env 1%nat (req b1))
         ++ EDelay 200 :: exchange (req b2) (net env 2%nat (req b2))
         ++ EDelay 400 :: exchange (req b3) (net env 3%nat (req b3))
       ∧ outcome r = settle (net env 3%nat (req b3))
       ∧ network_calls (trace r) = 4%nat
       ∧ waits (trace r) = [100; 200; 400]
       ∧ ((∀ k v, baseUrl (meanwhile env k v) = baseUrl v) →
          b1 = baseUrl w ∧ b2 = baseUrl w ∧ b3 = baseUrl w)).
Proof.
  intros Hmax r n req.
  assert (Hn : Z.to_nat (maxRetries + 1) = S n) by (unfold n; lia).
  assert (Hr : r = run_from env []
                     (APIService.retry_loop (S n) 0 maxRetries baseDelay ThrownUndefined
                        endpoint method payload w)).
  { unfold r, run, APIService.requestWithRetry. by rewrite Hn. }
  destruct (retry_loop_schedule env endpoint method payload maxRetries n 0 baseDelay
              ThrownUndefined [] w) as
    (bases & last & Hhead & Hlen & Hinv & Htrace & Hfail & Hout & Hend);
    [unfold n; lia|].
  rewrite <- Hr in Htrace, Hout, Hend.
  change (network_calls []) with O in Htrace, Hfail, Hout.
  rewrite app_nil_l in Htrace. cbn [Nat.add] in Hfail, Hout. fold req in Htrace, Hfail, Hout.
  assert (Hcalls : network_calls (trace r) = S (length bases)).
  { rewrite Htrace, network_calls_schedule, length_map, length_app. cbn. lia. }
  assert (Hwaits : waits (trace r) = backoff (length bases) baseDelay).
  { rewrite Htrace, waits_schedule, length_map, length_app. cbn [length].
    f_equal. lia. }
  assert (Hstable : (∀ k v, baseUrl (meanwhile env k v) = baseUrl v) →
                    Forall (λ base, base = baseUrl w) (bases ++ [last])).
  { intros Hs. apply Hinv; [|done]. intros k v Hv. by rewrite Hs. }
  assert (Hsucc : ∀ j data,
            (j ≤ n)%nat → attempts_fail env endpoint method payload j →
            (∀ base, settle (net env j (req base)) = Return data) →
            outcome r = Return data ∧ length bases = j).
  { intros j data Hj Hf Hok.
    assert (Hjl : length bases = j).
    { destruct (Nat.lt_trichotomy (length bases) j) as [Hlt | [Heq | Hgt]]; [|done|].
      - exfalso. destruct (Hf (length bases) last Hlt) as [e He].
        fold req in He. rewrite He in Hout.
        destruct Hend as [Hend | [d Hd]]; [lia|]. congruence.
      - exfalso. destruct (lookup_lt_is_Some_2 bases j Hgt) as [base Hb].
        destruct (Hfail j base Hb) as [e He]. rewrite Hok in He. discriminate. }
    split; [|done]. by rewrite Hout, Hjl, Hok. }
  assert (Hall : ∀ e,
            attempts_fail env endpoint method payload n →
            (∀ base, settle (net env n (req base)) = Throw e) →
            outcome r = Throw e ∧ length bases = n).
  { intros e Hf Hlast.
    assert (Hnl : length bases = n).
    { destruct Hend as [Hend | [d Hd]]; [done|].
      destruct (decide (length bases = n)) as [|Hne]; [done|]. exfalso.
      destruct (Hf (length bases) last) as [e' He']; [lia|].
      fold req in He'. congruence. }
    split; [|done]. by rewrite Hout, Hnl, Hlast. }
  split.
  - exists bases, last. auto 15.
  - intros Hm Hd Hf.
    assert (Hn3 : n = 3%nat) by (unfold n; rewrite Hm; reflexivity).
    assert (Hl3 : length bases = 3%nat).
    { destruct Hend as [Hend | [d Hd']]; [lia|]. exfalso.
      destruct (Hf (length bases) last) as [e' He']; [lia|].
      fold req in He'. congruence. }
    destruct bases as [|b0 [|b1 [|b2 [|b3 bases]]]]; try discriminate Hl3.
    injection Hhead as ->.
    exists b1, b2, last. rewrite Hcalls, Hwaits, Hout, Htrace, Hd.
    split; [reflexivity|]. split; [reflexivity|]. split; [reflexivity|].
    split; [reflexivity|].
    intros Hs. specialize (Hstable Hs).
    apply Forall_cons in Hstable as (_ & Hstable).
    apply Forall_cons in Hstable as (-> & Hstable).
    apply Forall_cons in Hstable as (-> & Hstable).
    apply Forall_cons in Hstable as (-> & _). done.
Qed.

Lemma requestWithRetry_backoff_witness :
  0 ≤ 3 ∧
  let r := run (endpoint_env always_down yes quiet)
             (APIService.requestWithRetry (js "/ping") APIService.GET NoPayload 3 100)
             sample_world in
  let ping := EFetch {| url := js "http://localhost:8005/ping"; method := APIService.GET;
                        payload := NoPayload |} in
  attempts_fail (endpoint_env always_down yes quiet) (js "/ping") APIService.GET
    NoPayload 4
  ∧ trace r = [ping; EDelay 100; ping; EDelay 200; ping; EDelay 400; ping]
  ∧ outcome r = Throw (TypeError (js "3")).
Proof.
  split; [lia|]. intros r ping.
  assert (Hf : attempts_fail (endpoint_env always_down yes quiet) (js "/ping")
                 APIService.GET NoPayload 4).
  { intros i base _. eexists. reflexivity. }
  split; [exact Hf|].
  destruct (requestWithRetry_backoff (endpoint_env always_down yes quiet) (js "/ping")
              APIService.GET NoPayload 3 100 sample_world) as (_ & H); [lia|].
  destruct (H eq_refl eq_refl Hf) as (b1 & b2 & b3 & Ht & Ho & _ & _ & Hs).
  destruct (Hs (λ _ _, eq_refl)) as (-> & -> & ->).
  split; [exact Ht | exact Ho].
Defined.


(** ** ChatBridge *)

Lemma transcript_extends_refl w : transcript_extends w w.
Proof. unfold transcript_extends. reflexivity. Qed.

Lemma transcript_extends_trans w1 w2 w3 :
  transcript_extends w1 w2 → transcript_extends w2 w3 → transcript_extends w1 w3.
Proof. unfold transcript_extends. intros H1 H2. by etrans. Qed.

(** [addChatMessage] appends one turn or does nothing. *)
Lemma addChatMessage_appends type text memoryMode w :
  transcript_extends w (ChatManager.addChatMessage type text memoryMode w).
Proof.
  unfold transcript_extends, ChatManager.addChatMessage.
  case_match; simpl; [reflexivity | by apply prefix_app_r].
Qed.

Lemma showMessage_transcript m k w :
  transcript_extends w (UIManager.showMessage m k w).
Proof. unfold transcript_extends. reflexivity. Qed.

Lemma memoryStatus_transcript m w :
  transcript_extends w (on_chat (set_chat_memoryStatus m) w).
Proof. unfold transcript_extends. reflexivity. Qed.

Lemma memory_request_status base id :
  memory_request
    (EFetch {| url := base ++ js "/api/v1/patents/qa/memory-status/" ++ id;
               method := APIService.GET; payload := NoPayload |}).
Proof. right. eauto. Qed.

Lemma memory_request_clear base id :
  memory_request
    (EFetch {| url := base ++ js "/api/v1/patents/qa/clear-memory";
               method := APIService.POST; payload := SessionPayload (Some id) |}).
Proof. left. eauto. Qed.

(** Discharges the side conditions on the relation and the events. *)
Ltac transcript_side :=
  try solve [ exact transcript_extends_refl
            | exact transcript_extends_trans
            | exact I
            | intros; apply showMessage_transcript
            | intros; apply memoryStatus_transcript
            | intros; apply addChatMessage_appends
            | intros; apply memory_request_status
            | intros; apply memory_request_clear ].

Ltac transcript_leaf :=
  first [ apply keeps_ret | apply keeps_throw | apply keeps_gets
        | apply keeps_act | apply keeps_await ]; transcript_side.

Lemma getMemoryStatus_keeps id :
  keeps transcript_extends memory_request (APIService.getMemoryStatus id).
Proof.
  unfold APIService.getMemoryStatus.
  apply keeps_try_catch; transcript_side.
  - apply keeps_request; transcript_side.
  - intros e. transcript_leaf.
Qed.

Lemma clearChatMemory_request_keeps id :
  keeps transcript_extends memory_request (APIService.clearChatMemory id).
Proof.
  unfold APIService.clearChatMemory.
  apply keeps_try_catch; transcript_side.
  - apply keeps_request; transcript_side.
  - intros e. transcript_leaf.
Qed.

Lemma updateMemoryStatus_keeps :
  keeps transcript_extends memory_request ChatManager.updateMemoryStatus.
Proof.
  unfold ChatManager.updateMemoryStatus.
  apply keeps_bind; transcript_side; [transcript_leaf|].
  intros [id|]; [|transcript_leaf].
  destruct (nonempty id); [|transcript_leaf].
  apply keeps_try_catch; transcript_side; [|intros e; transcript_leaf].
  apply keeps_bind; transcript_side; [apply getMemoryStatus_keeps|].
  intros response. destruct (success response); transcript_leaf.
Qed.

Lemma clearChatMemory_keeps :
  keeps transcript_extends memory_request ChatManager.clearChatMemory.
Proof.
  unfold ChatManager.clearChatMemory.
  apply keeps_bind; transcript_side; [transcript_leaf|].
  intros sessionId. destruct (is_set sessionId); cbn [negb]; [|transcript_leaf].
  apply keeps_bind; transcript_side.
  { unfold ChatManager.showConfirmDialog. transcript_leaf. }
  intros [|]; cbn [negb]; [|transcript_leaf].
  apply keeps_try_catch; transcript_side; [|intros e; transcript_leaf].
  apply keeps_bind; transcript_side; [transcript_leaf|].
  intros id. apply keeps_bind; transcript_side; [apply clearChatMemory_request_keeps|].
  intros response. destruct (success response); [|transcript_leaf].
  apply keeps_bind; transcript_side; [transcript_leaf|].
  intros _. apply keeps_bind; transcript_side; [apply updateMemoryStatus_keeps|].
  intros _. transcript_leaf.
Qed.

(** C9. Clearing the conversational memory sends the backend the request
    to clear its cache (and then reads the memory status): those are its
    only network calls. It removes no turn of the local transcript: every
    turn recorded before is still there afterwards, at the same place; the
    transcript only grows, as it does under [addChatMessage]. This holds
    among handlers that themselves only extend the transcript. *)
Theorem clearChatMemory_keeps_transcript env w :
  (∀ n v, transcript_extends v (meanwhile env n v)) →
  let r := run env ChatManager.clearChatMemory w in
  chat_chatHistory (chat w) `prefix_of` chat_chatHistory (chat (final r))
  ∧ (∀ i turn, chat_chatHistory (chat w) !! i = Some turn →
               chat_chatHistory (chat (final r)) !! i = Some turn)
  ∧ (∀ turn, turn ∈ chat_chatHistory (chat w) → turn ∈ chat_chatHistory (chat (final r)))
  ∧ Forall memory_request (trace r)
  ∧ (∀ type text memoryMode v,
       chat_chatHistory (chat v)
       `prefix_of` chat_chatHistory (chat (ChatManager.addChatMessage type text memoryMode v))).
Proof.
  intros Henv r.
  destruct (respects_run transcript_extends memory_request env w
              (ChatManager.clearChatMemory w) [] Henv (clearChatMemory_keeps w)
              (Forall_nil_2 _)) as (Hfinal & Htrace).
  fold (run env ChatManager.clearChatMemory w) in Hfinal, Htrace. fold r in Hfinal, Htrace.
  unfold transcript_extends in Hfinal.
  split; [exact Hfinal|]. split; [|split; [|split; [exact Htrace|]]].
  - intros i turn Hi. by eapply prefix_lookup_Some.
  - intros turn Hin. destruct Hfinal as [more ->]. apply elem_of_app. by left.
  - intros type text memoryMode v. apply addChatMessage_appends.
Qed.

Lemma clearChatMemory_keeps_transcript_witness :
  let r := run (alone agrees yes) ChatManager.clearChatMemory chatting_world in
  (∀ n v, transcript_extends v (meanwhile (alone agrees yes) n v))
  ∧ chat_chatHistory (chat (final r)) !! 0%nat = Some asked
  ∧ chat_chatHistory (chat (final r)) !! 1%nat = Some answered
  ∧ network_calls (trace r) = 2%nat.
Proof.
  intros r.
  assert (Henv : ∀ n v, transcript_extends v (meanwhile (alone agrees yes) n v))
    by (intros n v; apply transcript_extends_refl).
  destruct (clearChatMemory_keeps_transcript (alone agrees yes) chatting_world Henv)
    as (_ & Hkeep & _).
  split; [exact Henv|].
  split; [apply Hkeep; reflexivity|].
  split; [apply Hkeep; reflexivity|].
  vm_compute. reflexivity.
Defined.

(** ** ConditionBuilder *)

Lemma remove_first_absent c k rest :
  c ∉ k → remove_first c (k ++ c :: rest) = k ++ rest.
Proof.
  induction k as [|x k IH]; intros Hc; simpl.
  - by rewrite N.eqb_refl.
  - destruct (N.eqb_spec x c) as [->|Hne].
    + exfalso. apply Hc. by left.
    + f_equal. apply IH. intros H. apply Hc. by right.
Qed.

Lemma trimStart_app_blank k l :
  trimStart k = [] → trimStart (k ++ l) = trimStart l.
Proof.
  induction k as [|x k IH]; simpl; [done|].
  destruct (is_space x); [auto | discriminate].
Qed.

Lemma trimStart_app_text k l :
  trimStart k ≠ [] → trimStart (k ++ l) = trimStart k ++ l.
Proof.
  induction k as [|x k IH]; simpl; [done|].
  destruct (is_space x); auto.
Qed.

Lemma trimEnd_snoc_space k c : is_space c = true → trimEnd (k ++ [c]) = trimEnd k.
Proof.
  intros Hc. unfold trimEnd. rewrite rev_app_distr. simpl. by rewrite Hc.
Qed.

(** A trailing blank does not survive [trim]. *)
Lemma trim_snoc_space k c : is_space c = true → trim (k ++ [c]) = trim k.
Proof.
  intros Hc. unfold trim.
  destruct (trimStart k) as [|x t] eqn:E.
  - rewrite trimStart_app_blank by done. simpl. rewrite Hc. reflexivity.
  - rewrite trimStart_app_text by (rewrite E; discriminate).
    rewrite E. by apply trimEnd_snoc_space.
Qed.

(** What being plain gives. *)
Lemma plain_label k :
  plain k →
  label k = Some (entry_text k) ∧ keyword_text (entry_text k) = k
  ∧ markup_free k = true.
Proof.
  unfold plain, label. destruct (markup_free k); [|discriminate].
  cbn. intros [= H]. auto.
Qed.

(** Keywords free of markup, without a multiplication sign and without
    surrounding white space are plain. *)
Lemma plain_trimmed k : markup_free k = true → times ∉ k → trim k = k → plain k.
Proof.
  intros Hm Hx Ht. unfold plain, label. rewrite Hm. cbn. f_equal.
  unfold keyword_text, entry_text.
  change (k ++ [32%N; times]) with (k ++ [32%N] ++ times :: []).
  rewrite app_assoc, remove_first_absent.
  - rewrite app_nil_r, trim_snoc_space by reflexivity. exact Ht.
  - intros [H | H%list_elem_of_singleton]%elem_of_app; [done | discriminate].
Qed.

(** An assignment that stays within the model. *)
Lemma addKeyword_plain k zone :
  plain k → is_Some (SearchManager.addKeywordToDropZone k zone).
Proof.
  intros (Hl & _)%plain_label. unfold SearchManager.addKeywordToDropZone.
  cbn zeta. destruct (includes _ k); [eauto|]. rewrite Hl. cbn. eauto.
Qed.

(** What one assignment does to the keywords a row shows. *)
Lemma addKeyword_dropped k zone zone' :
  SearchManager.addKeywordToDropZone k zone = Some zone' →
  row_dropped zone'
  = if includes (row_keywords zone) k then row_dropped zone
    else row_dropped zone ++ [entry_text k].
Proof.
  unfold SearchManager.addKeywordToDropZone, row_keywords, label. cbn zeta.
  change (row_dropped (set_row_hint false zone)) with (row_dropped zone).
  destruct (includes _ k); [by intros [= <-]|].
  destruct (markup_free k); cbn; [by intros [= <-] | discriminate].
Qed.

Lemma addKeyword_selectors k zone zone' :
  SearchManager.addKeywordToDropZone k zone = Some zone' →
  row_field zone' = row_field zone
  ∧ row_logic zone' = row_logic zone
  ∧ row_conditionIndex zone' = row_conditionIndex zone
  ∧ row_hint zone' = false.
Proof.
  unfold SearchManager.addKeywordToDropZone, label. cbn zeta.
  destruct (includes _ k); [by intros [= <-]|].
  destruct (markup_free k); cbn; [by intros [= <-] | discriminate].
Qed.

Lemma tidy_keywords r ks :
  row_dropped r = map entry_text ks → Forall plain ks → row_keywords r = ks.
Proof.
  intros Hd Hp. unfold row_keywords. rewrite Hd. clear Hd.
  induction Hp as [|k ks Hk Hks IH]; simpl; [done|].
  destruct (plain_label k Hk) as (_ & -> & _). by rewrite IH.
Qed.

(** Assigning a plain keyword to a tidy row keeps it tidy and adds the
    keyword to what it shows, once. *)
Lemma addKeyword_tidy k zone zone' :
  plain k → tidy zone →
  SearchManager.addKeywordToDropZone k zone = Some zone' →
  tidy zone'
  ∧ (∀ x, x ∈ row_keywords zone' ↔ x = k ∨ x ∈ row_keywords zone).
Proof.
  intros Hk (ks & Hd & Hp & Hn) Hadd.
  pose proof (tidy_keywords zone ks Hd Hp) as Hks.
  destruct (plain_label k Hk) as (_ & Hkt & _).
  unfold tidy, row_keywords at 1. rewrite (addKeyword_dropped k zone zone' Hadd), Hks.
  unfold includes. case_bool_decide as Hin.
  - split; [by exists ks|]. intros x. fold (row_keywords zone). rewrite Hks.
    split; [auto | by intros [->|]].
  - split.
    + exists (ks ++ [k]). rewrite Hd, map_app. split; [done|]. split.
      * apply Forall_app. auto.
      * apply NoDup_app. split; [done|]. split; [|apply NoDup_singleton].
        intros x Hx ->%list_elem_of_singleton. done.
    + intros x. rewrite map_app. fold (row_keywords zone). rewrite Hks. simpl.
      rewrite Hkt, elem_of_app, list_elem_of_singleton. tauto.
Qed.

(** Assigning a plain keyword a second time changes nothing. *)
Lemma addKeyword_idempotent k zone zone' :
  plain k →
  SearchManager.addKeywordToDropZone k zone = Some zone' →
  SearchManager.addKeywordToDropZone k zone' = Some zone'.
Proof.
  intros Hk Hadd. destruct (plain_label k Hk) as (Hl & Hkt & _).
  assert (Hin : includes (map keyword_text (row_dropped (set_row_hint false zone'))) k
                = true).
  { change (row_dropped (set_row_hint false zone')) with (row_dropped zone').
    rewrite (addKeyword_dropped k zone zone' Hadd). unfold includes, row_keywords.
    apply bool_decide_eq_true. case_bool_decide as Hin; [done|].
    rewrite map_app, elem_of_app. right. simpl. rewrite Hkt. by left. }
  destruct (addKeyword_selectors k zone zone' Hadd) as (_ & _ & _ & Hhint).
  unfold SearchManager.addKeywordToDropZone. cbn zeta. rewrite Hin. f_equal.
  rewrite <- Hhint. by destruct zone'.
Qed.

(** Whatever plain keywords are assigned to a tidy row, in whatever order
    and however often, the row shows each of them exactly once. *)
Lemma assign_all terms : ∀ zone,
  Forall plain terms → tidy zone →
  ∃ zone',
    foldl (fun z term => z ≫= SearchManager.addKeywordToDropZone term) (Some zone) terms
    = Some zone'
    ∧ tidy zone'
    ∧ (∀ x, x ∈ row_keywords zone' ↔ x ∈ row_keywords zone ∨ x ∈ terms)
    ∧ row_field zone' = row_field zone
    ∧ row_logic zone' = row_logic zone.
Proof.
  induction terms as [|k terms IH]; intros zone Hp Ht; simpl.
  - exists zone. split; [done|]. split; [done|]. split; [|done].
    intros x. rewrite elem_of_nil. tauto.
  - apply Forall_cons in Hp as (Hk & Hp).
    destruct (addKeyword_plain k zone Hk) as [zone1 Hadd]. rewrite Hadd.
    destruct (addKeyword_tidy k zone zone1 Hk Ht Hadd) as (Ht' & Hin').
    destruct (IH _ Hp Ht') as (zone' & Hfold & Htidy & Hin & Hf & Hl).
    destruct (addKeyword_selectors k zone zone1 Hadd) as (Hf' & Hl' & _).
    exists zone'. split; [done|]. split; [done|]. split; [|by rewrite Hf, Hl].
    intros x. rewrite Hin, Hin', elem_of_cons. tauto.
Qed.

Lemma tidy_NoDup r : tidy r → NoDup (row_keywords r).
Proof. intros (ks & Hd & Hp & Hn). by rewrite (tidy_keywords r ks Hd Hp). Qed.

Lemma assigned_once ks zone k :
  Forall plain ks → tidy zone → k ∈ ks →
  ∃ zone',
    foldl (fun z term => z ≫= SearchManager.addKeywordToDropZone term) (Some zone) ks
    = Some zone'
    ∧ count_occ (λ x y : jsstr, decide (x = y)) (row_keywords zone') k = 1%nat.
Proof.
  intros Hp Ht Hk.
  destruct (assign_all ks zone Hp Ht) as (zone' & Hfold & Htidy & Hin & _).
  exists zone'. split; [done|].
  apply NoDup_count_occ'; [by apply NoDup_ListNoDup, tidy_NoDup|].
  apply list_elem_of_In, Hin. by right.
Qed.

(** C4 fails on the code: a keyword with a leading blank is written to the
    row as it is, but the check for an existing entry compares it with the
    trimmed text of the entries, so each repeated assignment adds another
    entry. *)
Lemma assign_twice_duplicates :
  let k := js " wafer" in
  ∃ w1 w2,
    SearchManager.handleDrop 0 k sample_world = Some w1
    ∧ SearchManager.handleDrop 0 k w1 = Some w2
    ∧ (row_dropped <$> rows (page w2) !! 0%nat) = Some [entry_text k; entry_text k]
    ∧ (row_keywords <$> rows (page w2) !! 0%nat) = Some [js "wafer"; js "wafer"]
    ∧ w2 ≠ w1.
Proof.
  intros k. eexists _, _. split; [reflexivity|]. split; [reflexivity|].
  vm_compute. repeat split; auto. discriminate.
Qed.

Lemma index_of_found v l :
  v ∈ l → ∃ i, index_of v l = Some i ∧ l !! i = Some v.
Proof.
  induction l as [|x l IH]; [by intros ?%elem_of_nil|].
  intros Hin. simpl. unfold str_eqb. case_bool_decide as Hx.
  - exists O. by subst.
  - apply elem_of_cons in Hin as [->|Hin]; [done|].
    destruct (IH Hin) as (i & -> & Hi). by exists (S i).
Qed.

(** Setting the value of a selector to one of its options selects it. *)
Lemma select_set_value_value v s :
  v ∈ options s → select_value (select_set_value v s) = v.
Proof.
  intros Hin. unfold select_value, select_set_value. simpl.
  destruct (index_of_found v (options s) Hin) as (i & -> & ->). reflexivity.
Qed.

(** What the loop body of [autoGenerateConditions] leaves in a row that
    was empty. *)
Lemma fill_row terms groupIndex len row0 :
  Forall plain terms →
  row_dropped row0 = [] →
  js "AB" ∈ options (row_field row0) →
  js "AND" ∈ options (row_logic row0) →
  ∃ row,
    SearchManager.fill terms groupIndex len row0 = Some row
    ∧ (∀ k, k ∈ row_keywords row ↔ k ∈ terms)
    ∧ NoDup (row_keywords row)
    ∧ select_value (row_field row) = js "AB"
    ∧ ((groupIndex < len - 1)%nat → select_value (row_logic row) = js "AND").
Proof.
  intros Hp Hempty Hab Hand.
  assert (Ht0 : tidy row0) by (exists []; rewrite Hempty; repeat split; constructor).
  destruct (assign_all terms row0 Hp Ht0) as (filled & Hfold & Htidy & Hin & Hf & Hl).
  assert (Hk0 : row_keywords row0 = []) by (unfold row_keywords; by rewrite Hempty).
  unfold SearchManager.fill. rewrite Hfold. cbn [mbind option_bind].
  eexists. split; [reflexivity|].
  assert (Hkw : ∀ b : bool,
            row_keywords
              (if b
               then set_row_logic (select_set_value (js "AND")
                                     (row_logic (set_row_field
                                                   (select_set_value (js "AB")
                                                      (row_field filled)) filled)))
                      (set_row_field (select_set_value (js "AB") (row_field filled))
                         filled)
               else set_row_field (select_set_value (js "AB") (row_field filled)) filled)
            = row_keywords filled) by (by intros []).
  rewrite Hkw. split; [|split; [by apply tidy_NoDup|split]].
  - intros k. rewrite Hin, Hk0, elem_of_nil. tauto.
  - destruct (_ <? _)%nat; simpl; apply select_set_value_value; by rewrite Hf.
  - intros Hlt. apply Nat.ltb_lt in Hlt. rewrite Hlt. simpl.
    apply select_set_value_value. by rewrite Hl.
Qed.

Lemma created_row_offers i :
  row_dropped (SearchManager.createConditionRow i) = []
  ∧ js "AB" ∈ options (row_field (SearchManager.createConditionRow i))
  ∧ js "AND" ∈ options (row_logic (SearchManager.createConditionRow i)).
Proof.
  split; [reflexivity|]. split; simpl.
  - right. left.
  - left.
Qed.

(** Past group 0, every group with a term, all its terms plain, appends
    one new row. *)
Lemma generate_groups_append len : ∀ groups i rs,
  (0 < i)%nat →
  Forall (λ g, SearchManager.allTerms g ≠ []
               ∧ Forall plain (SearchManager.allTerms g)) groups →
  ∃ new,
    SearchManager.generate_groups len i groups rs = Some (rs ++ new)
    ∧ length new = length groups
    ∧ ∀ j g, groups !! j = Some g →
        ∃ row, new !! j = Some row
               ∧ SearchManager.fill (SearchManager.allTerms g) (i + j) len
                   (SearchManager.createConditionRow (i + j)) = Some row.
Proof.
  induction groups as [|g gs IH]; intros i rs Hi Hall; simpl.
  - exists []. rewrite app_nil_r. split; [done|]. split; [done|]. intros j g H. done.
  - apply Forall_cons in Hall as ((Hg & Hp) & Hall).
    destruct (created_row_offers i) as (Hd & Ha & Hb).
    destruct (fill_row (SearchManager.allTerms g) i len
                (SearchManager.createConditionRow i) Hp Hd Ha Hb) as (row & Hfill & _).
    unfold SearchManager.generate_group.
    destruct (SearchManager.allTerms g) as [|t ts] eqn:Et; [done|].
    destruct i as [|i]; [lia|]. rewrite Hfill. cbn [mbind option_bind].
    destruct (IH (S (S i)) (rs ++ [row])) as (new & Hgen & Hlen & Hrows); [lia | done |].
    exists (row :: new). rewrite Hgen, <- app_assoc. split; [done|].
    split; [cbn; by rewrite Hlen|].
    intros [|j] g' Hj.
    + injection Hj as <-. exists row. rewrite Nat.add_0_r, Et. done.
    + destruct (Hrows j g' Hj) as (row' & Hr & Hf). exists row'.
      split; [done|]. by replace (S i + S j)%nat with (S (S i) + j)%nat by lia.
Qed.

(** [clearAllConditions] leaves the first row alone in the list, empty. *)
Lemma clearAllConditions_run w r rest :
  rows (page w) = r :: rest →
  ∃ w1 first,
    SearchManager.clearAllConditions w = Done (Return tt) w1
    ∧ rows (page w1) = [first]
    ∧ row_dropped first = []
    ∧ options (row_field first) = options (row_field r)
    ∧ options (row_logic first) = options (row_logic r)
    ∧ search w1 = search w.
Proof.
  intros Hrows. unfold SearchManager.clearAllConditions.
  rewrite bind_act, bind_gets. cbn [on_page page rows set_rows]. rewrite Hrows.
  cbn [map]. rewrite !bind_act. unfold act.
  eexists _, _. split; [reflexivity|]. simpl. auto.
Qed.

Lemma sample_first_row_offers g : first_row_offers (with_groups g sample_world).
Proof.
  exists (SearchManager.createConditionRow 0), [].
  split; [reflexivity|]. apply created_row_offers.
Qed.

(** C3 (as stated) does not hold: a keyword group that has neither a
    keyword nor a synonym gets no row, so the rows are fewer than the
    groups. *)
Lemma autoGenerate_skips_group_without_terms :
  ¬ (∀ env w,
       first_row_offers w →
       sm_generatedKeywords (search w) ≠ [] →
       length (rows (page (final (run env SearchManager.autoGenerateConditions w))))
       = length (sm_generatedKeywords (search w))).
Proof.
  intros H.
  specialize (H (endpoint_env always_down yes quiet)
                (with_groups groups_with_gap sample_world)
                (sample_first_row_offers groups_with_gap)).
  vm_compute in H. specialize (H ltac:(discriminate)). discriminate H.
Qed.

(** The rows [autoGenerateConditions] builds for groups that all have a
    term, all terms plain. *)
Lemma generated_rows len g gs first :
  Forall (λ g, SearchManager.allTerms g ≠ []
               ∧ Forall plain (SearchManager.allTerms g)) (g :: gs) →
  row_dropped first = [] →
  js "AB" ∈ options (row_field first) →
  js "AND" ∈ options (row_logic first) →
  ∃ rs,
    SearchManager.generate_groups len 0 (g :: gs) [first] = Some rs
    ∧ length rs = S (length gs)
    ∧ ∀ i g', (g :: gs) !! i = Some g' →
        ∃ row, rs !! i = Some row
               ∧ (∀ k, k ∈ row_keywords row ↔ k ∈ SearchManager.allTerms g')
               ∧ NoDup (row_keywords row)
               ∧ select_value (row_field row) = js "AB"
               ∧ ((i < len - 1)%nat → select_value (row_logic row) = js "AND").
Proof.
  intros ((Hg & Hp) & Hgs)%Forall_cons Hd Ha Hb. simpl.
  destruct (fill_row (SearchManager.allTerms g) 0 len first Hp Hd Ha Hb)
    as (row0 & Hfill & Hrow0).
  unfold SearchManager.generate_group.
  destruct (SearchManager.allTerms g) as [|t ts] eqn:Et; [done|].
  rewrite Hfill. cbn [mbind option_bind].
  destruct (generate_groups_append len gs 1 [row0]) as (new & Hgen & Hlen & Hrows);
    [lia | done |].
  exists (row0 :: new). split; [exact Hgen|]. split; [cbn; by rewrite Hlen|].
  intros [|j] g' Hi.
  - injection Hi as <-. exists row0. rewrite Et. split; [done | exact Hrow0].
  - destruct (Hrows j g' Hi) as (row & Hr & Hf). exists row. split; [done|].
    pose proof (proj1 (Forall_lookup _ _) Hgs j g' Hi) as (_ & Hplain).
    destruct (created_row_offers (S j)) as (Hd' & Ha' & Hb').
    destruct (fill_row (SearchManager.allTerms g') (S j) len
                (SearchManager.createConditionRow (S j)) Hplain Hd' Ha' Hb')
      as (row' & Hfill' & Hrow').
    cbn [Nat.add] in Hf. rewrite Hf in Hfill'. injection Hfill' as <-. exact Hrow'.
Qed.

(** C3 (amended). On a page whose first row offers "AB" and "AND",
    [autoGenerateConditions] causes no network call and does not throw.
    With no keyword group it reports the error and leaves one empty row.
    With keyword groups that each have at least one term (a keyword or a
    synonym), all terms being plain (free of the characters that
    [innerHTML] takes for markup, without surrounding white space and
    without a multiplication sign), it leaves exactly one row per group, in
    order; the row of a group shows exactly the terms of that group,
    whatever the rows held before, each once, has the field "AB" and,
    unless it is the last row, the logic "AND". The iteration of a group
    without any term leaves the rows as they are. For the two groups
    wafer (synonym wafer chip) and probe this gives two rows, both "AB",
    the first "AND", and [collectSearchConditions] returns both with
    their keywords. *)
Theorem autoGenerate_one_row_per_group env w :
  first_row_offers w →
  let groups := sm_generatedKeywords (search w) in
  let r := run env SearchManager.autoGenerateConditions w in
  trace r = []
  ∧ (∃ done, outcome r = Return done)
  ∧ (groups = [] →
     outcome r = Return (Some tt)
     ∧ last_message (final r) = Some (MsgError, js "沒有可用的關鍵字組合")
     ∧ ∃ row, rows (page (final r)) = [row] ∧ row_dropped row = [])
  ∧ (Forall (λ g, SearchManager.allTerms g ≠ []
                  ∧ Forall plain (SearchManager.allTerms g)) groups →
     groups ≠ [] →
     outcome r = Return (Some tt)
     ∧ length (rows (page (final r))) = length groups
     ∧ ∀ i g, groups !! i = Some g →
         ∃ row, rows (page (final r)) !! i = Some row
                ∧ (∀ k, k ∈ row_keywords row ↔ k ∈ SearchManager.allTerms g)
                ∧ NoDup (row_keywords row)
                ∧ select_value (row_field row) = js "AB"
                ∧ ((i < length groups - 1)%nat →
                   select_value (row_logic row) = js "AND"))
  ∧ (∀ len rs i g,
       SearchManager.allTerms g = [] →
       SearchManager.generate_group len rs i g = Some rs)
  ∧ (let x := run env SearchManager.autoGenerateConditions
                (with_groups two_groups sample_world) in
     outcome x = Return (Some tt)
     ∧ map (λ row, (row_keywords row, select_value (row_field row),
                    select_value (row_logic row))) (rows (page (final x)))
       = [ ([js "wafer"; js "wafer chip"], js "AB", js "AND");
           ([js "probe"], js "AB", js "AND") ]
     ∧ SearchManager.collectSearchConditions (final x)
       = [ {| keywords := [js "wafer"; js "wafer chip"]; field := js "AB";
              logic := js "AND"; condition_index := 0 |};
           {| keywords := [js "probe"]; field := js "AB";
              logic := js "AND"; condition_index := 1 |} ]).
Proof.
  intros (r0 & rest & Hrows & Hab & Hand) groups r.
  destruct (clearAllConditions_run w r0 rest Hrows)
    as (w1 & first & Hclear & Hrows1 & Hdrop & Hof & Hol & Hsearch).
  rewrite <- Hof in Hab. rewrite <- Hol in Hand.
  assert (Hrun : ∃ done w2,
             SearchManager.autoGenerateConditions w = Done (Return done) w2
             ∧ (groups = [] →
                done = Some tt
                ∧ w2 = UIManager.showError (js "沒有可用的關鍵字組合") w1)
             ∧ (∀ rs, groups ≠ [] →
                  SearchManager.generate_groups (length groups) 0 groups [first]
                  = Some rs →
                  done = Some tt ∧ rows (page w2) = rs)).
  { unfold SearchManager.autoGenerateConditions.
    rewrite (bind_done _ _ _ _ _ Hclear), bind_gets, Hsearch. fold groups.
    destruct groups as [|g gs].
    - rewrite bind_act. eexists _, _. split; [reflexivity|]. split; [done|].
      intros rs H. by destruct H.
    - rewrite bind_gets, Hrows1.
      destruct (SearchManager.generate_groups _ 0 (g :: gs) [first]) as [rs|].
      + rewrite !bind_act. eexists _, _. split; [reflexivity|].
        split; [discriminate|]. intros rs' _ [= <-]. done.
      + eexists _, _. split; [reflexivity|]. split; [discriminate|].
        intros rs' _ H. discriminate H. }
  destruct Hrun as (done & w2 & Hrun & Hnone & Hsome).
  unfold r. rewrite (run_done env _ w _ _ Hrun). cbn [outcome final trace].
  split; [reflexivity|]. split; [eauto|]. split; [|split; [|split]].
  - intros Hg. destruct (Hnone Hg) as (-> & ->).
    rewrite last_message_showError. split; [reflexivity|]. split; [reflexivity|].
    exists first. simpl. auto.
  - intros Hall Hne. destruct groups as [|g gs] eqn:Eg; [done|].
    destruct (generated_rows (length (g :: gs)) g gs first Hall Hdrop Hab Hand)
      as (rs & Hgen & Hlen & Hshow).
    destruct (Hsome rs Hne Hgen) as (-> & ->).
    split; [reflexivity|]. split; [exact Hlen | exact Hshow].
  - intros len rs i g Hg. unfold SearchManager.generate_group. by rewrite Hg.
  - vm_compute. auto.
Qed.

Lemma autoGenerate_one_row_per_group_witness :
  let w := with_groups two_groups sample_world in
  let r := run (endpoint_env always_down yes quiet) SearchManager.autoGenerateConditions w in
  first_row_offers w
  ∧ Forall (λ g, SearchManager.allTerms g ≠ []
                 ∧ Forall plain (SearchManager.allTerms g)) two_groups
  ∧ two_groups ≠ []
  ∧ outcome r = Return (Some tt)
  ∧ length (rows (page (final r))) = 2%nat.
Proof.
  intros w r.
  assert (Hall : Forall (λ g, SearchManager.allTerms g ≠ []
                              ∧ Forall plain (SearchManager.allTerms g)) two_groups).
  { repeat constructor; try discriminate; vm_compute; reflexivity. }
  assert (Hne : two_groups ≠ []) by discriminate.
  destruct (autoGenerate_one_row_per_group (endpoint_env always_down yes quiet) w
              (sample_first_row_offers two_groups)) as (_ & _ & _ & H & _).
  destruct (H Hall Hne) as (Ho & Hlen & _).
  repeat split; auto. apply sample_first_row_offers.
Defined.

(** ** Further properties of the code *)

Lemma trimStart_idem s : trimStart (trimStart s) = trimStart s.
Proof.
  induction s as [|c s IH]; simpl; [done|].
  destruct (is_space c) eqn:E; [done|]. simpl. by rewrite E.
Qed.

Lemma trimEnd_idem s : trimEnd (trimEnd s) = trimEnd s.
Proof. unfold trimEnd. by rewrite rev_involutive, trimStart_idem. Qed.

Lemma trimEnd_cons c t :
  trimEnd (c :: t) = match trimEnd t with
                     | [] => if is_space c then [] else [c]
                     | r => c :: r
                     end.
Proof.
  unfold trimEnd. simpl.
  destruct (trimStart (rev t)) as [|x u] eqn:E.
  - rewrite trimStart_app_blank by done. simpl. by destruct (is_space c).
  - rewrite trimStart_app_text by (rewrite E; discriminate).
    rewrite E, rev_app_distr. simpl.
    destruct (rev u ++ [x]) eqn:E2; [by destruct (rev u)|]. done.
Qed.

Lemma trimStart_head c t : is_space c = false → trimStart (trimEnd (c :: t)) = trimEnd (c :: t).
Proof.
  intros Hc. rewrite trimEnd_cons. destruct (trimEnd t); rewrite ?Hc; simpl; by rewrite Hc.
Qed.

Lemma trim_idem s : trim (trim s) = trim s.
Proof.
  unfold trim.
  assert (H : trimStart (trimEnd (trimStart s)) = trimEnd (trimStart s)).
  { destruct (trimStart s) as [|c t] eqn:E; [done|].
    apply trimStart_head.
    clear -E. induction s as [|x s IH]; simpl in E; [done|].
    destruct (is_space x) eqn:Ex; [auto|]. by injection E as <- _. }
  by rewrite H, trimEnd_idem.
Qed.

Lemma keyword_text_trimmed child : trim (keyword_text child) = keyword_text child.
Proof. unfold keyword_text. apply trim_idem. Qed.








(** What [clearAllConditions] does, row or no row. *)
Lemma clearAllConditions_cases w :
  (rows (page w) = []
   ∧ ∃ m, SearchManager.clearAllConditions w = Done (Throw (TypeError m)) w)
  ∨ (∃ r rest first w1,
       rows (page w) = r :: rest
       ∧ SearchManager.clearAllConditions w = Done (Return tt) w1
       ∧ rows (page w1) = [first]
       ∧ row_dropped first = [] ∧ row_hint first = true
       ∧ search w1 = search w ∧ app w1 = app w ∧ chat w1 = chat w ∧ excel w1 = excel w
       ∧ baseUrl w1 = baseUrl w ∧ clock w1 = clock w
       ∧ elems (page w1) = elems (page w) ∧ values (page w1) = values (page w)
       ∧ messages (page w1) = messages (page w) ++ [(MsgSuccess, js "已清除所有搜索條件")]).
Proof.
  unfold SearchManager.clearAllConditions.
  rewrite bind_act, bind_gets. cbn [on_page page rows set_rows].
  destruct (rows (page w)) as [|r rest] eqn:E.
  - left. split; [done|]. eexists. cbn [map]. unfold throw. f_equal.
    destruct w as [b a s c x p k]; destruct p; simpl in *; by subst.
  - right. cbn [map]. rewrite !bind_act. unfold act.
    eexists _, _, _, _. split; [reflexivity|]. split; [reflexivity|]. simpl. auto 20.
Qed.





Lemma collect_row_spec i row c :
  c ∈ SearchManager.collect_row i row →
  condition_index c = i
  ∧ keywords c = filter (λ kw, nonempty kw) (row_keywords row)
  ∧ keywords c ≠ []
  ∧ field c = select_value (row_field row)
  ∧ logic c = select_value (row_logic row).
Proof.
  unfold SearchManager.collect_row, row_keywords.
  destruct (row_dropped row) as [|k ks]; [by intros ?%elem_of_nil|].
  destruct (filter _ _) as [|k' ks'] eqn:E; [by intros ?%elem_of_nil|].
  intros ->%list_elem_of_singleton. simpl. auto.
Qed.

Lemma collect_row_length i row : (length (SearchManager.collect_row i row) ≤ 1)%nat.
Proof.
  unfold SearchManager.collect_row.
  destruct (row_dropped row); [simpl; lia|]. destruct (filter _ _); simpl; lia.
Qed.

Lemma nonempty_spec (s : jsstr) : nonempty s = true ↔ s ≠ [].
Proof.
  unfold nonempty, str_eqb. rewrite negb_true_iff, bool_decide_eq_false. done.
Qed.

Lemma row_keyword_trimmed row k : k ∈ row_keywords row → trim k = k.
Proof.
  unfold row_keywords. intros (child & -> & _)%list_elem_of_fmap.
  apply keyword_text_trimmed.
Qed.

(** Conditions collected from the rows [n], [n+1], ...: in order of row. *)
Lemma collect_from_sorted rs : ∀ n,
  let cs := concat (imap (λ i, SearchManager.collect_row (n + i)) rs) in
  Forall (λ c, (n ≤ condition_index c < n + length rs)%nat) cs
  ∧ (∀ i j ci cj, cs !! i = Some ci → cs !! j = Some cj → (i < j)%nat →
       (condition_index ci < condition_index cj)%nat).
Proof.
  induction rs as [|r rs IH]; intros n; simpl.
  - split; [constructor | done].
  - destruct (IH (S n)) as (Hb & Hs).
    assert (Heq : imap ((λ i, SearchManager.collect_row (n + i)) ∘ S) rs
                  = imap (λ i, SearchManager.collect_row (S n + i)) rs).
    { apply imap_ext. intros i x _. simpl. f_equal. lia. }
    rewrite Heq. rewrite Nat.add_0_r.
    pose proof (collect_row_length n r) as Hlen.
    destruct (SearchManager.collect_row n r) as [|c [|c' l]] eqn:E; simpl in Hlen; [| |lia].
    + simpl. split; [|done]. eapply Forall_impl; [exact Hb|]. simpl. intros; lia.
    + assert (Hc : condition_index c = n).
      { eapply (collect_row_spec n r). rewrite E. by left. }
      simpl. split.
      * constructor; [lia|]. eapply Forall_impl; [exact Hb|]. simpl. intros; lia.
      * intros i j ci cj Hi Hj Hij.
        destruct i as [|i], j as [|j]; try lia; simpl in *.
        -- injection Hi as <-.
           pose proof (proj1 (Forall_forall _ _) Hb cj (list_elem_of_lookup_2 _ _ _ Hj)).
           simpl in *. lia.
        -- eapply Hs; eauto. lia.
Qed.

Lemma collect_elem w c :
  c ∈ SearchManager.collectSearchConditions w →
  ∃ row, rows (page w) !! condition_index c = Some row
         ∧ c ∈ SearchManager.collect_row (condition_index c) row.
Proof.
  unfold SearchManager.collectSearchConditions.
  intros (l & Hl & Hc)%list_elem_of_In%in_concat.
  apply list_elem_of_In in Hl, Hc.
  apply elem_of_lookup_imap in Hl as (i & row & -> & Hrow).
  destruct (collect_row_spec i row c Hc) as (-> & _). eauto.
Qed.

Lemma collect_intro w i row c :
  rows (page w) !! i = Some row → c ∈ SearchManager.collect_row i row →
  c ∈ SearchManager.collectSearchConditions w.
Proof.
  intros Hrow Hc. unfold SearchManager.collectSearchConditions.
  apply list_elem_of_In, in_concat. exists (SearchManager.collect_row i row).
  split; apply list_elem_of_In; [|done].
  apply elem_of_lookup_imap. eauto.
Qed.

Lemma collect_conditions_sound w c :
  c ∈ SearchManager.collectSearchConditions w →
  keywords c ≠ []
  ∧ Forall (λ k, k ≠ [] ∧ trim k = k) (keywords c)
  ∧ ∃ row, rows (page w) !! condition_index c = Some row
           ∧ (∀ k, k ∈ keywords c ↔ k ≠ [] ∧ k ∈ row_keywords row)
           ∧ field c = select_value (row_field row)
           ∧ logic c = select_value (row_logic row).
Proof.
  intros Hc. destruct (collect_elem w c Hc) as (row & Hrow & Hin).
  destruct (collect_row_spec _ row c Hin) as (_ & Hk & Hne & Hf & Hl).
  assert (Hiff : ∀ k, k ∈ keywords c ↔ k ≠ [] ∧ k ∈ row_keywords row).
  { intros k. rewrite Hk, list_elem_of_filter.
    rewrite <- nonempty_spec. split; intros [? ?]; split; auto; by apply Is_true_true. }
  split; [done|]. split; [|eauto 10].
  apply Forall_forall. intros k [Hk1 Hk2]%Hiff. split; [done|].
  by eapply row_keyword_trimmed.
Qed.

Lemma collect_conditions_complete w i row k :
  rows (page w) !! i = Some row → k ∈ row_keywords row → k ≠ [] →
  ∃ c, c ∈ SearchManager.collectSearchConditions w
       ∧ condition_index c = i ∧ k ∈ keywords c.
Proof.
  intros Hrow Hk Hne.
  assert (Hf : k ∈ filter (λ kw, nonempty kw) (row_keywords row)).
  { apply list_elem_of_filter. split; [|done]. by apply Is_true_true, nonempty_spec. }
  assert (Hc : ∃ c, c ∈ SearchManager.collect_row i row ∧ k ∈ keywords c).
  { unfold SearchManager.collect_row. unfold row_keywords in Hf.
    destruct (row_dropped row) as [|d ds]; [by apply elem_of_nil in Hf|].
    destruct (filter _ _) as [|k' ks'] eqn:E; [by apply elem_of_nil in Hf|].
    eexists. split; [by left|]. simpl. done. }
  destruct Hc as (c & Hc & Hkc). exists c.
  split; [by eapply collect_intro|]. split; [|done].
  by destruct (collect_row_spec i row c Hc).
Qed.

(** X3. [collectSearchConditions] returns one condition for each row that
    shows a non-empty keyword, in the order of the rows: its index is the
    position of the row, its keywords are the non-empty keywords the row
    shows (each free of surrounding white space), its field and logic are
    the values of the selectors of the row. No condition is empty, and no
    non-empty keyword of a row is left out. *)
Theorem collected_conditions_wellformed w :
  let cs := SearchManager.collectSearchConditions w in
  (∀ c, c ∈ cs →
     keywords c ≠ []
     ∧ Forall (λ k, k ≠ [] ∧ trim k = k) (keywords c)
     ∧ ∃ row, rows (page w) !! condition_index c = Some row
              ∧ (∀ k, k ∈ keywords c ↔ k ≠ [] ∧ k ∈ row_keywords row)
              ∧ field c = select_value (row_field row)
              ∧ logic c = select_value (row_logic row))
  ∧ (∀ i j ci cj, cs !! i = Some ci → cs !! j = Some cj → (i < j)%nat →
       (condition_index ci < condition_index cj)%nat)
  ∧ (∀ i row k, rows (page w) !! i = Some row → k ∈ row_keywords row → k ≠ [] →
       ∃ c, c ∈ cs ∧ condition_index c = i ∧ k ∈ keywords c).
Proof.
  intros cs. split; [|split].
  - intros c Hc. by apply collect_conditions_sound.
  - intros i j ci cj Hi Hj Hij.
    destruct (collect_from_sorted (rows (page w)) 0) as (_ & Hs).
    simpl in Hs. eapply Hs; eauto.
  - intros i row k. apply collect_conditions_complete.
Qed.

(** X4. [addConditionRow] appends one empty row, numbered with the number of
    rows there were, leaves the other rows as they are, and changes neither
    the conditions collected nor the keywords a search would send. *)
Theorem addConditionRow_keeps_conditions w :
  let w' := SearchManager.addConditionRow w in
  length (rows (page w')) = S (length (rows (page w)))
  ∧ (∀ i row, rows (page w) !! i = Some row → rows (page w') !! i = Some row)
  ∧ (row_conditionIndex <$> last (rows (page w'))) = Some (length (rows (page w)))
  ∧ SearchManager.collectSearchConditions w' = SearchManager.collectSearchConditions w
  ∧ selected_keywords w' = selected_keywords w.
Proof.
  intros w'.
  assert (Hc : SearchManager.collectSearchConditions w'
               = SearchManager.collectSearchConditions w).
  { unfold SearchManager.collectSearchConditions, w', SearchManager.addConditionRow.
    simpl. rewrite imap_app, concat_app. simpl. by rewrite app_nil_r. }
  unfold w', SearchManager.addConditionRow in *. simpl.
  split; [rewrite length_app; simpl; lia|]. split; [|split; [|split; [exact Hc|]]].
  - intros i row Hi. by apply lookup_app_l_Some.
  - by rewrite last_snoc.
  - unfold selected_keywords. by rewrite Hc.
Qed.

Lemma manualSearch_try_run env tr data w :
  let req := {| url := baseUrl w ++ js "/api/v1/patents/search/tech-description-confirmed";
                method := APIService.POST; payload := ConfirmPayload data |} in
  let o := net env (network_calls tr) req in
  let r := run_from env tr (SearchManager.manualSearch_try data w) in
  outcome r = checked (js "檢索失敗") (settle o)
  ∧ trace r = tr ++ exchange req o
  ∧ (undisturbed env →
     final r = match checked (js "檢索失敗") (settle o) with
               | Return body => on_search (set_sm_tech (Some (tech_results body))) w
               | Throw _ => w
               end).
Proof.
  intros req o r. unfold r, SearchManager.manualSearch_try, try_catch.
  rewrite run_from_rethrow. unfold mbind, task_bind, bind.
  rewrite run_from_bind.
  unfold APIService.confirmKeywordsAndSearch, try_catch. rewrite run_from_rethrow.
  destruct (request_exchange env tr (js "/api/v1/patents/search/tech-description-confirmed")
              APIService.POST (ConfirmPayload data) w) as (Ho & Ht & Hf).
  unfold request_to in Ho, Ht. fold req o in Ho, Ht. rewrite Ho.
  destruct (settle o) as [body|e]; cbn [checked].
  - destruct (success body); unfold act, ret, throw;
      cbn [bindS run_from outcome trace final]; rewrite Ht;
      (split; [done|]); (split; [done|]); intros H; by rewrite (Hf H).
  - cbn [outcome trace final]. rewrite Ht. split; [done|]. split; [done|]. exact Hf.
Qed.

Lemma set_of_elem l : ∀ seen x, x ∈ set_of seen l ↔ x ∈ l ∧ x ∉ seen.
Proof.
  induction l as [|y l IH]; intros seen x; simpl.
  - rewrite elem_of_nil. tauto.
  - unfold includes. case_bool_decide as Hy.
    + rewrite IH, elem_of_cons. split; [tauto|]. intros [[->|?] ?]; tauto.
    + rewrite elem_of_cons, IH, !elem_of_cons.
      destruct (decide (x = y)) as [->|Hne]; tauto.
Qed.

Lemma set_of_NoDup l : ∀ seen, NoDup (set_of seen l).
Proof.
  induction l as [|y l IH]; intros seen; simpl; [constructor|].
  unfold includes. case_bool_decide as Hy; [apply IH|].
  constructor; [|apply IH]. rewrite set_of_elem, elem_of_cons. tauto.
Qed.

Lemma selected_keywords_spec w k :
  k ∈ selected_keywords w
  ↔ k ≠ [] ∧ ∃ row, row ∈ rows (page w) ∧ k ∈ row_keywords row.
Proof.
  pose proof (collect_conditions_sound w) as Hwf.
  pose proof (collect_conditions_complete w) as Hall.
  unfold selected_keywords. rewrite list_elem_of_filter, set_of_elem.
  split.
  - intros (Hp & Hin & _).
    apply list_elem_of_In, in_concat in Hin as (ks & Hks & Hk).
    apply list_elem_of_In, list_elem_of_fmap in Hks as (c & Hks & Hc).
    apply list_elem_of_In in Hk. rewrite Hks in Hk.
    destruct (Hwf c Hc) as (_ & _ & row & Hrow & Hiff & _).
    destruct (proj1 (Hiff k) Hk) as (Hne & Hk'). split; [done|].
    exists row. split; [by eapply list_elem_of_lookup_2 | done].
  - intros (Hne & row & Hrow & Hk).
    apply list_elem_of_lookup in Hrow as (i & Hrow).
    destruct (Hall i row k Hrow Hk Hne) as (c & Hc & _ & Hkc).
    split; [|split; [|apply not_elem_of_nil]].
    + apply Is_true_true. rewrite (row_keyword_trimmed row k Hk).
      rewrite andb_diag. by apply nonempty_spec.
    + apply list_elem_of_In, in_concat. exists (keywords c).
      split; apply list_elem_of_In; [|done].
      apply list_elem_of_fmap. eauto.
Qed.

Lemma selected_keywords_NoDup w : NoDup (selected_keywords w).
Proof. unfold selected_keywords. apply NoDup_filter, set_of_NoDup. Qed.

(** There is a keyword to send as soon as a condition was collected. *)
Lemma selected_keywords_nil w :
  selected_keywords w = [] ↔ SearchManager.collectSearchConditions w = [].
Proof.
  split.
  - intros Hsel. destruct (SearchManager.collectSearchConditions w) as [|c cs] eqn:E; [done|].
    exfalso.
    pose proof (collect_conditions_sound w) as Hwf.
    destruct (Hwf c) as (Hne & Hall & row & Hrow & Hiff & _); [rewrite E; by left|].
    destruct (keywords c) as [|k ks] eqn:Ek; [done|].
    assert (Hk : k ∈ selected_keywords w).
    { apply selected_keywords_spec.
      destruct (proj1 (Hiff k)) as (? & ?); [by left|].
      split; [done|]. exists row. split; [by eapply list_elem_of_lookup_2 | done]. }
    rewrite Hsel in Hk. by apply elem_of_nil in Hk.
  - intros E. unfold selected_keywords. by rewrite E.
Qed.

Lemma manualSearch_invalid description gpssApiKey w :
  SearchManager.collectSearchConditions w = [] →
  SearchManager.manualSearch description gpssApiKey w
  = Done (Throw (Error (js "請先拖拉關鍵字到搜索條件中"))) w.
Proof.
  intros E. unfold SearchManager.manualSearch. rewrite bind_gets, E.
  by rewrite (bool_decide_eq_true_2 _ eq_refl).
Qed.

Lemma manualSearch_run env tr description gpssApiKey w :
  SearchManager.collectSearchConditions w ≠ [] →
  let req := confirm_request description gpssApiKey w in
  let o := net env (network_calls tr) req in
  let r := run_from env tr (SearchManager.manualSearch description gpssApiKey w) in
  outcome r = checked (js "檢索失敗") (settle o)
  ∧ trace r = tr ++ exchange req o
  ∧ (undisturbed env →
     final r = match checked (js "檢索失敗") (settle o) with
               | Return body => on_search (set_sm_tech (Some (tech_results body))) w
               | Throw _ => w
               end).
Proof.
  intros Hc req o r. unfold r.
  assert (Hsel : selected_keywords w ≠ []) by (by rewrite selected_keywords_nil).
  rewrite (manualSearch_valid _ _ _ Hsel). apply manualSearch_try_run.
Qed.

(** X5. [manualSearch] throws its first validation error, without a
    network call and without a change of state, exactly when no row shows
    a non-empty keyword; in every other state it makes exactly one network
    call, so its two further validation errors (a condition without
    keywords, no valid keyword at all) are never thrown. *)
Theorem manualSearch_single_validation env description gpssApiKey w :
  let r := run env (SearchManager.manualSearch description gpssApiKey) w in
  (SearchManager.collectSearchConditions w = []
   ↔ ∀ row k, row ∈ rows (page w) → k ∈ row_keywords row → k = [])
  ∧ (SearchManager.collectSearchConditions w = [] →
     outcome r = Throw (Error (js "請先拖拉關鍵字到搜索條件中"))
     ∧ trace r = [] ∧ final r = w)
  ∧ (SearchManager.collectSearchConditions w ≠ [] →
     network_calls (trace r) = 1%nat
     ∧ ∃ req, head (trace r) = Some (EFetch req)).
Proof.
  intros r. split; [|split].
  - rewrite <- selected_keywords_nil. split.
    + intros Hsel row k Hrow Hk. destruct (decide (k = [])) as [|Hne]; [done|].
      assert (Hin : k ∈ selected_keywords w) by (apply selected_keywords_spec; eauto).
      rewrite Hsel in Hin. by apply elem_of_nil in Hin.
    + intros Hall. destruct (selected_keywords w) as [|k ks] eqn:E; [done|].
      assert (Hin : k ∈ selected_keywords w) by (rewrite E; by left).
      apply selected_keywords_spec in Hin as (Hne & row & Hrow & Hk).
      exfalso. apply Hne. eauto.
  - intros E. unfold r. by rewrite (run_done env _ w _ _ (manualSearch_invalid _ _ w E)).
  - intros Hne. destruct (manualSearch_run env [] description gpssApiKey w Hne)
      as (_ & Ht & _).
    fold (run env (SearchManager.manualSearch description gpssApiKey) w) in Ht.
    fold r in Ht. rewrite Ht. simpl. rewrite network_calls_exchange. eauto.
Qed.

(** X6. When a row shows a keyword, the first event of [manualSearch] is
    the POST to the confirmed-search endpoint; its selected keywords are
    exactly the non-empty keywords shown in the rows, each once and free of
    surrounding white space, with the description and the credential as
    given, the session id of the search manager, the non-empty primary
    keywords generated before, no custom keyword, 1000 results at most and
    the AND/OR logic switched off. *)
Theorem manualSearch_sends_each_keyword_once env description gpssApiKey w :
  SearchManager.collectSearchConditions w ≠ [] →
  let r := run env (SearchManager.manualSearch description gpssApiKey) w in
  ∃ data,
    head (trace r)
    = Some (EFetch {| url := baseUrl w
                             ++ js "/api/v1/patents/search/tech-description-confirmed";
                      method := APIService.POST; payload := ConfirmPayload data |})
    ∧ NoDup (sd_selected_keywords data)
    ∧ (∀ k, k ∈ sd_selected_keywords data
            ↔ k ≠ [] ∧ ∃ row, row ∈ rows (page w) ∧ k ∈ row_keywords row)
    ∧ Forall (λ k, trim k = k) (sd_selected_keywords data)
    ∧ sd_description data = description
    ∧ sd_user_code data = gpssApiKey
    ∧ sd_session_id data = sm_currentSessionId (search w)
    ∧ sd_generated_keywords data
      = filter (λ kw, nonempty kw) (map keyword (sm_generatedKeywords (search w)))
    ∧ sd_custom_keywords data = []
    ∧ sd_max_results data = 1000%N
    ∧ sd_use_and_or_logic data = false.
Proof.
  intros Hne r.
  destruct (manualSearch_run env [] description gpssApiKey w Hne) as (_ & Ht & _).
  fold (run env (SearchManager.manualSearch description gpssApiKey) w) in Ht.
  fold r in Ht.
  exists (SearchManager.manualSearch_request description gpssApiKey (selected_keywords w) w).
  split; [by rewrite Ht|]. simpl.
  split; [apply selected_keywords_NoDup|]. split; [apply selected_keywords_spec|].
  split; [|auto 10].
  apply Forall_forall. intros k (_ & row & _ & Hk)%selected_keywords_spec.
  by eapply row_keyword_trimmed.
Qed.

Lemma manualSearch_sends_each_keyword_once_witness :
  let r := run (alone agrees yes)
             (SearchManager.manualSearch (js "wafer probe station") (js "0123456789ABCDEF"))
             ready_world in
  SearchManager.collectSearchConditions ready_world ≠ []
  ∧ ∃ data,
      head (trace r)
      = Some (EFetch {| url := baseUrl ready_world
                               ++ js "/api/v1/patents/search/tech-description-confirmed";
                        method := APIService.POST; payload := ConfirmPayload data |})
      ∧ (js "wafer" ∈ sd_selected_keywords data)
      ∧ NoDup (sd_selected_keywords data).
Proof.
  intros r.
  assert (Hne : SearchManager.collectSearchConditions ready_world ≠ [])
    by (vm_compute; discriminate).
  split; [exact Hne|].
  destruct (manualSearch_sends_each_keyword_once (alone agrees yes)
              (js "wafer probe station") (js "0123456789ABCDEF") ready_world Hne)
    as (data & Hh & Hnd & Hiff & _).
  exists data. split; [exact Hh|]. split; [|exact Hnd].
  apply Hiff. split; [discriminate|].
  eexists. split; [left|]. vm_compute. left.
Defined.

Lemma decoration_only_refl w : decoration_only w w.
Proof. split; [apply display_only_refl | done]. Qed.

Lemma decoration_only_trans w1 w2 w3 :
  decoration_only w1 w2 → decoration_only w2 w3 → decoration_only w1 w3.
Proof.
  intros (Hd & Hm & Hc) (Hd' & Hm' & Hc').
  split; [by eapply display_only_trans|]. split; congruence.
Qed.

Ltac decoration_case :=
  intros; unfold decoration_only, display_only; repeat case_match; simpl; tauto.

Lemma startProgressAnimation_decoration a b w :
  decoration_only (UIManager.startProgressAnimation a b w) w.
Proof. unfold UIManager.startProgressAnimation. decoration_case. Qed.

Lemma clearProgressInterval_decoration a w :
  decoration_only (UIManager.clearProgressInterval a w) w.
Proof. unfold UIManager.clearProgressInterval. decoration_case. Qed.

Lemma setBoth_decoration a b n w : decoration_only (UIManager.setBoth a b n w) w.
Proof. unfold UIManager.setBoth. decoration_case. Qed.

Lemma completeProgress_decoration a b w :
  decoration_only (UIManager.completeProgress a b w) w.
Proof.
  unfold UIManager.completeProgress.
  eapply decoration_only_trans; [apply setBoth_decoration | apply clearProgressInterval_decoration].
Qed.

Lemma resetProgress_decoration a b w : decoration_only (UIManager.resetProgress a b w) w.
Proof.
  unfold UIManager.resetProgress.
  eapply decoration_only_trans; [apply setBoth_decoration | apply clearProgressInterval_decoration].
Qed.

Lemma updateProgress_decoration a b n w :
  decoration_only (UIManager.updateProgress a b n w) w.
Proof.
  unfold UIManager.updateProgress, UIManager.has.
  destruct (bool_decide (a ∈ elems (page w))); simpl;
    repeat case_match; unfold decoration_only, display_only; simpl; tauto.
Qed.

Lemma showLoading_decoration a w : decoration_only (UIManager.showLoading a w) w.
Proof. unfold UIManager.showLoading. decoration_case. Qed.

Lemma hideLoading_decoration a w : decoration_only (UIManager.hideLoading a w) w.
Proof. unfold UIManager.hideLoading. decoration_case. Qed.

Lemma toggleElement_decoration a b w : decoration_only (UIManager.toggleElement a b w) w.
Proof. unfold UIManager.toggleElement. decoration_case. Qed.

Lemma toggleButton_decoration a b w : decoration_only (UIManager.toggleButton a b w) w.
Proof. unfold UIManager.toggleButton. decoration_case. Qed.

Ltac decoration_step :=
  lazymatch goal with
  | |- decoration_only (UIManager.startProgressAnimation _ _ _) _ =>
      eapply decoration_only_trans; [apply startProgressAnimation_decoration|]
  | |- decoration_only (UIManager.completeProgress _ _ _) _ =>
      eapply decoration_only_trans; [apply completeProgress_decoration|]
  | |- decoration_only (UIManager.resetProgress _ _ _) _ =>
      eapply decoration_only_trans; [apply resetProgress_decoration|]
  | |- decoration_only (UIManager.updateProgress _ _ _ _) _ =>
      eapply decoration_only_trans; [apply updateProgress_decoration|]
  | |- decoration_only (UIManager.showLoading _ _) _ =>
      eapply decoration_only_trans; [apply showLoading_decoration|]
  | |- decoration_only (UIManager.hideLoading _ _) _ =>
      eapply decoration_only_trans; [apply hideLoading_decoration|]
  | |- decoration_only (UIManager.toggleElement _ _ _) _ =>
      eapply decoration_only_trans; [apply toggleElement_decoration|]
  | |- decoration_only (UIManager.toggleButton _ _ _) _ =>
      eapply decoration_only_trans; [apply toggleButton_decoration|]
  end.

Ltac decoration := repeat decoration_step; try apply decoration_only_refl.

Lemma tech_search_started_decoration w :
  decoration_only (tech_search_started w) (on_app (set_app_isSearching true) w).
Proof. unfold tech_search_started. decoration. Qed.

Lemma tech_search_finally_decoration w :
  decoration_only (tech_search_finally w) (on_app (set_app_isSearching false) w).
Proof. unfold tech_search_finally. decoration. Qed.

(** [executeSearch] from rest, up to the call of the search manager. *)
Lemma executeSearch_unfold w :
  app_isSearching (app w) = false →
  PatentSearchApp.executeSearch w
  = finallyS
      (catchS
         (bindS (SearchManager.manualSearch (UIManager.getInputValue "techDescription" w)
                   (UIManager.getInputValue "gpssApiKey" w) (tech_search_started w))
            (fun response =>
               if success response then
                 act (UIManager.completeProgress "progress-fill" "progress-text");;
                 act (PatentSearchApp.completeTechSearch response);;
                 enabled ← gets ChatManager.isEnabled;
                 (if negb enabled then ChatManager.enableChat else ret tt);;
                 act (UIManager.showSuccess
                        (js "搜索完成！找到 " ++ decimal (total_found response) ++ js " 筆專利"))
               else
                 throw (new_Error (js_or (detail response)
                                     (js_or (message response) (VStr (js "檢索失敗")))))))
         (fun error =>
            act (UIManager.showError (js "搜索失敗: " ++ Utils.extractErrorMessage error))))
      (fun w => UIManager.resetProgress "progress-fill" "progress-text"
                  (UIManager.hideLoading "loading-tech"
                     (on_app (set_app_isSearching false) w))).
Proof.
  intros Hidle. unfold PatentSearchApp.executeSearch.
  rewrite bind_gets, Hidle. cbv iota.
  unfold try_catch_finally, try_finally, try_catch.
  sync. unfold tech_search_started, mbind, task_bind, bind. reflexivity.
Qed.


Lemma collect_started w :
  SearchManager.collectSearchConditions (tech_search_started w)
  = SearchManager.collectSearchConditions w.
Proof.
  destruct (tech_search_started_decoration w) as (Hd & _).
  rewrite (collect_display _ _ Hd). reflexivity.
Qed.


Lemma executeSearch_not_sent env w :
  app_isSearching (app w) = false →
  SearchManager.collectSearchConditions w = [] →
  run env PatentSearchApp.executeSearch w
  = {| outcome := Return tt;
       final := tech_search_failed (Error (js "請先拖拉關鍵字到搜索條件中")) w;
       trace := [] |}.
Proof.
  intros Hidle Hnil. unfold run. rewrite (executeSearch_unfold w Hidle).
  rewrite <- collect_started in Hnil. rewrite (manualSearch_invalid _ _ _ Hnil).
  cbn [bindS catchS finallyS act run_from].
  unfold tech_search_failed, tech_search_finally. reflexivity.
Qed.



Lemma last_message_showSuccess m w :
  last_message (UIManager.showSuccess m w) = Some (MsgSuccess, m).
Proof. unfold last_message. simpl. apply last_snoc. Qed.

Lemma last_message_decoration w' w :
  decoration_only w' w → last_message w' = last_message w.
Proof. intros (_ & H & _). unfold last_message. by rewrite H. Qed.

(** What a state keeps when only its decoration changes. *)
Lemma decoration_frame w' w :
  decoration_only w' w →
  app w' = app w ∧ search w' = search w ∧ chat w' = chat w ∧ excel w' = excel w
  ∧ messages (page w') = messages (page w) ∧ content (page w') = content (page w)
  ∧ elems (page w') = elems (page w) ∧ rows (page w') = rows (page w)
  ∧ values (page w') = values (page w) ∧ baseUrl w' = baseUrl w.
Proof.
  intros ((Hb & Ha & Hs & Hc & Hx & _ & He & Hv & Hr & _) & Hm & Hco). auto 10.
Qed.

Lemma showMessage_frame m k w :
  let w' := UIManager.showMessage m k w in
  app w' = app w ∧ search w' = search w ∧ chat w' = chat w ∧ excel w' = excel w
  ∧ messages (page w') = messages (page w) ++ [(k, m)]
  ∧ content (page w') = content (page w)
  ∧ elems (page w') = elems (page w) ∧ rows (page w') = rows (page w)
  ∧ values (page w') = values (page w) ∧ baseUrl w' = baseUrl w.
Proof. cbn. auto 10. Qed.

Lemma tech_search_finally_frame x :
  let w' := tech_search_finally x in
  app w' = set_app_isSearching false (app x)
  ∧ search w' = search x ∧ chat w' = chat x ∧ excel w' = excel x
  ∧ messages (page w') = messages (page x) ∧ content (page w') = content (page x)
  ∧ elems (page w') = elems (page x) ∧ rows (page w') = rows (page x)
  ∧ values (page w') = values (page x) ∧ baseUrl w' = baseUrl x.
Proof. exact (decoration_frame _ _ (tech_search_finally_decoration x)). Qed.

Lemma tech_search_started_frame x :
  let w' := tech_search_started x in
  app w' = set_app_isSearching true (app x)
  ∧ search w' = search x ∧ chat w' = chat x ∧ excel w' = excel x
  ∧ messages (page w') = messages (page x) ∧ content (page w') = content (page x)
  ∧ elems (page w') = elems (page x) ∧ rows (page w') = rows (page x)
  ∧ values (page w') = values (page x) ∧ baseUrl w' = baseUrl x.
Proof. exact (decoration_frame _ _ (tech_search_started_decoration x)). Qed.

Lemma guard_cleared a :
  app_isSearching a = false →
  set_app_isSearching false (set_app_isSearching true a) = a.
Proof. destruct a as [g v i t c x]. cbn. by intros ->. Qed.

Lemma tech_search_failed_spec e w :
  app_isSearching (app w) = false →
  let w' := tech_search_failed e w in
  last_message w' = Some (MsgError, js "搜索失敗: " ++ Utils.extractErrorMessage e)
  ∧ app w' = app w ∧ search w' = search w ∧ chat w' = chat w ∧ excel w' = excel w
  ∧ rows (page w') = rows (page w) ∧ values (page w') = values (page w)
  ∧ content (page w') = content (page w).
Proof.
  intros Hidle. cbv zeta. unfold tech_search_failed, UIManager.showError, last_message.
  destruct (tech_search_finally_frame
              (UIManager.showMessage (js "搜索失敗: " ++ Utils.extractErrorMessage e)
                 MsgError (tech_search_started w)))
    as (Ha & Hs & Hc & Hx & Hm & Hco & _ & Hr & Hv & _).
  destruct (showMessage_frame (js "搜索失敗: " ++ Utils.extractErrorMessage e) MsgError
              (tech_search_started w))
    as (Ha1 & Hs1 & Hc1 & Hx1 & Hm1 & Hco1 & _ & Hr1 & Hv1 & _).
  destruct (tech_search_started_frame w)
    as (Ha2 & Hs2 & Hc2 & Hx2 & Hm2 & Hco2 & _ & Hr2 & Hv2 & _).
  cbv zeta in *.
  rewrite Ha, Hs, Hc, Hx, Hm, Hco, Hr, Hv.
  rewrite Ha1, Hs1, Hc1, Hx1, Hm1, Hco1, Hr1, Hv1.
  rewrite Ha2, Hs2, Hc2, Hx2, Hco2, Hr2, Hv2.
  rewrite (guard_cleared _ Hidle), last_snoc. auto 10.
Qed.










Lemma extractErrorMessage_Error m : Utils.extractErrorMessage (Error m) = m.
Proof. reflexivity. Qed.

Lemma executeSearch_not_sent_spec env w :
  app_isSearching (app w) = false →
  SearchManager.collectSearchConditions w = [] →
  let r := run env PatentSearchApp.executeSearch w in
  outcome r = Return tt
  ∧ trace r = []
  ∧ last_message (final r)
    = Some (MsgError, js "搜索失敗: " ++ js "請先拖拉關鍵字到搜索條件中")
  ∧ app (final r) = app w
  ∧ search (final r) = search w.
Proof.
  intros Hidle Hnil. cbv zeta.
  pose proof (executeSearch_not_sent env w Hidle Hnil) as Hrun.
  destruct (tech_search_failed_spec (Error (js "請先拖拉關鍵字到搜索條件中")) w Hidle)
    as (Hm & Ha & Hs & _).
  cbv zeta in Hm, Ha, Hs. rewrite extractErrorMessage_Error in Hm.
  assert (Ho : outcome (run env PatentSearchApp.executeSearch w) = Return tt)
    by (by rewrite Hrun).
  assert (Ht : trace (run env PatentSearchApp.executeSearch w) = []) by (by rewrite Hrun).
  assert (Hf : final (run env PatentSearchApp.executeSearch w)
               = tech_search_failed (Error (js "請先拖拉關鍵字到搜索條件中")) w)
    by (by rewrite Hrun).
  rewrite Ho, Ht, Hf, Ha, Hs. split; [done|]. split; [done|]. split; [exact Hm|]. done.
Qed.

(** X9. After [clearAllConditions] one empty row is left and nothing is
    collected, so a technical-description search started then is
    rejected with the missing-keywords message without a network call,
    and leaves the orchestrator and the search manager as they were. *)
Theorem search_after_clearing_not_sent env w :
  rows (page w) ≠ [] →
  app_isSearching (app w) = false →
  let c := run env SearchManager.clearAllConditions w in
  let r := run env PatentSearchApp.executeSearch (final c) in
  outcome c = Return tt
  ∧ (∃ first, rows (page (final c)) = [first] ∧ row_dropped first = [])
  ∧ SearchManager.collectSearchConditions (final c) = []
  ∧ outcome r = Return tt
  ∧ trace r = []
  ∧ last_message (final r)
    = Some (MsgError, js "搜索失敗: " ++ js "請先拖拉關鍵字到搜索條件中")
  ∧ app (final r) = app w
  ∧ search (final r) = search w.
Proof.
  intros Hrows Hidle. cbv zeta.
  destruct (clearAllConditions_cases w)
    as [(E & _) | (r0 & rest & first & w1 & E & Hc & Hr & Hd & Hh & Hs & Ha & _)];
    [done|].
  assert (Hcol : SearchManager.collectSearchConditions w1 = []).
  { unfold SearchManager.collectSearchConditions. rewrite Hr. cbn.
    unfold SearchManager.collect_row. by rewrite Hd. }
  assert (Hidle1 : app_isSearching (app w1) = false) by (by rewrite Ha).
  assert (Ho : outcome (run env SearchManager.clearAllConditions w) = Return tt)
    by (by rewrite (run_done env _ w _ _ Hc)).
  assert (Hf : final (run env SearchManager.clearAllConditions w) = w1)
    by (by rewrite (run_done env _ w _ _ Hc)).
  rewrite Ho, Hf.
  destruct (executeSearch_not_sent_spec env w1 Hidle1 Hcol) as (Hxo & Hxt & Hxm & Hxa & Hxs).
  cbv zeta in Hxo, Hxt, Hxm, Hxa, Hxs.
  rewrite Hxo, Hxt, Hxm, Hxa, Hxs, Ha, Hs, Hr.
  split; [done|]. split; [eauto|]. split; [exact Hcol|]. repeat split; done.
Qed.

Lemma search_after_clearing_not_sent_witness :
  let env := alone agrees yes in
  let c := run env SearchManager.clearAllConditions ready_world in
  let r := run env PatentSearchApp.executeSearch (final c) in
  rows (page ready_world) ≠ []
  ∧ SearchManager.collectSearchConditions ready_world ≠ []
  ∧ trace r = []
  ∧ search (final r) = search ready_world.
Proof.
  intros env c r.
  assert (Hrows : rows (page ready_world) ≠ []) by discriminate.
  destruct (search_after_clearing_not_sent env ready_world Hrows eq_refl)
    as (_ & _ & _ & _ & Ht & _ & _ & Hs).
  split; [exact Hrows|]. split; [vm_compute; discriminate|]. split; [exact Ht | exact Hs].
Defined.

Lemma search_ensureSessionId_baseUrl w :
  baseUrl (SearchManager.ensureSessionId w) = baseUrl w.
Proof.
  unfold SearchManager.ensureSessionId.
  by destruct (is_set (sm_currentSessionId (search w))).
Qed.


Lemma conditionSearch_run env tr params w :
  SearchManager.hasValidConditions params = true →
  let w1 := SearchManager.ensureSessionId w in
  let req := condition_request params w in
  let o := net env (network_calls tr) req in
  let r := run_from env tr (SearchManager.conditionSearch params w) in
  outcome r = match checked (js "條件搜索失敗") (settle o) with
              | Return body => Return (condition_result body)
              | Throw e => Throw e
              end
  ∧ trace r = tr ++ exchange req o
  ∧ (undisturbed env →
     final r = match checked (js "條件搜索失敗") (settle o) with
               | Return body =>
                   on_search (set_sm_condition (Some (default [] (results body)))) w1
               | Throw _ => w1
               end).
Proof.
  intros Hv w1 req o r. unfold r, SearchManager.conditionSearch.
  rewrite Hv. cbn [negb]. cbv iota. rewrite bind_act, bind_gets. fold w1.
  unfold try_catch. rewrite run_from_rethrow. unfold mbind, task_bind, bind.
  rewrite run_from_bind.
  unfold APIService.conditionSearch, try_catch. rewrite run_from_rethrow.
  set (p := {| sp_user_code := _ |}).
  destruct (request_exchange env tr (js "/api/v1/patents/condition/search")
              APIService.POST (ConditionPayload p) w1) as (Ho & Ht & Hf).
  assert (Hreq : {| url := baseUrl w1 ++ js "/api/v1/patents/condition/search";
                   method := APIService.POST; payload := ConditionPayload p |} = req).
  { unfold req, condition_request, w1. by rewrite search_ensureSessionId_baseUrl. }
  unfold request_to in Ho, Ht. rewrite Hreq in Ho, Ht. fold o in Ho, Ht. rewrite Ho.
  destruct (settle o) as [body|e]; cbn [checked].
  - destruct (success body); unfold act, ret, throw;
      cbn [bindS run_from outcome trace final]; rewrite Ht;
      (split; [done|]); (split; [done|]); intros H; by rewrite (Hf H).
  - cbn [outcome trace final]. rewrite Ht. split; [done|]. split; [done|]. exact Hf.
Qed.

Lemma condition_search_started_decoration w :
  decoration_only (condition_search_started w)
    (on_app (set_app_isSearching true) (PatentSearchApp.ensureSessionId w)).
Proof. unfold condition_search_started. decoration. Qed.


Lemma startConditionSearch_unfold w :
  nonempty (UIManager.getInputValue "gpssApiKey" w) = true →
  app_apiKeyVerified (app w) = true →
  app_isSearching (app w) = false →
  PatentSearchApp.startConditionSearch w
  = finallyS
      (catchS
         (bindS (SearchManager.conditionSearch
                   (PatentSearchApp.buildConditionSearchParams
                      (PatentSearchApp.ensureSessionId w))
                   (condition_search_started w))
            (fun searchResults =>
               act (UIManager.completeProgress "progress-fill-condition"
                      "progress-text-condition");;
               act (PatentSearchApp.completeConditionSearch searchResults);;
               act (UIManager.showSuccess
                      (js "條件搜尋完成！找到 " ++ decimal (total searchResults)
                       ++ js " 筆專利"));;
               enabled ← gets ChatManager.isEnabled;
               if negb enabled then ChatManager.enableChat else ret tt))
         (fun error =>
            act (UIManager.showError
                   (js "條件查詢失敗: " ++ Utils.extractErrorMessage error))))
      (fun w => UIManager.resetProgress "progress-fill-condition" "progress-text-condition"
                  (UIManager.hideLoading "loading-condition"
                     (UIManager.toggleButton "startConditionSearchBtn" true
                        (on_app (set_app_isSearching false) w)))).
Proof.
  intros Hk Hv Hidle. unfold PatentSearchApp.startConditionSearch.
  rewrite (bind_done _ _ _ _ _ (validateApiKey_passes w Hk Hv)). cbn [negb]. cbv iota.
  rewrite bind_gets, Hidle. cbv iota.
  unfold try_catch_finally, try_finally, try_catch.
  sync. unfold condition_search_started, mbind, task_bind, bind. reflexivity.
Qed.

Lemma app_ensureSessionId_page w : page (PatentSearchApp.ensureSessionId w) = page w.
Proof. by destruct (app_ensureSessionId w). Qed.

Lemma criteria_ensured w : criteria (PatentSearchApp.ensureSessionId w) = criteria w.
Proof.
  unfold criteria, UIManager.getInputValue, UIManager.has.
  by rewrite app_ensureSessionId_page.
Qed.

Lemma build_valid w :
  SearchManager.hasValidConditions
    (PatentSearchApp.buildConditionSearchParams (PatentSearchApp.ensureSessionId w))
  = SearchManager.hasValidConditions (PatentSearchApp.buildConditionSearchParams w).
Proof.
  unfold SearchManager.hasValidConditions, PatentSearchApp.buildConditionSearchParams,
    SearchManager.buildConditionSearchParams. cbn [sp_criteria].
  fold (criteria (PatentSearchApp.ensureSessionId w)). fold (criteria w).
  by rewrite criteria_ensured.
Qed.


Lemma app_ensureSessionId_frame w :
  let w' := PatentSearchApp.ensureSessionId w in
  page w' = page w ∧ excel w' = excel w ∧ baseUrl w' = baseUrl w
  ∧ app_isSearching (app w') = app_isSearching (app w)
  ∧ app_apiKeyVerified (app w') = app_apiKeyVerified (app w)
  ∧ app_tech (app w') = app_tech (app w)
  ∧ app_condition (app w') = app_condition (app w)
  ∧ app_excel (app w') = app_excel (app w)
  ∧ sm_tech (search w') = sm_tech (search w)
  ∧ sm_condition (search w') = sm_condition (search w)
  ∧ sm_generatedKeywords (search w') = sm_generatedKeywords (search w)
  ∧ chat_chatEnabled (chat w') = chat_chatEnabled (chat w)
  ∧ chat_chatHistory (chat w') = chat_chatHistory (chat w)
  ∧ chat_memoryEnabled (chat w') = chat_memoryEnabled (chat w).
Proof.
  cbv zeta. unfold PatentSearchApp.ensureSessionId.
  destruct (is_set (app_currentSessionId (app w))); cbn; auto 20.
Qed.

Lemma search_ensureSessionId_frame w :
  let w' := SearchManager.ensureSessionId w in
  page w' = page w ∧ excel w' = excel w ∧ baseUrl w' = baseUrl w
  ∧ app w' = app w ∧ chat w' = chat w
  ∧ sm_tech (search w') = sm_tech (search w)
  ∧ sm_condition (search w') = sm_condition (search w)
  ∧ sm_generatedKeywords (search w') = sm_generatedKeywords (search w)
  ∧ is_set (sm_currentSessionId (search w')) = true
  ∧ (is_set (sm_currentSessionId (search w)) = true →
     sm_currentSessionId (search w') = sm_currentSessionId (search w)).
Proof.
  cbv zeta. unfold SearchManager.ensureSessionId.
  destruct (is_set (sm_currentSessionId (search w))) eqn:E; cbn; [auto 20|].
  repeat split; auto; try discriminate.
Qed.


Lemma condition_search_started_frame x :
  let w' := condition_search_started x in
  app w' = set_app_isSearching true (app (PatentSearchApp.ensureSessionId x))
  ∧ search w' = search (PatentSearchApp.ensureSessionId x)
  ∧ chat w' = chat (PatentSearchApp.ensureSessionId x)
  ∧ excel w' = excel (PatentSearchApp.ensureSessionId x)
  ∧ messages (page w') = messages (page (PatentSearchApp.ensureSessionId x))
  ∧ content (page w') = content (page (PatentSearchApp.ensureSessionId x))
  ∧ elems (page w') = elems (page (PatentSearchApp.ensureSessionId x))
  ∧ rows (page w') = rows (page (PatentSearchApp.ensureSessionId x))
  ∧ values (page w') = values (page (PatentSearchApp.ensureSessionId x))
  ∧ baseUrl w' = baseUrl (PatentSearchApp.ensureSessionId x).
Proof. exact (decoration_frame _ _ (condition_search_started_decoration x)). Qed.
















Lemma trace_bind_prefix {A B} env tr (s : Step A) (f : A → Task B) :
  ∃ more, trace (run_from env tr (bindS s f)) = trace (run_from env tr s) ++ more.
Proof.
  rewrite run_from_bind. destruct (outcome (run_from env tr s)).
  - apply run_from_trace.
  - exists []. by rewrite app_nil_r.
Qed.

Lemma trace_catch_prefix {A} env tr (s : Step A) (h : exn → Task A) :
  ∃ more, trace (run_from env tr (catchS s h)) = trace (run_from env tr s) ++ more.
Proof.
  rewrite run_from_catch. destruct (outcome (run_from env tr s)).
  - exists []. by rewrite app_nil_r.
  - apply run_from_trace.
Qed.

(** X12. The first event of a condition search that passes its
    validations is the POST to the condition-search endpoint, carrying the
    credential, the twelve criteria as typed (trimmed), 1000 results at
    most and a non-empty session id: the one of the search manager when
    orchestrator and search manager both have one, the one generated at
    that moment when the orchestrator has none. *)
Theorem condition_request_carries_session env w :
  nonempty (UIManager.getInputValue "gpssApiKey" w) = true →
  app_apiKeyVerified (app w) = true →
  app_isSearching (app w) = false →
  SearchManager.hasValidConditions (PatentSearchApp.buildConditionSearchParams w) = true →
  let r := run env PatentSearchApp.startConditionSearch w in
  ∃ p,
    head (trace r)
    = Some (EFetch {| url := baseUrl w ++ js "/api/v1/patents/condition/search";
                      method := APIService.POST; payload := ConditionPayload p |})
    ∧ sp_user_code p = UIManager.getInputValue "gpssApiKey" w
    ∧ sp_max_results p = 1000%N
    ∧ sp_criteria p
      = map (fun '(key, id) => (key, UIManager.getInputValue id w))
          PatentSearchApp.conditionInputs
    ∧ is_set (sp_session_id p) = true
    ∧ (is_set (app_currentSessionId (app w)) = true →
       is_set (sm_currentSessionId (search w)) = true →
       sp_session_id p = sm_currentSessionId (search w))
    ∧ (is_set (app_currentSessionId (app w)) = false →
       sp_session_id p = Some (Utils.generateSessionId w).1).
Proof.
  intros Hk Hv Hidle Hc. cbv zeta.
  set (params := PatentSearchApp.buildConditionSearchParams
                   (PatentSearchApp.ensureSessionId w)).
  set (w1 := condition_search_started w).
  exists {| sp_user_code := sp_user_code params;
            sp_max_results := sp_max_results params;
            sp_session_id := sm_currentSessionId (search (SearchManager.ensureSessionId w1));
            sp_criteria := sp_criteria params |}.
  destruct (condition_search_started_frame w) as (_ & Hs1 & _ & _ & _ & _ & _ & _ & _ & Hb1).
  destruct (app_ensureSessionId_frame w) as (Hpe & _ & Hbe & _).
  cbv zeta in Hs1, Hb1, Hpe, Hbe. fold w1 in Hs1, Hb1.
  split.
  - unfold run. rewrite (startConditionSearch_unfold w Hk Hv Hidle), trace_finally.
    fold params w1.
    destruct (trace_catch_prefix env []
                (bindS (SearchManager.conditionSearch params w1)
                   (λ searchResults,
                      act (UIManager.completeProgress "progress-fill-condition"
                             "progress-text-condition");;
                      act (PatentSearchApp.completeConditionSearch searchResults);;
                      act (UIManager.showSuccess
                             (js "條件搜尋完成！找到 " ++ decimal (total searchResults)
                              ++ js " 筆專利"));;
                      enabled ← gets ChatManager.isEnabled;
                      if negb enabled then ChatManager.enableChat else ret tt))
                (λ error, act (UIManager.showError
                                 (js "條件查詢失敗: " ++ Utils.extractErrorMessage error))))
      as (more1 & ->).
    destruct (trace_bind_prefix env [] (SearchManager.conditionSearch params w1)
                (λ searchResults,
                      act (UIManager.completeProgress "progress-fill-condition"
                             "progress-text-condition");;
                      act (PatentSearchApp.completeConditionSearch searchResults);;
                      act (UIManager.showSuccess
                             (js "條件搜尋完成！找到 " ++ decimal (total searchResults)
                              ++ js " 筆專利"));;
                      enabled ← gets ChatManager.isEnabled;
                      if negb enabled then ChatManager.enableChat else ret tt))
      as (more2 & ->).
    rewrite <- build_valid in Hc. fold params in Hc.
    destruct (conditionSearch_run env [] params w1 Hc) as (_ & Ht & _).
    cbv zeta in Ht. rewrite Ht. unfold exchange, condition_request.
    rewrite app_nil_l. cbn [app head]. by rewrite Hb1, Hbe.
  - cbn [sp_user_code sp_max_results sp_criteria sp_session_id].
    unfold params, PatentSearchApp.buildConditionSearchParams,
      SearchManager.buildConditionSearchParams.
    cbn [sp_user_code sp_max_results sp_criteria].
    fold (criteria (PatentSearchApp.ensureSessionId w)). rewrite criteria_ensured.
    unfold UIManager.getInputValue at 1, UIManager.has. rewrite Hpe.
    fold (UIManager.has "gpssApiKey" w). fold (UIManager.getInputValue "gpssApiKey" w).
    split; [done|]. split; [done|]. split; [done|].
    destruct (search_ensureSessionId_frame w1) as (_ & _ & _ & _ & _ & _ & _ & _ & Hset & Hkeep).
    cbv zeta in Hset, Hkeep. split; [exact Hset|].
    unfold PatentSearchApp.ensureSessionId in Hs1.
    split.
    + intros Ha Hs. rewrite Ha in Hs1. rewrite Hkeep; rewrite Hs1; done.
    + intros Ha. rewrite Ha in Hs1.
      assert (Hid : sm_currentSessionId (search w1)
                    = Some (js "session_" ++ decimal (clock w))).
      { rewrite Hs1. reflexivity. }
      rewrite Hkeep; rewrite Hid; [done|]. reflexivity.
Qed.

Lemma condition_request_carries_session_witness :
  let r := run (alone agrees yes) PatentSearchApp.startConditionSearch condition_world in
  nonempty (UIManager.getInputValue "gpssApiKey" condition_world) = true
  ∧ SearchManager.hasValidConditions
      (PatentSearchApp.buildConditionSearchParams condition_world) = true
  ∧ ∃ p, head (trace r)
         = Some (EFetch {| url := baseUrl condition_world
                                  ++ js "/api/v1/patents/condition/search";
                           method := APIService.POST; payload := ConditionPayload p |})
         ∧ sp_session_id p = Some (js "session_0").
Proof.
  intros r.
  assert (Hk : nonempty (UIManager.getInputValue "gpssApiKey" condition_world) = true)
    by (vm_compute; reflexivity).
  assert (Hc : SearchManager.hasValidConditions
                 (PatentSearchApp.buildConditionSearchParams condition_world) = true)
    by (vm_compute; reflexivity).
  destruct (condition_request_carries_session (alone agrees yes) condition_world
              Hk eq_refl eq_refl Hc) as (p & Hh & _ & _ & _ & _ & Hs & _).
  split; [exact Hk|]. split; [exact Hc|].
  exists p. split; [exact Hh|]. apply Hs; reflexivity.
Defined.


Lemma callQwenAPI_run env tr message useMemory w :
  is_set (chat_currentSessionId (chat w)) = true →
  let req := ask_request message useMemory w in
  let o := net env (network_calls tr) req in
  let r := run_from env tr (ChatManager.callQwenAPI message useMemory w) in
  outcome r = ask_result (settle o)
  ∧ trace r = tr ++ exchange req o
  ∧ (undisturbed env → final r = w).
Proof.
  intros Hs req o r. unfold r, ChatManager.callQwenAPI.
  rewrite bind_gets, Hs. cbv iota beta. cbn [negb].
  unfold try_catch. rewrite run_from_rethrow.
  unfold mbind, task_bind, bind. rewrite run_from_bind.
  unfold req, o, ask_request. destruct useMemory.
  - unfold APIService.askWithMemory, try_catch. rewrite run_from_rethrow.
    destruct (request_exchange env tr (js "/api/v1/patents/qa/ask-with-memory")
                APIService.POST
                (AskPayload (chat_currentSessionId (chat w)) message true) w)
      as (Ho & Ht & Hf).
    cbv zeta in Ho, Ht, Hf. unfold request_to in Ho, Ht. rewrite Ho.
    destruct (settle _) as [body|e]; cbn [ask_result].
    + destruct (success body); unfold ret, throw; cbn [run_from outcome trace final];
        rewrite Ht; (split; [done|]); (split; [done|]); exact Hf.
    + cbn [outcome trace final]. rewrite Ht. split; [done|]. split; [done|]. exact Hf.
  - unfold APIService.askSimpleQuestion, try_catch. rewrite run_from_rethrow.
    destruct (request_exchange env tr (js "/api/v1/patents/qa/ask-simple")
                APIService.POST
                (AskPayload (chat_currentSessionId (chat w)) message false) w)
      as (Ho & Ht & Hf).
    cbv zeta in Ho, Ht, Hf. unfold request_to in Ho, Ht. rewrite Ho.
    destruct (settle _) as [body|e]; cbn [ask_result].
    + destruct (success body); unfold ret, throw; cbn [run_from outcome trace final];
        rewrite Ht; (split; [done|]); (split; [done|]); exact Hf.
    + cbn [outcome trace final]. rewrite Ht. split; [done|]. split; [done|]. exact Hf.
Qed.

Lemma callQwenAPI_no_session env tr message useMemory w :
  is_set (chat_currentSessionId (chat w)) = false →
  run_from env tr (ChatManager.callQwenAPI message useMemory w)
  = {| outcome := Throw (Error (js "會話ID未設置")); final := w; trace := tr |}.
Proof.
  intros Hs. unfold ChatManager.callQwenAPI. rewrite bind_gets, Hs. reflexivity.
Qed.

Lemma updateMemoryStatus_run env tr w :
  let r := run_from env tr (ChatManager.updateMemoryStatus w) in
  outcome r = Return tt
  ∧ (∃ more, trace r = tr ++ more ∧ (network_calls more ≤ 1)%nat ∧ waits more = [])
  ∧ (undisturbed env → status_updated (final r) w).
Proof.
  intros r. unfold r, ChatManager.updateMemoryStatus, status_updated.
  rewrite bind_gets.
  assert (Hnone : ∀ x : Run unit, x = {| outcome := Return tt; final := w; trace := tr |} →
            outcome x = Return tt
            ∧ (∃ more, trace x = tr ++ more ∧ (network_calls more ≤ 1)%nat ∧ waits more = [])
            ∧ (undisturbed env → final x = w ∨ ∃ m, final x = on_chat (set_chat_memoryStatus m) w)).
  { intros x ->. cbn [outcome trace final]. split; [done|]. split; [|auto].
    exists []. rewrite app_nil_r. auto. }
  destruct (chat_currentSessionId (chat w)) as [id|]; [|by apply Hnone].
  destruct (nonempty id); [|by apply Hnone].
  unfold try_catch. rewrite run_from_catch.
  unfold mbind, task_bind, bind. rewrite run_from_bind.
  unfold APIService.getMemoryStatus, try_catch. rewrite run_from_rethrow.
  destruct (request_exchange env tr (js "/api/v1/patents/qa/memory-status/" ++ id)
              APIService.GET NoPayload w) as (Ho & Ht & Hf).
  cbv zeta in Ho, Ht, Hf. unfold request_to in Ho, Ht. rewrite Ho.
  set (req := {| url := _ |}) in *. set (o := net env _ req) in *.
  assert (Hmore : ∃ more, tr ++ exchange req o = tr ++ more
                          ∧ (network_calls more ≤ 1)%nat ∧ waits more = []).
  { exists (exchange req o). rewrite network_calls_exchange, waits_exchange. auto. }
  destruct (settle o) as [body|e].
  - destruct (success body); unfold act, ret; cbn [run_from outcome trace final];
      rewrite Ht; (split; [done|]); (split; [exact Hmore|]); intros H; rewrite (Hf H); eauto.
  - cbn [outcome trace final]. unfold ret. cbn [run_from outcome trace final].
    rewrite Ht. split; [done|]. split; [exact Hmore|]. intros H. rewrite (Hf H). eauto.
Qed.

Lemma sendChatMessage_unfold w :
  nonempty (UIManager.getInputValue "chatInput" w) = true →
  chat_chatEnabled (chat w) = true →
  ChatManager.sendChatMessage w
  = catchS
      (bindS (ChatManager.callQwenAPI (UIManager.getInputValue "chatInput" w)
                (chat_memoryEnabled (chat (chat_asked (UIManager.getInputValue "chatInput" w) w)))
                (chat_asked (UIManager.getInputValue "chatInput" w) w))
         (fun response =>
            act ChatManager.hideTyping;;
            memoryEnabled ← gets (fun w => chat_memoryEnabled (chat w));
            act (ChatManager.addChatMessage assistant (answer response) memoryEnabled);;
            ChatManager.updateMemoryStatus))
      (fun error =>
         act ChatManager.hideTyping;;
         act (ChatManager.addChatMessage assistant
                (js "抱歉，回答時發生錯誤：" ++ error_message error) false)).
Proof.
  intros Hm He. unfold ChatManager.sendChatMessage.
  rewrite bind_gets, bind_gets, Hm, He. cbv iota. cbn [negb orb].
  rewrite bind_gets, bind_act, bind_act, bind_act.
  unfold try_catch. rewrite bind_gets.
  unfold chat_asked, mbind, task_bind, bind. reflexivity.
Qed.

Lemma sendChatMessage_ignored env w :
  nonempty (UIManager.getInputValue "chatInput" w) = false
  ∨ chat_chatEnabled (chat w) = false →
  run env ChatManager.sendChatMessage w
  = {| outcome := Return tt; final := w; trace := [] |}.
Proof.
  intros H. apply run_done. unfold ChatManager.sendChatMessage.
  rewrite bind_gets, bind_gets.
  destruct H as [-> | ->]; [done|]. by rewrite orb_true_r.
Qed.

Lemma addChatMessage_frame type text memoryMode w :
  let w' := ChatManager.addChatMessage type text memoryMode w in
  app w' = app w ∧ search w' = search w ∧ excel w' = excel w ∧ baseUrl w' = baseUrl w
  ∧ elems (page w') = elems (page w) ∧ values (page w') = values (page w)
  ∧ shown (page w') = shown (page w) ∧ messages (page w') = messages (page w)
  ∧ chat_chatEnabled (chat w') = chat_chatEnabled (chat w)
  ∧ chat_memoryEnabled (chat w') = chat_memoryEnabled (chat w)
  ∧ chat_currentSessionId (chat w') = chat_currentSessionId (chat w)
  ∧ chat_chatHistory (chat w')
    = chat_chatHistory (chat w)
      ++ (if UIManager.has "chatMessages" w
          then [ {| turn_type := type; turn_content := text;
                    turn_memoryMode := memoryMode |} ] else [])
  ∧ chatMessages (page w')
    = chatMessages (page w)
      ++ (if UIManager.has "chatMessages" w then [(type, text)] else []).
Proof.
  cbv zeta. unfold ChatManager.addChatMessage.
  destruct (UIManager.has "chatMessages" w); cbn; rewrite ?app_nil_r; auto 15.
Qed.

Lemma setInputValue_frame id value w :
  let w' := UIManager.setInputValue id value w in
  app w' = app w ∧ search w' = search w ∧ excel w' = excel w ∧ baseUrl w' = baseUrl w
  ∧ chat w' = chat w
  ∧ elems (page w') = elems (page w)
  ∧ shown (page w') = shown (page w) ∧ messages (page w') = messages (page w)
  ∧ chatMessages (page w') = chatMessages (page w)
  ∧ disabled (page w') = disabled (page w)
  ∧ UIManager.getInputValue id w' = (if UIManager.has id w then trim value else []).
Proof.
  cbv zeta. unfold UIManager.setInputValue, UIManager.getInputValue, UIManager.has.
  case_bool_decide as H; cbn.
  - rewrite bool_decide_true by done. rewrite lookup_insert_eq. cbn. auto 15.
  - rewrite bool_decide_false by done. auto 15.
Qed.

Lemma loading_frame id w :
  let w1 := UIManager.showLoading id w in
  let w2 := UIManager.hideLoading id w in
  (decoration_only w1 w ∧ chatMessages (page w1) = chatMessages (page w))
  ∧ (decoration_only w2 w ∧ chatMessages (page w2) = chatMessages (page w))
  ∧ (id ∈ elems (page w) → id ∉ shown (page w2))
  ∧ (id ∉ elems (page w) → shown (page w2) = shown (page w) ∧ shown (page w1) = shown (page w)).
Proof.
  cbv zeta. split; [|split; [|split]].
  - split; [apply showLoading_decoration|].
    unfold UIManager.showLoading. by destruct (UIManager.has id w).
  - split; [apply hideLoading_decoration|].
    unfold UIManager.hideLoading. by destruct (UIManager.has id w).
  - intros H. unfold UIManager.hideLoading, UIManager.has.
    rewrite bool_decide_true by done. cbn. set_solver.
  - intros H. unfold UIManager.hideLoading, UIManager.showLoading, UIManager.has.
    rewrite bool_decide_false by done. done.
Qed.

Lemma getInputValue_same id w' w :
  elems (page w') = elems (page w) → values (page w') = values (page w) →
  UIManager.getInputValue id w' = UIManager.getInputValue id w.
Proof.
  intros He Hv. unfold UIManager.getInputValue, UIManager.has. by rewrite He, Hv.
Qed.

Lemma has_same id w' w :
  elems (page w') = elems (page w) → UIManager.has id w' = UIManager.has id w.
Proof. intros He. unfold UIManager.has. by rewrite He. Qed.

Lemma chat_asked_frame message w :
  let w1 := chat_asked message w in
  app w1 = app w ∧ search w1 = search w ∧ excel w1 = excel w ∧ baseUrl w1 = baseUrl w
  ∧ elems (page w1) = elems (page w) ∧ messages (page w1) = messages (page w)
  ∧ chat_chatEnabled (chat w1) = chat_chatEnabled (chat w)
  ∧ chat_memoryEnabled (chat w1) = chat_memoryEnabled (chat w)
  ∧ chat_currentSessionId (chat w1) = chat_currentSessionId (chat w)
  ∧ chat_chatHistory (chat w1)
    = chat_chatHistory (chat w)
      ++ (if UIManager.has "chatMessages" w
          then [ {| turn_type := user; turn_content := message;
                    turn_memoryMode := chat_memoryEnabled (chat w) |} ] else [])
  ∧ chatMessages (page w1)
    = chatMessages (page w)
      ++ (if UIManager.has "chatMessages" w then [(user, message)] else [])
  ∧ UIManager.getInputValue "chatInput" w1 = [].
Proof.
  cbv zeta. unfold chat_asked, ChatManager.showTyping.
  set (w0 := ChatManager.addChatMessage _ _ _ w).
  set (w1 := UIManager.setInputValue _ _ w0).
  destruct (addChatMessage_frame user message (chat_memoryEnabled (chat w)) w)
    as (Ha & Hs & Hx & Hb & He & Hv & Hsh & Hm & Hce & Hcm & Hcs & Hch & Hcp).
  cbv zeta in Ha, Hs, Hx, Hb, He, Hv, Hsh, Hm, Hce, Hcm, Hcs, Hch, Hcp.
  fold w0 in Ha, Hs, Hx, Hb, He, Hv, Hsh, Hm, Hce, Hcm, Hcs, Hch, Hcp.
  destruct (setInputValue_frame "chatInput" [] w0)
    as (Ha1 & Hs1 & Hx1 & Hb1 & Hc1 & He1 & Hsh1 & Hm1 & Hcp1 & _ & Hv1).
  cbv zeta in Ha1, Hs1, Hx1, Hb1, Hc1, He1, Hsh1, Hm1, Hcp1, Hv1.
  fold w1 in Ha1, Hs1, Hx1, Hb1, Hc1, He1, Hsh1, Hm1, Hcp1, Hv1.
  destruct (loading_frame "chatTyping" w1) as ((Hd & Hcp2) & _).
  cbv zeta in Hd, Hcp2.
  destruct (decoration_frame _ _ Hd) as (Ha2 & Hs2 & Hc2 & Hx2 & Hm2 & _ & He2 & _ & Hv2 & Hb2).
  rewrite Ha2, Hs2, Hc2, Hx2, Hm2, He2, Hb2, Hcp2.
  rewrite (getInputValue_same "chatInput" _ w1 He2 Hv2).
  rewrite Ha1, Hs1, Hx1, Hb1, Hc1, He1, Hm1, Hcp1, Hv1.
  rewrite Ha, Hs, Hx, Hb, He, Hm, Hce, Hcm, Hcs, Hch, Hcp.
  repeat (split; [reflexivity|]). by destruct (UIManager.has "chatInput" w0).
Qed.

Lemma chat_answered_frame reply memoryMode w :
  let w' := chat_answered reply memoryMode w in
  app w' = app w ∧ search w' = search w ∧ excel w' = excel w ∧ baseUrl w' = baseUrl w
  ∧ elems (page w') = elems (page w) ∧ messages (page w') = messages (page w)
  ∧ values (page w') = values (page w)
  ∧ chat_chatEnabled (chat w') = chat_chatEnabled (chat w)
  ∧ chat_memoryEnabled (chat w') = chat_memoryEnabled (chat w)
  ∧ chat_currentSessionId (chat w') = chat_currentSessionId (chat w)
  ∧ chat_chatHistory (chat w')
    = chat_chatHistory (chat w)
      ++ (if UIManager.has "chatMessages" w
          then [ {| turn_type := assistant; turn_content := reply;
                    turn_memoryMode := memoryMode |} ] else [])
  ∧ chatMessages (page w')
    = chatMessages (page w)
      ++ (if UIManager.has "chatMessages" w then [(assistant, reply)] else [])
  ∧ ("chatTyping" ∈ elems (page w) → "chatTyping" ∉ shown (page w')).
Proof.
  cbv zeta. unfold chat_answered, ChatManager.hideTyping.
  set (w0 := UIManager.hideLoading _ w).
  destruct (addChatMessage_frame assistant reply memoryMode w0)
    as (Ha & Hs & Hx & Hb & He & Hv & Hsh & Hm & Hce & Hcm & Hcs & Hch & Hcp).
  cbv zeta in Ha, Hs, Hx, Hb, He, Hv, Hsh, Hm, Hce, Hcm, Hcs, Hch, Hcp.
  destruct (loading_frame "chatTyping" w) as (_ & (Hd & Hcp2) & Hout & _).
  cbv zeta in Hd, Hcp2, Hout. fold w0 in Hd, Hcp2, Hout.
  destruct (decoration_frame _ _ Hd) as (Ha2 & Hs2 & Hc2 & Hx2 & Hm2 & _ & He2 & _ & Hv2 & Hb2).
  rewrite Ha, Hs, Hx, Hb, He, Hv, Hsh, Hm, Hce, Hcm, Hcs, Hch, Hcp.
  rewrite (has_same "chatMessages" w0 w He2).
  rewrite Ha2, Hs2, Hc2, Hx2, Hm2, He2, Hb2, Hcp2, Hv2.
  repeat (split; [reflexivity|]). exact Hout.
Qed.

Lemma sendChatMessage_run env w :
  undisturbed env →
  let message := UIManager.getInputValue "chatInput" w in
  nonempty message = true →
  chat_chatEnabled (chat w) = true →
  let req := ask_request message (chat_memoryEnabled (chat w)) w in
  let o := if is_set (chat_currentSessionId (chat w))
           then ask_result (settle (net env 0%nat req))
           else Throw (Error (js "會話ID未設置")) in
  let r := run env ChatManager.sendChatMessage w in
  outcome r = Return tt
  ∧ (∃ more, trace r
             = (if is_set (chat_currentSessionId (chat w))
                then exchange req (net env 0%nat req) else []) ++ more
             ∧ (network_calls more ≤ 1)%nat ∧ waits more = []
             ∧ (match o with Throw _ => more = [] | _ => True end))
  ∧ status_updated (final r)
      (chat_answered (chat_reply (chat_memoryEnabled (chat w)) o).1
         (chat_reply (chat_memoryEnabled (chat w)) o).2 (chat_asked message w)).
Proof.
  intros Henv message Hm He req o r.
  assert (Hr : r = run_from env [] (ChatManager.sendChatMessage w)) by reflexivity.
  rewrite (sendChatMessage_unfold w Hm He) in Hr. fold message in Hr.
  destruct (chat_asked_frame message w)
    as (_ & _ & _ & Hb & _ & _ & Hce & Hcm & Hcs & _).
  cbv zeta in Hb, Hce, Hcm, Hcs.
  rewrite Hcm in Hr. rewrite Hr. clear Hr. rewrite run_from_catch, run_from_bind.
  destruct (is_set (chat_currentSessionId (chat w))) eqn:Es.
  - assert (Es1 : is_set (chat_currentSessionId (chat (chat_asked message w))) = true)
      by (by rewrite Hcs).
    destruct (callQwenAPI_run env [] message (chat_memoryEnabled (chat w))
                (chat_asked message w) Es1) as (Ho & Ht & Hf).
    cbv zeta in Ho, Ht, Hf. specialize (Hf Henv).
    assert (Hreq : ask_request message (chat_memoryEnabled (chat w)) (chat_asked message w)
                   = req).
    { unfold req, ask_request. by rewrite Hb, Hcs. }
    rewrite Hreq in Ho, Ht. change (network_calls []) with O in Ho, Ht.
    rewrite app_nil_l in Ht. rewrite Ho. fold o.
    destruct o as [body|e] eqn:Eo.
    + rewrite Hf, Ht. rewrite bind_act, bind_gets.
      unfold mbind, task_bind, bind. rewrite run_from_bind.
      cbn [act run_from outcome trace final]. 
      destruct (updateMemoryStatus_run env (exchange req (net env 0%nat req))
                  (ChatManager.addChatMessage assistant (answer body)
                     (chat_memoryEnabled (chat (ChatManager.hideTyping (chat_asked message w))))
                     (ChatManager.hideTyping (chat_asked message w))))
        as (Huo & (more & Hut & Hun & Huw) & Huf).
      cbv zeta in Huo, Hut, Huf. rewrite Huo.
      split; [done|]. split; [exists more; rewrite Hut; auto|].
      specialize (Huf Henv).
      assert (Hmode : chat_memoryEnabled (chat (ChatManager.hideTyping (chat_asked message w)))
                      = chat_memoryEnabled (chat w)).
      { destruct (loading_frame "chatTyping" (chat_asked message w)) as (_ & (Hd & _) & _).
        destruct (decoration_frame _ _ Hd) as (_ & _ & Hc2 & _).
        unfold ChatManager.hideTyping. by rewrite Hc2, Hcm. }
      rewrite Hmode in Huf. rewrite Hmode.
      unfold chat_reply, chat_answered. cbn [fst snd]. exact Huf.
    + rewrite Ht, Hf. cbn [outcome trace final]. rewrite bind_act.
      cbn [act run_from outcome trace final].
      split; [done|]. split; [exists []; rewrite app_nil_r; auto|].
      left. unfold chat_reply, chat_answered. cbn [fst snd]. reflexivity.
  - assert (Es1 : is_set (chat_currentSessionId (chat (chat_asked message w))) = false)
      by (by rewrite Hcs).
    rewrite (callQwenAPI_no_session env [] message _ _ Es1).
    cbn [outcome trace final]. cbv beta. rewrite bind_act.
    cbn [act run_from outcome trace final].
    split; [reflexivity|]. split.
    { exists []. split; [reflexivity|]. split; [apply Nat.le_0_l|]. split; reflexivity. }
    left. unfold o, chat_reply, chat_answered. cbn [fst snd]. reflexivity.
Qed.

Lemma status_updated_frame w' w :
  status_updated w' w →
  app w' = app w ∧ search w' = search w ∧ excel w' = excel w ∧ baseUrl w' = baseUrl w
  ∧ page w' = page w
  ∧ chat_chatEnabled (chat w') = chat_chatEnabled (chat w)
  ∧ chat_memoryEnabled (chat w') = chat_memoryEnabled (chat w)
  ∧ chat_currentSessionId (chat w') = chat_currentSessionId (chat w)
  ∧ chat_chatHistory (chat w') = chat_chatHistory (chat w).
Proof. intros [-> | [m ->]]; cbn; auto 10. Qed.

Lemma chat_exchange_spec message reply mode w w' :
  status_updated w' (chat_answered reply mode (chat_asked message w)) →
  UIManager.has "chatMessages" w = true →
  chat_chatHistory (chat w')
  = chat_chatHistory (chat w)
    ++ [ {| turn_type := user; turn_content := message;
            turn_memoryMode := chat_memoryEnabled (chat w) |};
         {| turn_type := assistant; turn_content := reply; turn_memoryMode := mode |} ]
  ∧ chatMessages (page w')
    = chatMessages (page w) ++ [(user, message); (assistant, reply)]
  ∧ UIManager.getInputValue "chatInput" w' = []
  ∧ (UIManager.has "chatTyping" w = true → "chatTyping" ∉ shown (page w'))
  ∧ chat_memoryEnabled (chat w') = chat_memoryEnabled (chat w)
  ∧ chat_chatEnabled (chat w') = chat_chatEnabled (chat w)
  ∧ messages (page w') = messages (page w)
  ∧ app w' = app w ∧ search w' = search w ∧ excel w' = excel w.
Proof.
  intros Hu Hp.
  destruct (status_updated_frame _ _ Hu) as (Ha & Hs & Hx & _ & Hpg & Hce & Hcm & _ & Hch).
  destruct (chat_answered_frame reply mode (chat_asked message w))
    as (Ha1 & Hs1 & Hx1 & _ & He1 & Hm1 & Hv1 & Hce1 & Hcm1 & _ & Hch1 & Hcp1 & Hsh1).
  cbv zeta in Ha1, Hs1, Hx1, He1, Hm1, Hv1, Hce1, Hcm1, Hch1, Hcp1, Hsh1.
  destruct (chat_asked_frame message w)
    as (Ha2 & Hs2 & Hx2 & _ & He2 & Hm2 & Hce2 & Hcm2 & _ & Hch2 & Hcp2 & Hv2).
  cbv zeta in Ha2, Hs2, Hx2, He2, Hm2, Hce2, Hcm2, Hch2, Hcp2, Hv2.
  rewrite (has_same "chatMessages" _ w He2), Hp in Hch1, Hcp1.
  rewrite Hp in Hch2, Hcp2.
  rewrite Hch, Hch1, Hch2, Hcm, Hcm1, Hcm2, Hce, Hce1, Hce2, Ha, Ha1, Ha2, Hs, Hs1, Hs2,
    Hx, Hx1, Hx2.
  rewrite <- !app_assoc. split; [reflexivity|].
  assert (Hg : UIManager.getInputValue "chatInput" w' = []).
  { rewrite <- Hv2. transitivity (UIManager.getInputValue "chatInput"
                                   (chat_answered reply mode (chat_asked message w))).
    - apply getInputValue_same; by rewrite Hpg.
    - by apply getInputValue_same. }
  rewrite Hpg, Hcp1, Hcp2, Hm1, Hm2, <- !app_assoc.
  split; [reflexivity|]. split; [exact Hg|].
  split; [|auto 10].
  intros Ht. apply Hsh1. rewrite He2. unfold UIManager.has in Ht.
  by apply bool_decide_eq_true in Ht.
Qed.

(** X13. Sending a non-blank question while the chat is enabled never
    throws: the history grows by exactly two turns, the question (with the
    memory mode of the moment) and one reply of the assistant; the input
    box is emptied, the typing indicator is off again, the memory mode and
    the messages of the page are untouched; at most two network calls are
    made and nothing is waited for. *)
Theorem chat_send_records_question_and_reply env w :
  undisturbed env →
  let message := UIManager.getInputValue "chatInput" w in
  nonempty message = true →
  chat_chatEnabled (chat w) = true →
  UIManager.has "chatMessages" w = true →
  let r := run env ChatManager.sendChatMessage w in
  outcome r = Return tt
  ∧ (∃ reply mode,
       chat_chatHistory (chat (final r))
       = chat_chatHistory (chat w)
         ++ [ {| turn_type := user; turn_content := message;
                 turn_memoryMode := chat_memoryEnabled (chat w) |};
              {| turn_type := assistant; turn_content := reply;
                 turn_memoryMode := mode |} ])
  ∧ UIManager.getInputValue "chatInput" (final r) = []
  ∧ (UIManager.has "chatTyping" w = true → "chatTyping" ∉ shown (page (final r)))
  ∧ chat_memoryEnabled (chat (final r)) = chat_memoryEnabled (chat w)
  ∧ chat_chatEnabled (chat (final r)) = true
  ∧ messages (page (final r)) = messages (page w)
  ∧ (network_calls (trace r) ≤ 2)%nat
  ∧ waits (trace r) = [].
Proof.
  intros Henv message Hm He Hp r.
  destruct (sendChatMessage_run env w Henv Hm He) as (Ho & (more & Ht & Hn & Hw & _) & Hf).
  cbv zeta in Ho, Ht, Hf. fold message r in Ho, Ht, Hf.
  destruct (chat_exchange_spec message _ _ w (final r) Hf Hp)
    as (Hh & Hc & Hv & Hs & Hcm & Hce & Hmsg & _).
  split; [exact Ho|]. split; [eauto|]. split; [exact Hv|]. split; [exact Hs|].
  split; [exact Hcm|]. split; [by rewrite Hce|]. split; [exact Hmsg|].
  rewrite Ht, network_calls_app, waits_app.
  destruct (is_set (chat_currentSessionId (chat w))).
  - rewrite network_calls_exchange, waits_exchange, Hw. split; [lia | done].
  - rewrite Hw. split; [cbn; lia | done].
Qed.

Lemma sendChatMessage_no_session env w :
  nonempty (UIManager.getInputValue "chatInput" w) = true →
  chat_chatEnabled (chat w) = true →
  is_set (chat_currentSessionId (chat w)) = false →
  run env ChatManager.sendChatMessage w
  = {| outcome := Return tt;
       final := chat_answered (js "抱歉，回答時發生錯誤：會話ID未設置") false
                  (chat_asked (UIManager.getInputValue "chatInput" w) w);
       trace := [] |}.
Proof.
  intros Hm He Hs. unfold run. rewrite (sendChatMessage_unfold w Hm He).
  destruct (chat_asked_frame (UIManager.getInputValue "chatInput" w) w)
    as (_ & _ & _ & _ & _ & _ & _ & _ & Hcs & _).
  cbv zeta in Hcs.
  assert (Es1 : is_set (chat_currentSessionId
                          (chat (chat_asked (UIManager.getInputValue "chatInput" w) w)))
                = false) by (by rewrite Hcs).
  rewrite run_from_catch, run_from_bind.
  rewrite (callQwenAPI_no_session env [] _ _ _ Es1).
  cbn [outcome trace final]. rewrite bind_act.
  cbn [act run_from outcome trace final]. unfold chat_answered. reflexivity.
Qed.

Lemma chat_send_records_question_and_reply_witness :
  let env := alone (fun _ _ => Responded (ok_response an_answer)) yes in
  let r := run env ChatManager.sendChatMessage question_world in
  undisturbed env
  ∧ UIManager.getInputValue "chatInput" question_world = js "Which claims mention wafers?"
  ∧ outcome r = Return tt
  ∧ UIManager.getInputValue "chatInput" (final r) = []
  ∧ (network_calls (trace r) ≤ 2)%nat.
Proof.
  intros env r.
  assert (Henv : undisturbed env) by (intros n v; reflexivity).
  assert (Hm : nonempty (UIManager.getInputValue "chatInput" question_world) = true)
    by (vm_compute; reflexivity).
  assert (Hp : UIManager.has "chatMessages" question_world = true)
    by (vm_compute; reflexivity).
  destruct (chat_send_records_question_and_reply env question_world Henv Hm eq_refl Hp)
    as (Ho & _ & Hv & _ & _ & _ & _ & Hn & _).
  split; [exact Henv|]. split; [vm_compute; reflexivity|].
  split; [exact Ho|]. split; [exact Hv | exact Hn].
Defined.







(** X15. Without a session id a question is answered locally: no network
    call in whatever environment, and the history gets the question and
    the apology naming the missing session id. *)
Theorem chat_send_without_session env w :
  let message := UIManager.getInputValue "chatInput" w in
  nonempty message = true →
  chat_chatEnabled (chat w) = true →
  is_set (chat_currentSessionId (chat w)) = false →
  let r := run env ChatManager.sendChatMessage w in
  outcome r = Return tt
  ∧ trace r = []
  ∧ (UIManager.has "chatMessages" w = true →
     chat_chatHistory (chat (final r))
     = chat_chatHistory (chat w)
       ++ [ {| turn_type := user; turn_content := message;
               turn_memoryMode := chat_memoryEnabled (chat w) |};
            {| turn_type := assistant;
               turn_content := js "抱歉，回答時發生錯誤：會話ID未設置";
               turn_memoryMode := false |} ]).
Proof.
  intros message Hm He Hs r. unfold r.
  rewrite (sendChatMessage_no_session env w Hm He Hs). cbn [outcome trace final].
  split; [done|]. split; [done|]. intros Hp. fold message.
  destruct (chat_exchange_spec message (js "抱歉，回答時發生錯誤：會話ID未設置") false w
              _ (or_introl eq_refl) Hp) as (Hh & Hc & _).
  exact Hh.
Qed.

Lemma chat_send_without_session_witness :
  let w := on_chat (set_chat_currentSessionId None) question_world in
  let r := run (alone agrees yes) ChatManager.sendChatMessage w in
  is_set (chat_currentSessionId (chat w)) = false ∧ trace r = [].
Proof.
  intros w r. split; [reflexivity|].
  assert (Hm : nonempty (UIManager.getInputValue "chatInput" w) = true)
    by (vm_compute; reflexivity).
  exact (proj1 (proj2 (chat_send_without_session (alone agrees yes) w Hm eq_refl eq_refl))).
Defined.
